(** * CTAD protocol: declaration ledger and contribution reward engine

    A shallow embedding of [src/lib/actions.ts], [src/lib/process-utils.ts]
    and [src/app/api/process-declaration/route.ts], followed by the
    properties of these programs.

    Conventions of the embedding.
    - A JavaScript string is a [string]; its characters are read as the code
      units 0..255 (the Latin-1 range), on which [toLowerCase] and [trim] are
      defined exactly as ECMAScript does.
    - A JavaScript number that holds a count or a number of points (array
      lengths, base points, total points) is a [Z]; a JavaScript number that
      holds a fraction (taste score, multipliers, session duration) is a
      binary64 [float], with the IEEE-754 operations of the kernel.
    - A value that may be [undefined] or [null] is an [option].
    - The database is a record of tables, each table a list of rows in
      insertion order; every action takes the database and returns the new
      one.  Values that Prisma generates (identifiers, creation times) are
      arguments of the action that creates the row. *)

From Stdlib Require Import ZArith List String Ascii Bool Lia Floats Uint63
  Sorted Permutation DecimalString.
Import ListNotations.

Set Warnings "-inexact-float".

Local Open Scope string_scope.
Local Open Scope list_scope.
Local Open Scope Z_scope.

(* ================================================================== *)
(** * Part I: the embedding *)
(* ================================================================== *)

(** ** JavaScript primitives used by the sources *)

Module JS.

(** [String.prototype.toLowerCase] on a code unit below 256: the letters
    A-Z and the Latin-1 capitals U+00C0..U+00DE (U+00D7, the multiplication
    sign, apart) move up by 32; every other code unit is kept. *)
Definition lower_char (c : ascii) : ascii :=
  let n := nat_of_ascii c in
  if ((65 <=? n) && (n <=? 90))%nat then ascii_of_nat (n + 32)
  else if ((192 <=? n) && (n <=? 222) && negb (n =? 215))%nat
       then ascii_of_nat (n + 32)
  else c.

Fixpoint toLowerCase (s : string) : string :=
  match s with
  | EmptyString => EmptyString
  | String c r => String (lower_char c) (toLowerCase r)
  end.

(** [String.prototype.toUpperCase] on a code unit below 256: the letters
    a-z and the Latin-1 small letters U+00E0..U+00FE (U+00F7, the division
    sign, apart) move down by 32, and the sharp s U+00DF becomes [SS].  The
    capitals of U+00B5 and U+00FF lie above 255; the sources apply the
    function to the names of the tiers only, and these two code units are
    kept here. *)
Definition upper_char (c : ascii) : string :=
  let n := nat_of_ascii c in
  if ((97 <=? n) && (n <=? 122))%nat then String (ascii_of_nat (n - 32)) EmptyString
  else if ((224 <=? n) && (n <=? 254) && negb (n =? 247))%nat
       then String (ascii_of_nat (n - 32)) EmptyString
  else if (n =? 223)%nat then "SS"
  else String c EmptyString.

Fixpoint toUpperCase (s : string) : string :=
  match s with
  | EmptyString => EmptyString
  | String c r => (upper_char c ++ toUpperCase r)%string
  end.

(** White space and line terminators of ECMAScript below 256:
    TAB, LF, VT, FF, CR, SP and NBSP. *)
Definition is_space (c : ascii) : bool :=
  let n := nat_of_ascii c in
  ((n =? 9) || (n =? 10) || (n =? 11) || (n =? 12) || (n =? 13)
   || (n =? 32) || (n =? 160))%nat.

Fixpoint trimStart (s : string) : string :=
  match s with
  | EmptyString => EmptyString
  | String c r => if is_space c then trimStart r else s
  end.

(** [trimEnd] drops the trailing white space: a character is kept when it
    is not a space or when something is kept after it. *)
Fixpoint trimEnd (s : string) : string :=
  match s with
  | EmptyString => EmptyString
  | String c r =>
      match trimEnd r with
      | EmptyString => if is_space c then EmptyString else String c EmptyString
      | r' => String c r'
      end
  end.

Definition trim (s : string) : string := trimEnd (trimStart s).

(** Truthiness of a string: every string but the empty one. *)
Definition truthy_string (s : string) : bool :=
  match s with EmptyString => false | _ => true end.

(** Truthiness of [string | null | undefined]. *)
Definition truthy (o : option string) : bool :=
  match o with Some s => truthy_string s | None => false end.

(** [x?.trim()]: [undefined] when [x] is null. *)
Definition opt_trim (o : option string) : option string :=
  option_map trim o.

(** [!x?.trim()]: the field is missing or blank. *)
Definition blank (o : option string) : bool := negb (truthy (opt_trim o)).

(** The string held by a value that the code has checked not to be null
    (a null here would be a TypeError in the source; the checks before
    every use exclude it). *)
Definition str (o : option string) : string :=
  match o with Some s => s | None => EmptyString end.

(** [x?.trim() || null]. *)
Definition trim_or_null (o : option string) : option string :=
  match opt_trim o with
  | Some s => if truthy_string s then Some s else None
  | None => None
  end.

(** [String.prototype.includes]. *)
Fixpoint prefixb (p s : string) : bool :=
  match p, s with
  | EmptyString, _ => true
  | String a p', String b s' => Ascii.eqb a b && prefixb p' s'
  | String _ _, EmptyString => false
  end.

Fixpoint includes (s p : string) : bool :=
  prefixb p s ||
  match s with
  | EmptyString => false
  | String _ r => includes r p
  end.

(** *** Property access on an object literal

    [obj[key]] on an object literal first looks at the own properties and
    then at [Object.prototype].  The own properties are an association
    list in source order. *)

Definition Object_prototype : list string :=
  [ "constructor"; "__defineGetter__"; "__defineSetter__";
    "hasOwnProperty"; "__lookupGetter__"; "__lookupSetter__";
    "isPrototypeOf"; "propertyIsEnumerable"; "toString"; "valueOf";
    "__proto__"; "toLocaleString" ].

(** The outcome of a property access. *)
Inductive Lookup (A : Type) : Type :=
| Own (a : A)               (* an own property *)
| Inherited (name : string) (* a member of Object.prototype: an object *)
| Undefined.
Arguments Own {A} a.
Arguments Inherited {A} name.
Arguments Undefined {A}.

Fixpoint own_property {A} (obj : list (string * A)) (key : string) : option A :=
  match obj with
  | [] => None
  | (k, v) :: r => if String.eqb k key then Some v else own_property r key
  end.

Definition mem_string (k : string) (l : list string) : bool :=
  existsb (String.eqb k) l.

Definition get {A} (obj : list (string * A)) (key : string) : Lookup A :=
  match own_property obj key with
  | Some v => Own v
  | None => if mem_string key Object_prototype then Inherited key else Undefined
  end.

(** [obj[key] = v] for a primitive value [v] on an object literal: an own
    property is overwritten in place, a new one is added after the others;
    the key [__proto__] names the accessor of [Object.prototype], whose
    setter ignores a value that is not an object, so that nothing is
    stored. *)
Fixpoint define {A} (obj : list (string * A)) (key : string) (v : A)
  : list (string * A) :=
  match obj with
  | [] => [(key, v)]
  | (k, old) :: r => if String.eqb k key then (k, v) :: r
                     else (k, old) :: define r key v
  end.

Definition assign {A} (obj : list (string * A)) (key : string) (v : A)
  : list (string * A) :=
  if String.eqb key "__proto__" then obj else define obj key v.

(** A value that is a string or one of the objects of [Object.prototype]. *)
Inductive Value : Type :=
| VString (s : string)
| VBuiltin (name : string).

(** [ToPropertyKey] of such a value: a string is its own key, the object
    [Object.prototype] prints as [[object Object]], a built-in function as
    its source text. *)
Definition toPropertyKey (v : Value) : string :=
  match v with
  | VString s => s
  | VBuiltin name =>
      if String.eqb name "__proto__" then "[object Object]"
      else if String.eqb name "constructor"
           then "function Object() { [native code] }"
      else ("function " ++ name ++ "() { [native code] }")%string
  end.

(** *** Numbers *)

(** The number that holds the integer [z], for [|z| < 2^63]
    (exact below 2^53). *)
Definition Z2F (z : Z) : float :=
  if z <? 0 then PrimFloat.opp (of_uint63 (Uint63.of_Z (- z)))
  else of_uint63 (Uint63.of_Z z).

(** Truthiness of a number: every number but [0], [-0] and [NaN]. *)
Definition truthy_number (x : float) : bool :=
  negb (PrimFloat.eqb x 0 || PrimFloat.is_nan x).

(** [Math.round] as an integer: the integer nearest to [x], the larger one
    on a tie, that is [floor (x + 1/2)] computed exactly on the mantissa
    and exponent of [x]; [None] for NaN and the infinities. *)
Definition round_half_up (s : bool) (m : positive) (e : Z) : Z :=
  let v := if s then Z.neg m else Z.pos m in
  if 0 <=? e then v * 2 ^ e
  else (v + 2 ^ (- e - 1)) / 2 ^ (- e).

Definition Math_round_Z (x : float) : option Z :=
  match Prim2SF x with
  | S754_zero _ => Some 0
  | S754_finite s m e => Some (round_half_up s m e)
  | S754_infinity _ | S754_nan => None
  end.

(** [Math.round] as a number: NaN, the infinities and the zeros are
    returned as they are, a number of magnitude at least 2^52 is already an
    integer, and a negative number that rounds to zero gives [-0]. *)
Definition Math_round (x : float) : float :=
  if PrimFloat.leb 0x1p52 (PrimFloat.abs x) then x
  else match Math_round_Z x with
       | Some 0 => if PrimFloat.ltb x 0 then (-0)%float
                   else if PrimFloat.eqb x 0 then x else 0%float
       | Some z => Z2F z
       | None => x
       end.

(** [Math.min] and [Math.max] of two numbers: NaN if either is NaN, and
    [-0] counts as smaller than [+0]. *)
Definition is_neg_zero (x : float) : bool :=
  PrimFloat.eqb x 0 && PrimFloat.get_sign x.

Definition Math_min (a b : float) : float :=
  if PrimFloat.is_nan a || PrimFloat.is_nan b then nan
  else if PrimFloat.ltb a b then a
  else if PrimFloat.ltb b a then b
  else if is_neg_zero a then a else b.

Definition Math_max (a b : float) : float :=
  if PrimFloat.is_nan a || PrimFloat.is_nan b then nan
  else if PrimFloat.ltb a b then b
  else if PrimFloat.ltb b a then a
  else if is_neg_zero a then b else a.

End JS.

(** ** SHA-256 ([createHash('sha256')] of Node's [crypto], FIPS 180-4)

    Words are 32-bit integers in [Z]; every addition is reduced modulo 2^32. *)

Module Sha256.

Definition w32 (x : Z) : Z := x mod 2 ^ 32.
Definition add32 (x y : Z) : Z := w32 (x + y).
Definition rotr (n x : Z) : Z :=
  w32 (Z.lor (Z.shiftr x n) (Z.shiftl x (32 - n))).
Definition not32 (x : Z) : Z := 2 ^ 32 - 1 - x.

Definition Ch (x y z : Z) : Z := Z.lxor (Z.land x y) (Z.land (not32 x) z).
Definition Maj (x y z : Z) : Z :=
  Z.lxor (Z.lxor (Z.land x y) (Z.land x z)) (Z.land y z).
Definition Sigma0 (x : Z) : Z := Z.lxor (Z.lxor (rotr 2 x) (rotr 13 x)) (rotr 22 x).
Definition Sigma1 (x : Z) : Z := Z.lxor (Z.lxor (rotr 6 x) (rotr 11 x)) (rotr 25 x).
Definition sigma0 (x : Z) : Z := Z.lxor (Z.lxor (rotr 7 x) (rotr 18 x)) (Z.shiftr x 3).
Definition sigma1 (x : Z) : Z := Z.lxor (Z.lxor (rotr 17 x) (rotr 19 x)) (Z.shiftr x 10).

(** The constants of the standard are fractional parts of roots of the
    first primes, 32 bits each: of the cube roots of the first sixty-four
    primes for the round constants, of the square roots of the first
    eight primes for the initial hash value. *)
Definition is_prime (n : nat) : bool :=
  forallb (fun d => negb (Nat.modulo n d =? 0)%nat) (seq 2 (n - 2)).

Definition primes : list Z :=
  Eval vm_compute in map Z.of_nat (filter is_prime (seq 2 310)).

(** The integer cube root, one bit at a time from the top. *)
Fixpoint cbrt_bits (bits : nat) (n r : Z) : Z :=
  match bits with
  | O => r
  | S b =>
      let c := r + 2 ^ Z.of_nat b in
      cbrt_bits b n (if c * c * c <=? n then c else r)
  end.

Definition frac_cbrt (p : Z) : Z := w32 (cbrt_bits 40 (p * 2 ^ 96) 0).
Definition frac_sqrt (p : Z) : Z := w32 (Z.sqrt (p * 2 ^ 64)).

Definition K : list Z := Eval vm_compute in map frac_cbrt primes.

(** The eight working variables, and the hash value between blocks. *)
Record state : Type := mkState { ha : Z; hb : Z; hc : Z; hd : Z;
                                 he : Z; hf : Z; hg : Z; hh : Z }.

Definition H0 : state :=
  Eval vm_compute in
    mkState (frac_sqrt 2) (frac_sqrt 3) (frac_sqrt 5) (frac_sqrt 7)
            (frac_sqrt 11) (frac_sqrt 13) (frac_sqrt 17) (frac_sqrt 19).

(** Padding: the byte 0x80, zero bytes up to 56 modulo 64, and the length
    of the message in bits as a 64-bit big-endian integer. *)
Definition be_bytes (n : nat) (x : Z) : list Z :=
  map (fun i => Z.shiftr x (8 * Z.of_nat i) mod 256) (rev (seq 0 n)).

Definition pad (msg : list Z) : list Z :=
  let len := Z.of_nat (List.length msg) in
  let zeros := Z.to_nat ((55 - len) mod 64) in
  msg ++ [0x80] ++ repeat 0 zeros ++ be_bytes 8 (8 * len).

Fixpoint words (fuel : nat) (bs : list Z) : list Z :=
  match fuel, bs with
  | S fuel', b0 :: b1 :: b2 :: b3 :: r =>
      (b0 * 2 ^ 24 + b1 * 2 ^ 16 + b2 * 2 ^ 8 + b3) :: words fuel' r
  | _, _ => []
  end.

(** The message schedule: sixteen words of the block, extended to 64. *)
Fixpoint extend (n : nat) (w : list Z) : list Z :=
  match n with
  | O => w
  | S n' =>
      let i := List.length w in
      let at_ k := nth (i - k) w 0 in
      extend n' (w ++ [add32 (add32 (sigma1 (at_ 2%nat)) (at_ 7%nat))
                             (add32 (sigma0 (at_ 15%nat)) (at_ 16%nat))])
  end.

Definition round (s : state) (kw : Z * Z) : state :=
  let '(k, w) := kw in
  let t1 := add32 (add32 (add32 (hh s) (Sigma1 (he s)))
                         (add32 (Ch (he s) (hf s) (hg s)) k)) w in
  let t2 := add32 (Sigma0 (ha s)) (Maj (ha s) (hb s) (hc s)) in
  mkState (add32 t1 t2) (ha s) (hb s) (hc s)
          (add32 (hd s) t1) (he s) (hf s) (hg s).

Definition compress (h : state) (block : list Z) : state :=
  let w := extend 48 (words 16 block) in
  let s := fold_left round (combine K w) h in
  mkState (add32 (ha h) (ha s)) (add32 (hb h) (hb s))
          (add32 (hc h) (hc s)) (add32 (hd h) (hd s))
          (add32 (he h) (he s)) (add32 (hf h) (hf s))
          (add32 (hg h) (hg s)) (add32 (hh h) (hh s)).

Fixpoint blocks (fuel : nat) (h : state) (bs : list Z) : state :=
  match fuel, bs with
  | S fuel', _ :: _ => blocks fuel' (compress h (firstn 64 bs)) (skipn 64 bs)
  | _, _ => h
  end.

Definition hash (msg : list Byte.byte) : state :=
  let bs := pad (map (fun b => Z.of_N (Byte.to_N b)) msg) in
  blocks (List.length bs) H0 bs.

(** [digest('hex')]: two lowercase hexadecimal digits per byte. *)
Definition hex_digit (n : Z) : ascii :=
  match n with
  | 0 => "0" | 1 => "1" | 2 => "2" | 3 => "3" | 4 => "4" | 5 => "5"
  | 6 => "6" | 7 => "7" | 8 => "8" | 9 => "9" | 10 => "a" | 11 => "b"
  | 12 => "c" | 13 => "d" | 14 => "e" | _ => "f"
  end%char.

Definition hex_word (w : Z) : list ascii :=
  map (fun i => hex_digit (Z.shiftr w (4 * Z.of_nat i) mod 16)) (rev (seq 0 8)).

Definition hex (s : state) : string :=
  string_of_list_ascii
    (hex_word (ha s) ++ hex_word (hb s) ++ hex_word (hc s) ++ hex_word (hd s)
     ++ hex_word (he s) ++ hex_word (hf s) ++ hex_word (hg s) ++ hex_word (hh s)).

End Sha256.

(** ** The declaration ledger ([src/lib/actions.ts]) *)

Module Ledger.

(** *** Tables

    Modelled from the spec: the Prisma schema of the repository is not
    among the sources; the rows carry the attributes that the data model
    of the specification lists and that the actions read and write. *)

Record Work : Type := mkWork {
  work_id : string;
  work_title : string;
  work_createdAt : Z }.

Record Declaration : Type := mkDeclaration {
  decl_id : string;
  decl_workId : string;
  decl_createdAt : Z;
  decl_intent : string;
  decl_tools : string;
  decl_aiUsed : bool;
  decl_contributors : option string }.

Record DeclarationRevision : Type := mkRevision {
  rev_id : string;
  rev_declarationId : string;
  rev_createdAt : Z;
  rev_changeNote : string;
  rev_intent : option string;
  rev_tools : option string;
  rev_aiUsed : option bool;
  rev_contributors : option string }.

Record AudioReference : Type := mkAudioReference {
  audio_id : string;
  audio_declarationId : string;
  audio_createdAt : Z;
  audio_fileName : string;
  audio_sha256 : string;
  audio_description : option string }.

Record DB : Type := mkDB {
  works : list Work;
  declarations : list Declaration;
  revisions : list DeclarationRevision;
  audioRefs : list AudioReference }.

(** What a server action gives back: an [{ error }] object, a
    [{ success: true }] object, or a redirect. *)
Inductive ActionResult : Type :=
| ActionError (message : string)
| ActionSuccess
| ActionRedirect (path : string).

(** *** Form data *)

Record File : Type := mkFile {
  file_name : string;
  file_bytes : list Byte.byte }.

Definition file_size (f : File) : Z := Z.of_nat (List.length (file_bytes f)).

Record WorkForm : Type := mkWorkForm {
  wf_title : option string;
  wf_intent : option string;
  wf_tools : option string;
  wf_aiUsed : option string;
  wf_contributors : option string;
  wf_audioFiles : list File }.

Record RevisionForm : Type := mkRevisionForm {
  rf_declarationId : option string;
  rf_changeNote : option string;
  rf_intent : option string;
  rf_tools : option string;
  rf_aiUsed : option string;
  rf_contributors : option string }.

(** The identifiers and the creation time that Prisma gives to the rows of
    one [create]. *)
Record WorkGen : Type := mkWorkGen {
  gen_now : Z;
  gen_workId : string;
  gen_declarationId : string;
  gen_audioId : nat -> string }.

Record RevisionGen : Type := mkRevisionGen {
  gen_revNow : Z;
  gen_revisionId : string }.

(** *** computeSha256 *)

Definition computeSha256 (buffer : list Byte.byte) : string :=
  Sha256.hex (Sha256.hash buffer).

(** *** createWork *)

(** The [{ fileName, sha256 }] entries: one for each file of nonzero size. *)
Fixpoint audioRefData (audioFiles : list File) : list (string * string) :=
  match audioFiles with
  | [] => []
  | file :: rest =>
      if 0 <? file_size file
      then (file_name file, computeSha256 (file_bytes file)) :: audioRefData rest
      else audioRefData rest
  end.

Fixpoint createAudioRefs (g : WorkGen) (i : nat) (data : list (string * string))
  : list AudioReference :=
  match data with
  | [] => []
  | (fileName, sha256) :: rest =>
      mkAudioReference (gen_audioId g i) (gen_declarationId g) (gen_now g)
                       fileName sha256 None
      :: createAudioRefs g (S i) rest
  end.

Definition createWork (g : WorkGen) (db : DB) (formData : WorkForm)
  : ActionResult * DB :=
  let title := wf_title formData in
  let intent := wf_intent formData in
  let tools := wf_tools formData in
  let aiUsed :=
    match wf_aiUsed formData with
    | Some v => String.eqb v "true"
    | None => false
    end in
  let contributors := wf_contributors formData in
  let audioFiles := wf_audioFiles formData in
  if JS.blank title then (ActionError "Work title is required", db)
  else if JS.blank intent then (ActionError "Intent statement is required", db)
  else if JS.blank tools then (ActionError "Tools used is required", db)
  else
    let data := audioRefData audioFiles in
    let work := mkWork (gen_workId g) (JS.trim (JS.str title)) (gen_now g) in
    let declaration :=
      mkDeclaration (gen_declarationId g) (work_id work) (gen_now g)
                    (JS.trim (JS.str intent)) (JS.trim (JS.str tools))
                    aiUsed (JS.trim_or_null contributors) in
    (ActionRedirect ("/work/" ++ work_id work)%string,
     mkDB (works db ++ [work])
          (declarations db ++ [declaration])
          (revisions db)
          (audioRefs db ++ createAudioRefs g 0 data)).

(** *** createRevision *)

Definition findDeclaration (db : DB) (id : string) : option Declaration :=
  find (fun d => String.eqb (decl_id d) id) (declarations db).

Definition createRevision (g : RevisionGen) (db : DB) (formData : RevisionForm)
  : ActionResult * DB :=
  let declarationId := rf_declarationId formData in
  let changeNote := rf_changeNote formData in
  let intent := rf_intent formData in
  let tools := rf_tools formData in
  let aiUsedValue := rf_aiUsed formData in
  let aiUsed :=
    match aiUsedValue with
    | Some v => if String.eqb v "true" then Some true
                else if String.eqb v "false" then Some false
                else None
    | None => None
    end in
  let contributors := rf_contributors formData in
  if negb (JS.truthy declarationId)
  then (ActionError "Declaration ID is required", db)
  else if JS.blank changeNote
  then (ActionError "Change note is required", db)
  else
    match findDeclaration db (JS.str declarationId) with
    | None => (ActionError "Declaration not found", db)
    | Some declaration =>
        let revision :=
          mkRevision (gen_revisionId g) (JS.str declarationId) (gen_revNow g)
                     (JS.trim (JS.str changeNote))
                     (JS.trim_or_null intent)
                     (JS.trim_or_null tools)
                     aiUsed
                     (JS.trim_or_null contributors) in
        (ActionSuccess,
         mkDB (works db) (declarations db)
              (revisions db ++ [revision]) (audioRefs db))
    end.

(** *** getWork *)

(** [orderBy: { createdAt: 'asc' }]: a stable insertion sort on the
    creation time, rows of equal time staying in insertion order. *)
Fixpoint insertBy {A} (key : A -> Z) (x : A) (l : list A) : list A :=
  match l with
  | [] => [x]
  | y :: r => if key x <=? key y then x :: l else y :: insertBy key x r
  end.

Definition orderBy {A} (key : A -> Z) (l : list A) : list A :=
  fold_right (insertBy key) [] l.

Record DeclarationView : Type := mkDeclarationView {
  dv_declaration : Declaration;
  dv_revisions : list DeclarationRevision;
  dv_audioRefs : list AudioReference }.

Record WorkView : Type := mkWorkView {
  wv_work : Work;
  wv_declaration : option DeclarationView }.

Definition includeDeclaration (db : DB) (d : Declaration) : DeclarationView :=
  mkDeclarationView d
    (orderBy rev_createdAt
       (filter (fun r => String.eqb (rev_declarationId r) (decl_id d)) (revisions db)))
    (orderBy audio_createdAt
       (filter (fun a => String.eqb (audio_declarationId a) (decl_id d)) (audioRefs db))).

Definition getWork (db : DB) (id : string) : option WorkView :=
  match find (fun w => String.eqb (work_id w) id) (works db) with
  | None => None
  | Some work =>
      Some (mkWorkView work
              (option_map (includeDeclaration db)
                 (find (fun d => String.eqb (decl_workId d) (work_id work))
                       (declarations db))))
  end.

(** *** exportWorkAsJson *)

Record ExportedWork : Type := mkExportedWork {
  xw_id : string;
  xw_title : string;
  xw_createdAt : string }.

Record ExportedDeclaration : Type := mkExportedDeclaration {
  xd_id : string;
  xd_createdAt : string;
  xd_intent : string;
  xd_tools : string;
  xd_aiUsed : bool;
  xd_contributors : option string }.

Record ExportedAudio : Type := mkExportedAudio {
  xa_id : string;
  xa_createdAt : string;
  xa_fileName : string;
  xa_sha256 : string;
  xa_description : option string }.

Record ExportedRevision : Type := mkExportedRevision {
  xr_id : string;
  xr_createdAt : string;
  xr_changeNote : string;
  xr_intent : option string;
  xr_tools : option string;
  xr_aiUsed : option bool;
  xr_contributors : option string }.

Record ExportDocument : Type := mkExportDocument {
  x_protocol : string;
  x_version : string;
  x_exportedAt : string;
  x_work : ExportedWork;
  x_declaration : option ExportedDeclaration;
  x_audioReferences : list ExportedAudio;
  x_revisions : list ExportedRevision }.

(** The body and the headers of the response of the export endpoint. *)
Inductive ExportBody : Type :=
| ExportError (error : string)   (* { error } *)
| ExportText (text : string).    (* the document, serialised *)

Record ExportResponse : Type := mkExportResponse {
  xs_status : Z;
  xs_body : ExportBody;
  xs_contentType : string;
  xs_contentDisposition : option string }.

(** The double quote, as a string. *)
Definition dquote : string := String (ascii_of_nat 34) EmptyString.

Section WithSerialiser.

(** [Date.prototype.toISOString] of the time value of a valid date. *)
Variable Date_toISOString : Z -> string.

(** [JSON.stringify(data, null, 2)]. *)
Variable JSON_stringify : ExportDocument -> string.

Definition exportAudio (a : AudioReference) : ExportedAudio :=
  mkExportedAudio (audio_id a) (Date_toISOString (audio_createdAt a))
                  (audio_fileName a) (audio_sha256 a) (audio_description a).

Definition exportRevision (r : DeclarationRevision) : ExportedRevision :=
  mkExportedRevision (rev_id r) (Date_toISOString (rev_createdAt r))
                     (rev_changeNote r) (rev_intent r) (rev_tools r)
                     (rev_aiUsed r) (rev_contributors r).

(** [now] is the time value of [new Date()]. *)
Definition exportWorkAsJson (now : Z) (db : DB) (id : string)
  : option ExportDocument :=
  match getWork db id with
  | None => None
  | Some work =>
      Some (mkExportDocument "CTAD" "1.1" (Date_toISOString now)
              (mkExportedWork (work_id (wv_work work)) (work_title (wv_work work))
                 (Date_toISOString (work_createdAt (wv_work work))))
              (match wv_declaration work with
               | Some dv =>
                   let d := dv_declaration dv in
                   Some (mkExportedDeclaration (decl_id d)
                           (Date_toISOString (decl_createdAt d))
                           (decl_intent d) (decl_tools d) (decl_aiUsed d)
                           (decl_contributors d))
               | None => None
               end)
              (match wv_declaration work with
               | Some dv => map exportAudio (dv_audioRefs dv)
               | None => []
               end)
              (match wv_declaration work with
               | Some dv => map exportRevision (dv_revisions dv)
               | None => []
               end))
  end.

(** The [GET] handler of the export endpoint: [/api/export/:id]. *)
Definition exportGET (now : Z) (db : DB) (id : string) : ExportResponse :=
  match exportWorkAsJson now db id with
  | None => mkExportResponse 404 (ExportError "Work not found")
                             "application/json" None
  | Some data =>
      mkExportResponse 200 (ExportText (JSON_stringify data)) "application/json"
        (Some ("attachment; filename=" ++ dquote ++ "ctad-" ++ id ++ ".json"
               ++ dquote)%string)
  end.

End WithSerialiser.

(** *** getAllWorks ([src/app/library/page.tsx]) *)

(** [orderBy: { createdAt: 'desc' }]: the stable insertion sort again, the
    newest row first. *)
Fixpoint insertByDesc {A} (key : A -> Z) (x : A) (l : list A) : list A :=
  match l with
  | [] => [x]
  | y :: r => if key y <=? key x then x :: l else y :: insertByDesc key x r
  end.

Definition orderByDesc {A} (key : A -> Z) (l : list A) : list A :=
  fold_right (insertByDesc key) [] l.

(** [include: { revisions: true, audioRefs: true }]: the rows of the
    declaration, in no stated order (here the order of insertion). *)
Definition includeAll (db : DB) (d : Declaration) : DeclarationView :=
  mkDeclarationView d
    (filter (fun r => String.eqb (rev_declarationId r) (decl_id d)) (revisions db))
    (filter (fun a => String.eqb (audio_declarationId a) (decl_id d)) (audioRefs db)).

Definition getAllWorks (db : DB) : list WorkView :=
  map (fun work =>
         mkWorkView work
           (option_map (includeAll db)
              (find (fun d => String.eqb (decl_workId d) (work_id work))
                    (declarations db))))
      (orderByDesc work_createdAt (works db)).

End Ledger.

(** ** The contribution reward engine ([src/lib/process-utils.ts]) *)

Module Reward.

(** *** Types of [src/lib/types/process.ts] *)

Inductive ContributorTier : Type := explorer | curator | tastemaker | oracle.

Record PromptVersion : Type := mkPromptVersion {
  pv_id : string;
  pv_content : string;
  pv_timestamp : string;
  pv_parentId : option string;
  pv_mode : string;
  pv_platform : string }.

Record RejectedOutput : Type := mkRejectedOutput {
  ro_id : string;
  ro_promptVersionId : string;
  ro_timestamp : string;
  ro_reason : option string;
  ro_customFeedback : option string }.

Record SelectedOutput : Type := mkSelectedOutput {
  so_id : string;
  so_promptVersionId : string;
  so_timestamp : string;
  so_likeReason : option string;
  so_customFeedback : option string;
  so_outputHash : option string }.

Record ProcessDeclarationInput : Type := mkInput {
  platform : string;
  sessionStartedAt : string;
  sessionEndedAt : option string;
  sessionDuration : option float;
  iterationCount : Z;
  promptLineage : list PromptVersion;
  rejectedOutputs : list RejectedOutput;
  selectedOutput : option SelectedOutput;
  consentForTrainingData : bool;
  consentTimestamp : option string;
  consentVersion : option string;
  contributorId : option string;
  expertiseTags : option (list string) }.

Record ContributorReward : Type := mkReward {
  pointsEarned : Z;
  newTotal : Z;
  tierChange : option (ContributorTier * ContributorTier);
  qualityMultiplier : float;
  rarityBonus : float }.

(** *** Constants *)

Record Range : Type := mkRange { min : Z; max : option Z (* None: Infinity *) }.

Definition TIER_THRESHOLDS_LOCAL (t : ContributorTier) : Range :=
  match t with
  | explorer => mkRange 0 (Some 99)
  | curator => mkRange 100 (Some 499)
  | tastemaker => mkRange 500 (Some 1999)
  | oracle => mkRange 2000 None
  end.

Definition PLATFORM_RARITY_LOCAL : list (string * float) :=
  [ ("MIDJOURNEY", 0.8); ("CHATGPT", 0.7); ("DALLE", 0.9);
    ("STABLE_DIFFUSION", 1.0); ("SUNO", 1.2); ("UDIO", 1.3);
    ("RUNWAY", 1.4); ("PIKA", 1.5); ("HIGGSFIELD", 1.8); ("FLUX", 1.3);
    ("LEONARDO", 1.1); ("CLAUDE", 0.9); ("UNKNOWN", 1.0) ]%float.

(** The two tables of [src/lib/types/process.ts], keyed by the lowercase
    names of the tiers and of the platforms. *)
Definition TIER_THRESHOLDS (t : ContributorTier) : Range :=
  match t with
  | explorer => mkRange 0 (Some 99)
  | curator => mkRange 100 (Some 499)
  | tastemaker => mkRange 500 (Some 1999)
  | oracle => mkRange 2000 None
  end.

Definition PLATFORM_RARITY : list (string * float) :=
  [ ("midjourney", 0.8); ("chatgpt", 0.7); ("dalle", 0.9);
    ("stable-diffusion", 1.0); ("suno", 1.2); ("udio", 1.3);
    ("runway", 1.4); ("pika", 1.5); ("higgsfield", 1.8); ("flux", 1.3);
    ("leonardo", 1.1); ("claude", 0.9); ("unknown", 1.0) ]%float.

(** *** validateProcessInput *)

Record ValidationResult : Type := mkValidation {
  valid : bool;
  error : option string }.

Definition invalid (msg : string) : ValidationResult := mkValidation false (Some msg).

Definition index_string (i : nat) : string :=
  NilZero.string_of_uint (Nat.to_uint i).

Fixpoint checkLineage (i : nat) (l : list PromptVersion) : option string :=
  match l with
  | [] => None
  | version :: r =>
      if negb (JS.truthy_string (pv_id version))
         || negb (JS.truthy_string (pv_content version))
         || negb (JS.truthy_string (pv_timestamp version))
         || negb (JS.truthy_string (pv_mode version))
      then Some ("Invalid prompt version at index " ++ index_string i
                 ++ ": missing required fields (id, content, timestamp, mode)")%string
      else checkLineage (S i) r
  end.

Fixpoint checkRejections (i : nat) (l : list RejectedOutput) : option string :=
  match l with
  | [] => None
  | rejection :: r =>
      if negb (JS.truthy_string (ro_id rejection))
         || negb (JS.truthy_string (ro_promptVersionId rejection))
         || negb (JS.truthy_string (ro_timestamp rejection))
      then Some ("Invalid rejected output at index " ++ index_string i
                 ++ ": missing required fields (id, promptVersionId, timestamp)")%string
      else checkRejections (S i) r
  end.

Section WithDate.

(** [new Date(s).getTime()]: the time value in milliseconds, [None] for
    an invalid date (where [getTime()] is NaN). *)
Variable Date_getTime : string -> option Z.

Definition validateProcessInput (input : ProcessDeclarationInput)
  : ValidationResult :=
  if negb (JS.truthy_string (platform input))
  then invalid "Platform is required"
  else if negb (JS.truthy_string (sessionStartedAt input))
  then invalid "Session start time is required"
  else
    match Date_getTime (sessionStartedAt input) with
    | None => invalid "Invalid session start time format (expected ISO 8601)"
    | Some _ =>
        match checkLineage 0 (promptLineage input) with
        | Some msg => invalid msg
        | None =>
            match checkRejections 0 (rejectedOutputs input) with
            | Some msg => invalid msg
            | None =>
                if match selectedOutput input with
                   | Some selection =>
                       negb (JS.truthy_string (so_id selection))
                       || negb (JS.truthy_string (so_promptVersionId selection))
                       || negb (JS.truthy_string (so_timestamp selection))
                   | None => false
                   end
                then invalid "Invalid selected output: missing required fields (id, promptVersionId, timestamp)"
                else if consentForTrainingData input
                        && negb (JS.truthy (consentTimestamp input))
                then invalid "Consent timestamp required when consent is given"
                else mkValidation true None
            end
        end
    end.

End WithDate.

(** *** mapPlatformToEnum *)

Definition platformMap : list (string * string) :=
  [ ("midjourney", "MIDJOURNEY"); ("suno", "SUNO"); ("udio", "UDIO");
    ("runway", "RUNWAY"); ("pika", "PIKA"); ("dalle", "DALLE");
    ("flux", "FLUX"); ("leonardo", "LEONARDO");
    ("stable-diffusion", "STABLE_DIFFUSION"); ("higgsfield", "HIGGSFIELD");
    ("chatgpt", "CHATGPT"); ("claude", "CLAUDE") ].

(** [platformMap[platform.toLowerCase()] || 'UNKNOWN'].  The declared
    result is a string; a key that [Object.prototype] defines gives the
    inherited object, which is truthy. *)
Definition mapPlatformToEnum (platform : string) : JS.Value :=
  match JS.get platformMap (JS.toLowerCase platform) with
  | JS.Own v => if JS.truthy_string v then JS.VString v else JS.VString "UNKNOWN"
  | JS.Inherited name => JS.VBuiltin name
  | JS.Undefined => JS.VString "UNKNOWN"
  end.

(** *** calculateTier *)

(** [newTier !== previousTier] compares two tiers. *)
Definition tier_eqb (a b : ContributorTier) : bool :=
  match a, b with
  | explorer, explorer | curator, curator
  | tastemaker, tastemaker | oracle, oracle => true
  | _, _ => false
  end.

Definition calculateTier (totalPoints : Z) : ContributorTier :=
  if min (TIER_THRESHOLDS_LOCAL oracle) <=? totalPoints then oracle
  else if min (TIER_THRESHOLDS_LOCAL tastemaker) <=? totalPoints then tastemaker
  else if min (TIER_THRESHOLDS_LOCAL curator) <=? totalPoints then curator
  else explorer.

(** *** tierToPrismaEnum *)

(** The string that a tier is in the source. *)
Definition tier_name (t : ContributorTier) : string :=
  match t with
  | explorer => "explorer"
  | curator => "curator"
  | tastemaker => "tastemaker"
  | oracle => "oracle"
  end.

Definition tierToPrismaEnum (tier : ContributorTier) : string :=
  JS.toUpperCase (tier_name tier).

(** *** The contributor table *)

Record PlatformStat : Type := mkStat { contributions : Z; accuracy : float }.

(** Modelled from the spec: the Prisma schema is not among the sources.
    The contributor row has the attributes of the data model: the total
    points and the contribution count are integer columns, the taste score
    a float column, the tier an enumeration. *)
Record Contributor : Type := mkContributor {
  c_id : string;
  c_anonymousId : string;
  c_totalContributions : Z;
  c_totalPoints : Z;
  c_currentTier : ContributorTier;
  c_tasteScore : float;
  c_expertiseTags : list string;
  c_platformStats : option (list (string * PlatformStat));
  c_consentVersion : option string;
  c_consentTimestamp : option Z }.

Definition findContributor (table : list Contributor) (anonymousId : string)
  : option Contributor :=
  find (fun c => String.eqb (c_anonymousId c) anonymousId) table.

(** [update({ where: { id } , data })]: the row of that id is replaced. *)
Fixpoint updateContributor (table : list Contributor) (id : string)
  (f : Contributor -> Contributor) : list Contributor :=
  match table with
  | [] => []
  | c :: r => if String.eqb (c_id c) id then f c :: r
              else c :: updateContributor r id f
  end.

(** Which of the three Prisma calls of the engine reject (a database
    failure is an input of the model). *)
Record Faults : Type := mkFaults {
  fail_findUnique : bool;
  fail_create : bool;
  fail_update : bool }.

Definition noFaults : Faults := mkFaults false false false.

(** *** calculateContributionReward: base points *)

Definition lineagePoints (input : ProcessDeclarationInput) : Z :=
  Z.min (Z.of_nat (List.length (promptLineage input)) * 2) 20.

Definition rejectionPoints (input : ProcessDeclarationInput) : Z :=
  Z.min (Z.of_nat (List.length (rejectedOutputs input)) * 3) 30.

Definition selectionPoints (input : ProcessDeclarationInput) : Z :=
  match selectedOutput input with
  | Some selected =>
      10 + (if JS.truthy (so_likeReason selected) then 5 else 0)
         + (if JS.truthy (so_customFeedback selected) then 10 else 0)
  | None => 0
  end.

Definition durationPoints (input : ProcessDeclarationInput) : Z :=
  match sessionDuration input with
  | Some d =>
      if JS.truthy_number d then
        let minutes := (d / 60)%float in
        if (15 <=? minutes)%float then 10
        else if (5 <=? minutes)%float then 5
        else if (2 <=? minutes)%float then 2
        else 0
      else 0
  | None => 0
  end.

Definition tagPoints (input : ProcessDeclarationInput) : Z :=
  match expertiseTags input with
  | Some tags =>
      if 0 <? Z.of_nat (List.length tags)
      then Z.min (Z.of_nat (List.length tags) * 2) 6
      else 0
  | None => 0
  end.

Definition basePoints (input : ProcessDeclarationInput) : Z :=
  10 + lineagePoints input + rejectionPoints input + selectionPoints input
     + durationPoints input + tagPoints input.

(** *** calculateContributionReward: multipliers *)

(** [PLATFORM_RARITY_LOCAL[platformEnum] || 1.0].  An inherited member
    would be used as a number in the product, where it is NaN. *)
Definition rarityOf (platformEnum : JS.Value) : float :=
  match JS.get PLATFORM_RARITY_LOCAL (JS.toPropertyKey platformEnum) with
  | JS.Own r => if JS.truthy_number r then r else 1.0%float
  | JS.Inherited _ => nan
  | JS.Undefined => 1.0%float
  end.

(** *** calculateContributionReward: the record update *)

(** [new Set(existing)], each tag added, [Array.from]: the tags in order
    of first occurrence. *)
Fixpoint addTags (seen : list string) (tags : list string) : list string :=
  match tags with
  | [] => seen
  | tag :: r =>
      if JS.mem_string tag seen then addTags seen r
      else addTags (seen ++ [tag]) r
  end.

Definition mergedTags (existing : list string) (tags : option (list string))
  : list string :=
  addTags (addTags [] existing) (match tags with Some l => l | None => [] end).

Fixpoint setStat (stats : list (string * PlatformStat)) (key : string)
  (v : PlatformStat) : list (string * PlatformStat) :=
  match stats with
  | [] => [(key, v)]
  | (k, old) :: r => if String.eqb k key then (k, v) :: r
                     else (k, old) :: setStat r key v
  end.

(** The platform statistics after the contribution.  When the key names a
    member of [Object.prototype] the counter of that built-in object is
    touched, and the stored statistics stay as they were. *)
Definition bumpStats (stats : option (list (string * PlatformStat)))
  (platformKey : string) : list (string * PlatformStat) :=
  let platformStats := match stats with Some s => s | None => [] end in
  match JS.get platformStats platformKey with
  | JS.Own s =>
      setStat platformStats platformKey (mkStat (contributions s + 1) (accuracy s))
  | JS.Undefined =>
      setStat platformStats platformKey (mkStat (0 + 1) 0.5%float)
  | JS.Inherited _ => platformStats
  end.

Section WithDate.

Variable Date_getTime : string -> option Z.

(** The rows the engine creates get their identifier from Prisma. *)
Variable newContributorId : string.

Definition calculateContributionReward (flt : Faults)
  (table : list Contributor)
  (contributorId processDeclarationId : string)
  (input : ProcessDeclarationInput)
  : option ContributorReward * list Contributor :=
  let basePoints := basePoints input in
  if fail_findUnique flt then (None, table) else
  let found := findContributor table contributorId in
  if match found with None => fail_create flt | Some _ => false end
  then (None, table) else
  let '(contributor, table1) :=
    match found with
    | Some c => (c, table)
    | None =>
        let c := mkContributor newContributorId contributorId 0 0 explorer
                   0.5%float
                   (match expertiseTags input with Some l => l | None => [] end)
                   None None None in
        (c, table ++ [c])
    end in
  let qualityMultiplier := (0.5 + c_tasteScore contributor)%float in
  let platformEnum := mapPlatformToEnum (platform input) in
  let rarityBonus := rarityOf platformEnum in
  (* Math.round: the result is stored in an integer column, so that the
     update rejects NaN and the infinities. *)
  match JS.Math_round_Z (JS.Z2F basePoints * qualityMultiplier * rarityBonus)%float with
  | None => (None, table1)
  | Some pointsEarned =>
      let newTotal := c_totalPoints contributor + pointsEarned in
      let previousTier := c_currentTier contributor in
      let newTier := calculateTier newTotal in
      let tierChanged := negb (tier_eqb newTier previousTier) in
      let tags := mergedTags (c_expertiseTags contributor) (expertiseTags input) in
      let platformStats :=
        bumpStats (c_platformStats contributor) (JS.toLowerCase (platform input)) in
      (* new Date(input.consentTimestamp), when given: an invalid Date
         is rejected by the update. *)
      let consentDate :=
        match consentTimestamp input with
        | Some s => if JS.truthy_string s then Some (Date_getTime s) else None
        | None => None
        end in
      if fail_update flt
         || match consentDate with Some None => true | _ => false end
      then (None, table1)
      else
        (Some (mkReward pointsEarned newTotal
                 (if tierChanged then Some (previousTier, newTier) else None)
                 qualityMultiplier rarityBonus),
         updateContributor table1 (c_id contributor)
           (fun c =>
              mkContributor (c_id c) (c_anonymousId c)
                (c_totalContributions contributor + 1)
                newTotal newTier (c_tasteScore c) tags (Some platformStats)
                (match consentVersion input with
                 | Some v => Some v | None => c_consentVersion c end)
                (match consentDate with
                 | Some (Some t) => Some t | _ => c_consentTimestamp c end)))
  end.

End WithDate.

(** *** updateTasteScore *)

Definition updateTasteScore (flt : Faults) (table : list Contributor)
  (contributorId : string) (alignmentScore : float)
  : option float * list Contributor :=
  if fail_findUnique flt then (None, table) else
  match findContributor table contributorId with
  | None => (Some 0.5%float, table)
  | Some contributor =>
      let alpha := 0.2%float in
      let newTasteScore :=
        (c_tasteScore contributor * (1 - alpha) + alignmentScore * alpha)%float in
      let clampedScore := JS.Math_max 0 (JS.Math_min 1 newTasteScore) in
      if fail_update flt then (None, table)
      else
        (Some clampedScore,
         updateContributor table (c_id contributor)
           (fun c =>
              mkContributor (c_id c) (c_anonymousId c) (c_totalContributions c)
                (c_totalPoints c) (c_currentTier c) clampedScore
                (c_expertiseTags c) (c_platformStats c)
                (c_consentVersion c) (c_consentTimestamp c)))
  end.

End Reward.

(** ** The ingestion endpoint ([src/app/api/process-declaration/route.ts]) *)

Module Route.

Import Reward.

(** Modelled from the spec: the ProcessDeclaration row, with the
    attributes of the data model (the Prisma schema is not among the
    sources). *)
Record ProcessDeclaration : Type := mkProcessDeclaration {
  pd_id : string;
  pd_platform : string;
  pd_sessionStartedAt : Z;
  pd_sessionEndedAt : option Z;
  pd_sessionDuration : option float;
  pd_iterationCount : Z;
  pd_promptLineage : list PromptVersion;
  pd_rejectedOutputs : list RejectedOutput;
  pd_selectedOutput : option SelectedOutput;
  pd_consentForTrainingData : bool;
  pd_consentTimestamp : option Z;
  pd_consentVersion : option string;
  pd_contributorId : option string;
  pd_contributorExpertiseTags : list string }.

Record Store : Type := mkStore {
  processDeclarations : list ProcessDeclaration;
  contributors : list Contributor }.

(** The JSON body of the response and its HTTP status. *)
Record Response : Type := mkResponse {
  status : Z;
  success : bool;
  id : option string;
  reward : option ContributorReward;
  error : option string }.

Definition failure (code : Z) (msg : option string) : Response :=
  mkResponse code false None None msg.

(** The inputs of one request that the code does not decide: the message
    of the error with which [processDeclaration.create] rejects, if it
    does, the failures of the contributor calls, and the identifiers that
    Prisma generates. *)
Record Env : Type := mkEnv {
  createError : option string;
  rewardFaults : Faults;
  newDeclarationId : string;
  newContributorId : string }.

(** The message of the error with which Prisma rejects a value that does
    not fit its column (an object where a string is expected, an invalid
    Date). *)
Definition invalidValue : string := "Invalid value provided".

Section WithDate.

Variable Date_getTime : string -> option Z.

(** [new Date(s)] for an optional field: [Some None] is an invalid Date. *)
Definition optDate (o : option string) : option (option Z) :=
  match o with
  | Some s => if JS.truthy_string s then Some (Date_getTime s) else None
  | None => None
  end.

Definition timeValue (s : string) : float :=
  match Date_getTime s with
  | Some t => JS.Z2F t
  | None => nan
  end.

(** The session duration that is stored: the one of the input, or,
    when it is missing or zero and an end time is given, the rounded
    difference of the two times in seconds. *)
Definition sessionDurationOf (input : ProcessDeclarationInput) : option float :=
  if negb (match sessionDuration input with
           | Some d => JS.truthy_number d | None => false end)
     && JS.truthy (sessionEndedAt input)
  then
    let startTime := timeValue (sessionStartedAt input) in
    let endTime := timeValue (JS.str (sessionEndedAt input)) in
    Some (JS.Math_round ((endTime - startTime) / 1000)%float)
  else sessionDuration input.

(** [prisma.processDeclaration.create]: the new row, or the message of
    the error.  Besides a failure of the database, Prisma rejects the
    data when the platform is not a string (the value that
    [mapPlatformToEnum] gives for an inherited key) or when one of the
    [Date] objects is invalid. *)
Definition createProcessDeclaration (env : Env)
  (input : ProcessDeclarationInput) (platformEnum : JS.Value)
  (sessionDuration : option float) : string + ProcessDeclaration :=
  match createError env with
  | Some msg => inl msg
  | None =>
      match platformEnum, Date_getTime (sessionStartedAt input),
            optDate (sessionEndedAt input), optDate (consentTimestamp input) with
      | JS.VBuiltin _, _, _, _ => inl invalidValue
      | _, None, _, _ => inl invalidValue
      | _, _, Some None, _ => inl invalidValue
      | _, _, _, Some None => inl invalidValue
      | JS.VString p, Some started, ended, consented =>
          inr (mkProcessDeclaration (newDeclarationId env) p started
                 (match ended with Some t => t | None => None end)
                 sessionDuration
                 (if iterationCount input =? 0
                  then Z.of_nat (List.length (promptLineage input))
                  else iterationCount input)
                 (promptLineage input) (rejectedOutputs input)
                 (selectedOutput input)
                 (consentForTrainingData input)
                 (match consented with Some t => t | None => None end)
                 (consentVersion input)
                 (contributorId input)
                 (match expertiseTags input with Some l => l | None => [] end))
      end
  end.

(** [POST]: the request body is [None] when it is not JSON. *)
Definition POST (env : Env) (st : Store) (body : option ProcessDeclarationInput)
  : Response * Store :=
  match body with
  | None => (failure 400 (Some "Invalid JSON in request body"), st)
  | Some input =>
      let validation := validateProcessInput Date_getTime input in
      if negb (valid validation)
      then (failure 400 (Reward.error validation), st)
      else
        let platformEnum := mapPlatformToEnum (platform input) in
        let sessionDuration := sessionDurationOf input in
        match createProcessDeclaration env input platformEnum sessionDuration with
        | inl message =>
            if JS.includes message "Unique constraint"
            then (failure 409 (Some "Duplicate declaration"), st)
            else (failure 500 (Some "Failed to create process declaration"), st)
        | inr processDeclaration =>
            let st1 := mkStore (processDeclarations st ++ [processDeclaration])
                               (contributors st) in
            let '(reward, st2) :=
              if JS.truthy (contributorId input) && consentForTrainingData input
              then
                let '(r, table) :=
                  calculateContributionReward Date_getTime (newContributorId env)
                    (rewardFaults env) (contributors st1)
                    (JS.str (contributorId input)) (pd_id processDeclaration)
                    input in
                (r, mkStore (processDeclarations st1) table)
              else (None, st1) in
            (mkResponse 201 true (Some (pd_id processDeclaration)) reward None, st2)
        end
  end.

End WithDate.

End Route.

(** ** The read side: statistics ([src/lib/process-utils.ts] and the [GET]
    handler of [src/app/api/process-declaration/route.ts]) *)

Module Stats.

Import Reward Route.

(** *** getContributorStats *)

Record ContributorStats : Type := mkContributorStats {
  cs_totalContributions : Z;
  cs_totalPoints : Z;
  cs_currentTier : string;
  cs_tasteScore : float;
  cs_expertiseTags : list string;
  cs_platformStats : option (list (string * PlatformStat));
  cs_createdAt : Z }.

(** The tier column holds the enum value that [tierToPrismaEnum] wrote. *)
Definition storedTier (c : Contributor) : string :=
  tierToPrismaEnum (c_currentTier c).

Section WithCreatedAt.

(** The creation time of a contributor row, by the id of the row: Prisma
    sets it when the row is created and no update of the sources writes
    it. *)
Variable Contributor_createdAt : string -> Z.

Definition getContributorStats (table : list Contributor) (contributorId : string)
  : option ContributorStats :=
  match findContributor table contributorId with
  | None => None
  | Some contributor =>
      Some (mkContributorStats
              (c_totalContributions contributor)
              (c_totalPoints contributor)
              (JS.toLowerCase (storedTier contributor))
              (c_tasteScore contributor)
              (c_expertiseTags contributor)
              (c_platformStats contributor)
              (Contributor_createdAt (c_id contributor)))
  end.

End WithCreatedAt.

(** *** getPlatformDistribution *)

(** [groupBy({ by: ['platform'], _count: { platform: true }, where })]: one
    group for each platform among the rows that satisfy [where], with the
    number of these rows.  Prisma states no order for the groups; they
    come here in the order in which the platforms first occur. *)
Definition bump (groups : list (string * Z)) (platform : string)
  : list (string * Z) :=
  match JS.own_property groups platform with
  | Some n => JS.define groups platform (n + 1)
  | None => JS.define groups platform 1
  end.

Definition groupByPlatform (where_ : ProcessDeclaration -> bool)
  (rows : list ProcessDeclaration) : list (string * Z) :=
  fold_left (fun groups pd => bump groups (pd_platform pd))
            (filter where_ rows) [].

Definition getPlatformDistribution (rows : list ProcessDeclaration)
  : list (string * Z) :=
  let results := groupByPlatform pd_consentForTrainingData rows in
  fold_left (fun distribution result =>
               JS.assign distribution (fst result) (snd result))
            results [].

(** *** GET *)

Inductive StatsBody : Type :=
| ContributorBody (totalContributions totalPoints : Z) (currentTier : string)
    (tasteScore : float) (expertiseTags : list string)
    (platformStats : option (list (string * PlatformStat)))
| AggregateBody (totalDeclarations totalContributors : Z)
    (platformDistribution : list (string * Z)).

Record StatsResponse : Type := mkStatsResponse {
  sr_status : Z;
  sr_success : bool;
  sr_stats : option StatsBody;
  sr_error : option string }.

(** [GET]: [contributorId] is the query parameter of that name, [None]
    when the URL has none; [fails] says that a Prisma call of the request
    rejects, which the handler turns into a 500 wherever it happens. *)
Definition GET (fails : bool) (st : Store) (contributorId : option string)
  : StatsResponse :=
  if fails
  then mkStatsResponse 500 false None (Some "Failed to retrieve statistics")
  else if JS.truthy contributorId then
    match findContributor (contributors st) (JS.str contributorId) with
    | None => mkStatsResponse 404 false None (Some "Contributor not found")
    | Some contributor =>
        mkStatsResponse 200 true
          (Some (ContributorBody
                   (c_totalContributions contributor)
                   (c_totalPoints contributor)
                   (JS.toLowerCase (storedTier contributor))
                   (c_tasteScore contributor)
                   (c_expertiseTags contributor)
                   (c_platformStats contributor)))
          None
    end
  else
    let platformCounts :=
      groupByPlatform pd_consentForTrainingData (processDeclarations st) in
    let totalDeclarations :=
      Z.of_nat (List.length (filter pd_consentForTrainingData
                                    (processDeclarations st))) in
    let totalContributors := Z.of_nat (List.length (contributors st)) in
    mkStatsResponse 200 true
      (Some (AggregateBody totalDeclarations totalContributors
               (fold_left (fun acc curr => JS.assign acc (fst curr) (snd curr))
                          platformCounts [])))
      None.

End Stats.

(** ** Vocabulary of the properties *)

Module CharProps.

(** A lowercase hexadecimal digit. *)
Definition is_lower_hex (c : ascii) : bool :=
  let n := nat_of_ascii c in
  (((48 <=? n) && (n <=? 57)) || ((97 <=? n) && (n <=? 102)))%nat.

(** A capital letter A-Z. *)
Definition is_upper (c : ascii) : bool :=
  let n := nat_of_ascii c in ((65 <=? n) && (n <=? 90))%nat.

Fixpoint has_upper (s : string) : bool :=
  match s with
  | EmptyString => false
  | String c r => is_upper c || has_upper r
  end.

End CharProps.

Module LedgerProps.

Import CharProps.

Import Ledger.

(** The four ways in which [createRevision] ends. *)
Inductive RevisionOutcome (g : RevisionGen) (db : DB) (formData : RevisionForm)
  : ActionResult * DB -> Prop :=
| NoDeclarationId :
    JS.truthy (rf_declarationId formData) = false ->
    RevisionOutcome g db formData (ActionError "Declaration ID is required", db)
| NoChangeNote :
    JS.truthy (rf_declarationId formData) = true ->
    JS.blank (rf_changeNote formData) = true ->
    RevisionOutcome g db formData (ActionError "Change note is required", db)
| DeclarationNotFound :
    JS.truthy (rf_declarationId formData) = true ->
    JS.blank (rf_changeNote formData) = false ->
    findDeclaration db (JS.str (rf_declarationId formData)) = None ->
    RevisionOutcome g db formData (ActionError "Declaration not found", db)
| RevisionCreated declaration revision :
    JS.truthy (rf_declarationId formData) = true ->
    JS.blank (rf_changeNote formData) = false ->
    findDeclaration db (JS.str (rf_declarationId formData)) = Some declaration ->
    rev_id revision = gen_revisionId g ->
    rev_declarationId revision = decl_id declaration ->
    rev_createdAt revision = gen_revNow g ->
    rev_changeNote revision = JS.trim (JS.str (rf_changeNote formData)) ->
    rev_intent revision = JS.trim_or_null (rf_intent formData) ->
    rev_tools revision = JS.trim_or_null (rf_tools formData) ->
    rev_contributors revision = JS.trim_or_null (rf_contributors formData) ->
    RevisionOutcome g db formData
      (ActionSuccess,
       mkDB (works db) (declarations db) (revisions db ++ [revision]) (audioRefs db)).

(** What one audio reference owes to the file it was made from. *)
Definition refOf (declarationId : string) (ref : AudioReference) (file : File) : Prop :=
  audio_declarationId ref = declarationId
  /\ audio_fileName ref = file_name file
  /\ audio_sha256 ref = Sha256.hex (Sha256.hash (file_bytes file))
  /\ String.length (audio_sha256 ref) = 64%nat
  /\ forallb is_lower_hex (list_ascii_of_string (audio_sha256 ref)) = true.

(** What a sequence of [createRevision] calls can do to the database. *)
Definition appendOnly (db db' : DB) : Prop :=
  works db' = works db /\ declarations db' = declarations db
  /\ audioRefs db' = audioRefs db
  /\ exists added, revisions db' = revisions db ++ added.

(** A small ledger: one work, its declaration, and one revision. *)
Definition exampleWork : Work := mkWork "w1" "Night song" 100.

Definition exampleDeclaration : Declaration :=
  mkDeclaration "d1" "w1" 100 "A lullaby" "Piano, tape" false None.

Definition exampleRevision : DeclarationRevision :=
  mkRevision "r1" "d1" 300 "Added the singer" None None None (Some "Ada").

Definition exampleDB : DB :=
  mkDB [exampleWork] [exampleDeclaration] [exampleRevision] [].

Definition exampleDeclarationView : DeclarationView :=
  mkDeclarationView exampleDeclaration [exampleRevision] [].

Definition exampleView : WorkView :=
  mkWorkView exampleWork (Some exampleDeclarationView).

(** Two calls: a revision dated before the stored one, with an empty
    intent, and a call for a declaration that does not exist. *)
Definition exampleCalls : list (RevisionGen * RevisionForm) :=
  [ (mkRevisionGen 200 "r2",
     mkRevisionForm (Some "d1") (Some " used a synthesiser ") (Some "")
                    (Some "Piano, synthesiser") (Some "true") None);
    (mkRevisionGen 400 "r3",
     mkRevisionForm (Some "d9") (Some "nothing") None None None None) ].

(** *** The keys and the references of a ledger *)

(** The identifiers of the works and of the declarations are keys, a work
    and its declaration go together one to one, and every revision and
    every audio reference belongs to a declaration of the ledger. *)
Definition wellFormed (db : DB) : Prop :=
  NoDup (map work_id (works db))
  /\ NoDup (map decl_id (declarations db))
  /\ NoDup (map decl_workId (declarations db))
  /\ (forall w, In w (works db) ->
        exists d, In d (declarations db) /\ decl_workId d = work_id w)
  /\ (forall d, In d (declarations db) ->
        exists w, In w (works db) /\ work_id w = decl_workId d)
  /\ (forall r, In r (revisions db) ->
        exists d, In d (declarations db) /\ decl_id d = rev_declarationId r)
  /\ (forall a, In a (audioRefs db) ->
        exists d, In d (declarations db) /\ decl_id d = audio_declarationId a).

(** The identifiers that Prisma generates for a new work and its
    declaration are not in use. *)
Definition freshIds (g : WorkGen) (db : DB) : Prop :=
  ~ In (gen_workId g) (map work_id (works db))
  /\ ~ In (gen_declarationId g) (map decl_id (declarations db)).

Definition emptyDB : DB := mkDB [] [] [] [].

(** The ledgers that the two writing actions build from the empty one. *)
Inductive reachable : DB -> Prop :=
| reach_empty : reachable emptyDB
| reach_createWork g db formData :
    reachable db -> freshIds g db ->
    reachable (snd (createWork g db formData))
| reach_createRevision g db formData :
    reachable db ->
    reachable (snd (createRevision g db formData)).

(** *** Histories *)

(** One writing action with the values that Prisma generates for it, and
    the ledger after a sequence of them. *)
Inductive Action : Type :=
| NewWork (g : WorkGen) (formData : WorkForm)
| NewRevision (g : RevisionGen) (formData : RevisionForm).

Definition act (db : DB) (a : Action) : DB :=
  match a with
  | NewWork g formData => snd (createWork g db formData)
  | NewRevision g formData => snd (createRevision g db formData)
  end.

Definition run (db : DB) (actions : list Action) : DB := fold_left act actions db.

(** Every table of [db'] begins with the table of [db]. *)
Definition extends (db db' : DB) : Prop :=
  (exists added, works db' = works db ++ added)
  /\ (exists added, declarations db' = declarations db ++ added)
  /\ (exists added, revisions db' = revisions db ++ added)
  /\ (exists added, audioRefs db' = audioRefs db ++ added).

(** *** Text with something to read *)

(** The field is there and holds a character that is not white space. *)
Definition visible (o : option string) : bool :=
  match o with
  | Some s => existsb (fun c => negb (JS.is_space c)) (list_ascii_of_string s)
  | None => false
  end.

Definition first_char (s : string) : option ascii :=
  match s with EmptyString => None | String c _ => Some c end.

Fixpoint last_char (s : string) : option ascii :=
  match s with
  | EmptyString => None
  | String c r => match last_char r with None => Some c | found => found end
  end.

(** A text that is not empty and neither begins nor ends with white
    space. *)
Definition trimmed (s : string) : Prop :=
  (exists c, first_char s = Some c /\ JS.is_space c = false)
  /\ (exists c, last_char s = Some c /\ JS.is_space c = false).

Definition trimmed_or_absent (o : option string) : Prop :=
  match o with Some s => trimmed s | None => True end.

(** *** Newest first *)

Definition newestFirst (l : list WorkView) : Prop :=
  StronglySorted
    (fun a b => work_createdAt (wv_work b) <= work_createdAt (wv_work a)) l.

(** *** A form and the values generated for it *)

Definition exampleGen : WorkGen :=
  mkWorkGen 500 "w2" "d2" (fun i => ("a" ++ Reward.index_string i)%string).

Definition exampleFile : File := mkFile "take1.wav" [Byte.x61; Byte.x62; Byte.x63].

Definition exampleForm : WorkForm :=
  mkWorkForm (Some " Morning song ") (Some "A reveille") (Some "Voice")
             (Some "true") (Some "  ") [exampleFile; mkFile "empty.wav" []].

(** The ledger with the work of the example form, and the one that also
    holds the first example ledger. *)
Definition createdLedger : DB := snd (createWork exampleGen emptyDB exampleForm).

Definition twoWorks : DB := snd (createWork exampleGen exampleDB exampleForm).

(** A revision of the declaration [d1]. *)
Definition exampleRevisionGen : RevisionGen := mkRevisionGen 600 "r9".

Definition exampleRevisionForm : RevisionForm :=
  mkRevisionForm (Some "d1") (Some " a new mix ") None None None None.

(** A rendering of time values, for the examples. *)
Definition exampleISO (t : Z) : string :=
  ("t" ++ Reward.index_string (Z.to_nat t))%string.

Definition exampleStringify (doc : ExportDocument) : string := x_exportedAt doc.



End LedgerProps.

(** *** Values of binary64 floats

    The Standard Library specifies the float operations of the kernel on
    [spec_float] (sign, mantissa, exponent).  The value of a finite float is
    [m * 2^e]; all exponents met here are above [-K], so that the integer
    [m * 2^(e + K)] stands for the value. *)

Module Binary64.

(** The exponent function of binary64: 53 bits, smallest exponent -1074. *)
Definition fexp64 (e : Z) : Z := Z.max (e - 53) (-1074).

(** All the exponents met are above [-K]; a value [m * 2^e] is
    represented by the integer [m * 2^(e + K)]. *)
Definition K : Z := 2200.
Definition P (e : Z) : Z := 2 ^ (e + K).

Definition num (x : spec_float) : Z :=
  match x with
  | S754_finite s m e => (if s then Z.neg m else Z.pos m) * P e
  | _ => 0
  end.

Definition val (x : float) : Z := num (Prim2SF x).

Definition FinPos (x : float) : Prop :=
  exists m e, Prim2SF x = S754_finite false m e.

(** A zero, a positive finite float or the positive infinity. *)
Definition nonnegSF (x : spec_float) : Prop :=
  match x with
  | S754_zero _ => True
  | S754_finite s _ _ => s = false
  | S754_infinity s => s = false
  | S754_nan => False
  end.

Definition between (lo hi x : float) : Prop :=
  FinPos x /\ val lo <= val x <= val hi.

End Binary64.

Module Props.

Import Reward.
Export CharProps.

(** The order explorer < curator < tastemaker < oracle. *)
Definition tier_rank (t : ContributorTier) : Z :=
  match t with explorer => 0 | curator => 1 | tastemaker => 2 | oracle => 3 end.

Definition tier_le (a b : ContributorTier) : Prop := tier_rank a <= tier_rank b.

(** The revisions are in non-decreasing order of creation time. *)
Definition oldestFirst (l : list Ledger.DeclarationRevision) : Prop :=
  StronglySorted (fun a b => Ledger.rev_createdAt a <= Ledger.rev_createdAt b) l.

(** A sequence of [createRevision] calls, each with the values Prisma
    generates for it. *)
Definition applyRevisions (db : Ledger.DB)
  (calls : list (Ledger.RevisionGen * Ledger.RevisionForm)) : Ledger.DB :=
  fold_left (fun db call => snd (Ledger.createRevision (fst call) db (snd call)))
            calls db.

(** *** What the validation asks of an input *)

Definition promptOK (version : PromptVersion) : bool :=
  JS.truthy_string (pv_id version) && JS.truthy_string (pv_content version)
  && JS.truthy_string (pv_timestamp version) && JS.truthy_string (pv_mode version).

Definition rejectionOK (rejection : RejectedOutput) : bool :=
  JS.truthy_string (ro_id rejection)
  && JS.truthy_string (ro_promptVersionId rejection)
  && JS.truthy_string (ro_timestamp rejection).

Definition selectionOK (selection : SelectedOutput) : bool :=
  JS.truthy_string (so_id selection)
  && JS.truthy_string (so_promptVersionId selection)
  && JS.truthy_string (so_timestamp selection).

Definition isDate (Date_getTime : string -> option Z) (s : string) : bool :=
  match Date_getTime s with Some _ => true | None => false end.

(** The platform and the start time are given, the start time is a date,
    every prompt version, every rejection and the selection, if any, have
    their required fields, and a consent comes with its timestamp. *)
Definition acceptable (Date_getTime : string -> option Z)
  (input : ProcessDeclarationInput) : bool :=
  JS.truthy_string (platform input)
  && JS.truthy_string (sessionStartedAt input)
  && isDate Date_getTime (sessionStartedAt input)
  && forallb promptOK (promptLineage input)
  && forallb rejectionOK (rejectedOutputs input)
  && match selectedOutput input with
     | Some selection => selectionOK selection
     | None => true
     end
  && (negb (consentForTrainingData input) || JS.truthy (consentTimestamp input)).

(** The two messages that carry an index, the index in decimal. *)
Definition lineageMessage (i : nat) : string :=
  ("Invalid prompt version at index " ++ index_string i
   ++ ": missing required fields (id, content, timestamp, mode)")%string.

Definition rejectionMessage (i : nat) : string :=
  ("Invalid rejected output at index " ++ index_string i
   ++ ": missing required fields (id, promptVersionId, timestamp)")%string.

(** *** The scoring formula, in the words of the specification *)

(** Text that is present: a string that is not empty. *)
Definition hasText (o : option string) : bool :=
  match o with Some s => negb (String.eqb s "") | None => false end.

(** +10 from 15 minutes, +5 from 5 minutes, +2 from 2 minutes, and nothing
    when no duration is given. *)
Definition durationBonus (duration : option float) : Z :=
  match duration with
  | None => 0
  | Some seconds =>
      let minutes := (seconds / 60)%float in
      if (15 <=? minutes)%float then 10
      else if (5 <=? minutes)%float then 5
      else if (2 <=? minutes)%float then 2
      else 0
  end.

Definition tagCount (input : ProcessDeclarationInput) : Z :=
  match expertiseTags input with
  | Some tags => Z.of_nat (List.length tags)
  | None => 0
  end.

Definition basePointsFormula (input : ProcessDeclarationInput) : Z :=
  10
  + Z.min (2 * Z.of_nat (List.length (promptLineage input))) 20
  + Z.min (3 * Z.of_nat (List.length (rejectedOutputs input))) 30
  + match selectedOutput input with
    | Some selected =>
        10 + (if hasText (so_likeReason selected) then 5 else 0)
           + (if hasText (so_customFeedback selected) then 10 else 0)
    | None => 0
    end
  + durationBonus (sessionDuration input)
  + Z.min (2 * tagCount input) 6.

(** The contributor that a reward computation works on: the row of that
    anonymous id, or the row created for an id not seen before. *)
Definition freshContributor (newId contributorId : string)
  (input : ProcessDeclarationInput) : Contributor :=
  mkContributor newId contributorId 0 0 explorer 0.5%float
    (match expertiseTags input with Some l => l | None => [] end)
    None None None.

Definition contributorFor (table : list Contributor) (newId contributorId : string)
  (input : ProcessDeclarationInput) : Contributor :=
  match findContributor table contributorId with
  | Some c => c
  | None => freshContributor newId contributorId input
  end.

(** The consent timestamp is there and is not a date (the update of the
    contributor then rejects). *)
Definition consentDateRejected (Date_getTime : string -> option Z)
  (input : ProcessDeclarationInput) : bool :=
  match consentTimestamp input with
  | Some s =>
      if JS.truthy_string s
      then match Date_getTime s with None => true | Some _ => false end
      else false
  | None => false
  end.

(** The table once the engine has its contributor: the table itself, or
    the table with the row created for a new id. *)
Definition tableWith (table : list Contributor) (newId contributorId : string)
  (input : ProcessDeclarationInput) : list Contributor :=
  match findContributor table contributorId with
  | Some _ => table
  | None => table ++ [freshContributor newId contributorId input]
  end.

(** The row that the update of the engine writes in the place of the row
    [c], for the contributor [contributor] and [p] points earned. *)
Definition rewardedRow (Date_getTime : string -> option Z)
  (contributor : Contributor) (input : ProcessDeclarationInput) (p : Z)
  (c : Contributor) : Contributor :=
  mkContributor (c_id c) (c_anonymousId c)
    (c_totalContributions contributor + 1)
    (c_totalPoints contributor + p)
    (calculateTier (c_totalPoints contributor + p))
    (c_tasteScore c)
    (mergedTags (c_expertiseTags contributor) (expertiseTags input))
    (Some (bumpStats (c_platformStats contributor) (JS.toLowerCase (platform input))))
    (match consentVersion input with
     | Some v => Some v | None => c_consentVersion c end)
    (match match consentTimestamp input with
           | Some s => if JS.truthy_string s then Some (Date_getTime s) else None
           | None => None
           end with
     | Some (Some t) => Some t | _ => c_consentTimestamp c end).

(** The tags of an input, none when the field is missing. *)
Definition inputTags (input : ProcessDeclarationInput) : list string :=
  match expertiseTags input with Some l => l | None => [] end.

(** The statistics of a platform in the stored object: the own entry of
    that key, or the entry with which the engine starts a platform. *)
Definition statsObject (stats : option (list (string * PlatformStat)))
  : list (string * PlatformStat) :=
  match stats with Some s => s | None => [] end.

Definition statOf (stats : option (list (string * PlatformStat))) (key : string)
  : PlatformStat :=
  match JS.own_property (statsObject stats) key with
  | Some s => s
  | None => mkStat 0 0.5%float
  end.

(** One of the Prisma calls that the engine makes for this contributor
    rejects. *)
Definition engineRejects (Date_getTime : string -> option Z) (flt : Faults)
  (table : list Contributor) (contributorId : string)
  (input : ProcessDeclarationInput) : bool :=
  fail_findUnique flt
  || match findContributor table contributorId with
     | None => fail_create flt
     | Some _ => false
     end
  || fail_update flt
  || consentDateRejected Date_getTime input.

(** A taste score in [0,1]. *)
Definition unitScore (x : float) : Prop :=
  PrimFloat.leb 0 x = true /\ PrimFloat.leb x 1 = true.

(** *** Sound rows of the contributor table *)

(** The tier of the row is the tier of its points, its taste score lies
    in [0,1], and its points are not negative. *)
Definition rowOK (c : Contributor) : Prop :=
  c_currentTier c = calculateTier (c_totalPoints c)
  /\ unitScore (c_tasteScore c)
  /\ 0 <= c_totalPoints c.

Definition tableOK (table : list Contributor) : Prop := Forall rowOK table.

(** The identifiers of the rows and the anonymous identifiers are keys. *)
Definition keysOK (table : list Contributor) : Prop :=
  NoDup (map c_id table) /\ NoDup (map c_anonymousId table).

(** The thirteen values of the platform enumeration. *)
Definition platformValues : list string := map fst PLATFORM_RARITY_LOCAL.

(** The number of rows of a platform among those whose consent is given. *)
Definition consentingOn (platform : string) (rows : list Route.ProcessDeclaration)
  : Z :=
  Z.of_nat (List.length
              (filter (fun pd => Route.pd_consentForTrainingData pd
                                 && String.eqb (Route.pd_platform pd) platform)
                      rows)).

Definition sumCounts (groups : list (string * Z)) : Z :=
  fold_right (fun g acc => snd g + acc) 0 groups.

(** Every stored process declaration has a platform of the
    enumeration. *)
Definition enumStore (rows : list Route.ProcessDeclaration) : Prop :=
  Forall (fun pd => In (Route.pd_platform pd) platformValues) rows.

(** A number of points within the bounds that a table gives for a tier. *)
Definition inRange (r : Range) (n : Z) : Prop :=
  min r <= n /\ match max r with Some m => n <= m | None => True end.

(** The moving average of [updateTasteScore] and its clamp. *)
Definition movingAverage (s a : float) : float := (s * 0.8 + a * 0.2)%float.

Definition clamp01 (x : float) : float := JS.Math_max 0 (JS.Math_min 1 x).

Definition withTasteScore (score : float) (c : Contributor) : Contributor :=
  mkContributor (c_id c) (c_anonymousId c) (c_totalContributions c)
    (c_totalPoints c) (c_currentTier c) score
    (c_expertiseTags c) (c_platformStats c)
    (c_consentVersion c) (c_consentTimestamp c).

(** A contributor whose taste score is 0.1. *)
Definition tenthContributor : Contributor :=
  mkContributor "c1" "anon-1" 3 120 curator 0.1%float [] None None None.

(** The input of the worked example of the specification: five prompt
    versions, two rejections, a selection with a like-reason and a
    feedback, 600 seconds, no tags, on stable-diffusion. *)
Definition examplePrompt (i : string) : PromptVersion :=
  mkPromptVersion i "a prompt" "2024-01-01T00:00:00Z" None "manual" "stable-diffusion".

Definition exampleInput : ProcessDeclarationInput :=
  mkInput "stable-diffusion" "2024-01-01T00:00:00Z" None (Some 600%float) 5
    [examplePrompt "p1"; examplePrompt "p2"; examplePrompt "p3";
     examplePrompt "p4"; examplePrompt "p5"]
    [mkRejectedOutput "r1" "p1" "2024-01-01T00:01:00Z" None None;
     mkRejectedOutput "r2" "p2" "2024-01-01T00:02:00Z" None None]
    (Some (mkSelectedOutput "s1" "p5" "2024-01-01T00:09:00Z"
             (Some "great-style") (Some "the light is right") None))
    true (Some "2024-01-01T00:00:00Z") (Some "1.0") (Some "anon-1") None.

Definition exampleContributor : Contributor :=
  mkContributor "c1" "anon-1" 3 120 curator 0.5%float [] None None None.

(** *** An ingestion request whose reward computation fails *)

Definition exampleDate (s : string) : option Z := Some 1704067200000.

(** The update of the contributor rejects. *)
Definition failingEnv : Route.Env :=
  Route.mkEnv None (mkFaults false false true) "pd-1" "c-new".

Definition healthyEnv : Route.Env :=
  Route.mkEnv None noFaults "pd-1" "c-new".

Definition emptyStore : Route.Store := Route.mkStore [] [].

(** The stores that submissions and updates of the taste score build
    from the empty one, when the row id that Prisma gives to a new
    contributor is not in use and every alignment is a number. *)
Inductive reachableStore (Date_getTime : string -> option Z)
  : Route.Store -> Prop :=
| reach_emptyStore : reachableStore Date_getTime emptyStore
| reach_POST env st body :
    reachableStore Date_getTime st ->
    ~ In (Route.newContributorId env) (map c_id (Route.contributors st)) ->
    reachableStore Date_getTime (snd (Route.POST Date_getTime env st body))
| reach_updateTasteScore flt st contributorId alignmentScore :
    reachableStore Date_getTime st ->
    Prim2SF alignmentScore <> S754_nan ->
    reachableStore Date_getTime
      (Route.mkStore (Route.processDeclarations st)
         (snd (updateTasteScore flt (Route.contributors st)
                 contributorId alignmentScore))).

Definition exampleRow : Route.ProcessDeclaration :=
  Route.mkProcessDeclaration "pd-1" "STABLE_DIFFUSION" 1704067200000 None
    (Some 600%float) 5 (promptLineage exampleInput) (rejectedOutputs exampleInput)
    (selectedOutput exampleInput) true (Some 1704067200000) (Some "1.0")
    (Some "anon-1") [].

(** An input whose second prompt version has no content. *)
Definition malformedInput : ProcessDeclarationInput :=
  mkInput "suno" "2024-01-01T00:00:00Z" None None 0
    [examplePrompt "p1";
     mkPromptVersion "p2" "" "2024-01-01T00:00:05Z" (Some "p1") "enhance" "suno";
     examplePrompt "p3"]
    [] None false None None None None.

(** The worked example with two tags, and without consent. *)
Definition taggedInput : ProcessDeclarationInput :=
  mkInput "Suno" "2024-01-01T00:00:00Z" None (Some 600%float) 5
    (promptLineage exampleInput) (rejectedOutputs exampleInput)
    (selectedOutput exampleInput)
    true (Some "2024-01-01T00:00:00Z") (Some "1.0") (Some "anon-1")
    (Some ["jazz"; "mixing"; "jazz"]).

Definition unconsentedInput : ProcessDeclarationInput :=
  mkInput "suno" "2024-01-01T00:00:00Z" None (Some 600%float) 5
    (promptLineage exampleInput) (rejectedOutputs exampleInput)
    (selectedOutput exampleInput)
    false None None (Some "anon-1") None.

(** A contributor with a tag and statistics for one platform. *)
Definition seasonedContributor : Contributor :=
  mkContributor "c1" "anon-1" 3 120 curator 0.5%float ["mixing"]
    (Some [("suno", mkStat 2 0.5%float)]) None None.

(** The same submission without a contributor id. *)
Definition anonymousInput : ProcessDeclarationInput :=
  mkInput "stable-diffusion" "2024-01-01T00:00:00Z" None (Some 600%float) 5
    (promptLineage exampleInput) (rejectedOutputs exampleInput)
    (selectedOutput exampleInput)
    true (Some "2024-01-01T00:00:00Z") (Some "1.0") None None.

Definition anonymousRow : Route.ProcessDeclaration :=
  Route.mkProcessDeclaration "pd-1" "STABLE_DIFFUSION" 1704067200000 None
    (Some 600%float) 5 (promptLineage exampleInput) (rejectedOutputs exampleInput)
    (selectedOutput exampleInput) true (Some 1704067200000) (Some "1.0")
    None [].

(** The store after the worked example, and after an update of the taste
    score of its contributor. *)
Definition workedStore : Route.Store :=
  snd (Route.POST exampleDate healthyEnv emptyStore (Some exampleInput)).

Definition updatedStore : Route.Store :=
  Route.mkStore (Route.processDeclarations workedStore)
    (snd (updateTasteScore noFaults (Route.contributors workedStore)
            "anon-1" 0.9%float)).

End Props.

(* ================================================================== *)
(** * Part II: properties *)
(* ================================================================== *)

(** ** Tier thresholds *)

Section TierFacts.

Import Reward Props.

Lemma calculateTier_cases (n : Z) :
  (n < 100 /\ calculateTier n = explorer)
  \/ (100 <= n < 500 /\ calculateTier n = curator)
  \/ (500 <= n < 2000 /\ calculateTier n = tastemaker)
  \/ (2000 <= n /\ calculateTier n = oracle).
Proof.
  unfold calculateTier; cbn [TIER_THRESHOLDS_LOCAL min].
  destruct (Z.leb_spec 2000 n); [ right; right; right; split; [lia | reflexivity] | ].
  destruct (Z.leb_spec 500 n); [ right; right; left; split; [lia | reflexivity] | ].
  destruct (Z.leb_spec 100 n); [ right; left; split; [lia | reflexivity] | ].
  left; split; [lia | reflexivity].
Qed.

Lemma calculateTier_monotone (n m : Z) :
  n <= m -> tier_le (calculateTier n) (calculateTier m).
Proof.
  intros Hnm. unfold tier_le.
  destruct (calculateTier_cases n) as [[? ->] | [[? ->] | [[? ->] | [? ->]]]];
    destruct (calculateTier_cases m) as [[? ->] | [[? ->] | [[? ->] | [? ->]]]];
    cbn; lia.
Qed.

(** C4.  For every non-negative number of points the tier is the one whose
    interval holds it: explorer on [0,100), curator on [100,500),
    tastemaker on [500,2000), oracle from 2000 on; and the six boundary
    values 99, 100, 499, 500, 1999, 2000 fall as the table says. *)
Theorem calculateTier_thresholds (totalPoints : Z) (Hnonneg : 0 <= totalPoints) :
  (calculateTier totalPoints = explorer <-> 0 <= totalPoints < 100)
  /\ (calculateTier totalPoints = curator <-> 100 <= totalPoints < 500)
  /\ (calculateTier totalPoints = tastemaker <-> 500 <= totalPoints < 2000)
  /\ (calculateTier totalPoints = oracle <-> 2000 <= totalPoints)
  /\ calculateTier 99 = explorer /\ calculateTier 100 = curator
  /\ calculateTier 499 = curator /\ calculateTier 500 = tastemaker
  /\ calculateTier 1999 = tastemaker /\ calculateTier 2000 = oracle.
Proof.
  destruct (calculateTier_cases totalPoints)
    as [[? E] | [[? E] | [[? E] | [? E]]]]; rewrite E;
    repeat split; intros; try discriminate; try reflexivity; lia.
Qed.

(** The tier of 1999 points. *)
Lemma calculateTier_thresholds_witness :
  0 <= 1999 /\ (calculateTier 1999 = tastemaker <-> 500 <= 1999 < 2000).
Proof.
  split; [lia | ].
  exact (proj1 (proj2 (proj2 (calculateTier_thresholds 1999 ltac:(lia))))).
Defined.

End TierFacts.

(** ** Platform mapping *)

Section PlatformFacts.

Import Reward Props.

(** The twelve names of the enumeration, with their enum value. *)
Lemma mapPlatformToEnum_known (p key value : string) :
  JS.toLowerCase p = key -> In (key, value) platformMap ->
  mapPlatformToEnum p = JS.VString value.
Proof.
  intros <- Hin. unfold mapPlatformToEnum.
  cbn in Hin.
  repeat (destruct Hin as [Hin | Hin];
          [ injection Hin as <- <-; reflexivity | ]).
  destruct Hin.
Qed.

Lemma own_property_none {A} (obj : list (string * A)) (key : string) :
  (forall k v, In (k, v) obj -> k <> key) -> JS.own_property obj key = None.
Proof.
  induction obj as [ | [k v] r IH]; intros H; [reflexivity | ].
  cbn. destruct (String.eqb_spec k key) as [E | _].
  - exfalso. exact (H k v (or_introl eq_refl) E).
  - apply IH. intros k' v' Hin. exact (H k' v' (or_intror Hin)).
Qed.

(** A key that is neither a name of the enumeration nor a member of
    [Object.prototype] maps to UNKNOWN. *)
Lemma mapPlatformToEnum_unknown (p : string) :
  (forall k v, In (k, v) platformMap -> k <> JS.toLowerCase p) ->
  JS.mem_string (JS.toLowerCase p) JS.Object_prototype = false ->
  mapPlatformToEnum p = JS.VString "UNKNOWN".
Proof.
  intros Hown Hproto. unfold mapPlatformToEnum, JS.get.
  rewrite (own_property_none _ _ Hown), Hproto. reflexivity.
Qed.

(** [toLowerCase] leaves no capital letter, so that of the members of
    [Object.prototype] only [constructor] and [__proto__] can be met. *)
Lemma lower_char_not_upper (c : ascii) : is_upper (JS.lower_char c) = false.
Proof. destruct c as [[] [] [] [] [] [] [] []]; reflexivity. Qed.

Lemma toLowerCase_no_upper (s : string) : has_upper (JS.toLowerCase s) = false.
Proof.
  induction s as [ | c r IH]; [reflexivity | ].
  cbn. now rewrite lower_char_not_upper, IH.
Qed.

Lemma inherited_keys (p : string) :
  JS.mem_string (JS.toLowerCase p) JS.Object_prototype = true ->
  JS.toLowerCase p = "constructor" \/ JS.toLowerCase p = "__proto__".
Proof.
  intros H. pose proof (toLowerCase_no_upper p) as U.
  unfold JS.mem_string, JS.Object_prototype in H. cbn [existsb] in H.
  repeat (apply orb_true_iff in H; destruct H as [H | H]);
    try discriminate;
    apply String.eqb_eq in H; rewrite H in U |- *;
    try discriminate U; auto.
Qed.

(** Every input string falls in one of three cases: a name of the
    enumeration, one of the two inherited keys, or UNKNOWN. *)
Lemma mapPlatformToEnum_total (p : string) :
  (exists value, In (JS.toLowerCase p, value) platformMap
                 /\ mapPlatformToEnum p = JS.VString value)
  \/ ((JS.toLowerCase p = "constructor" \/ JS.toLowerCase p = "__proto__")
      /\ mapPlatformToEnum p = JS.VBuiltin (JS.toLowerCase p))
  \/ mapPlatformToEnum p = JS.VString "UNKNOWN".
Proof.
  unfold mapPlatformToEnum, JS.get.
  destruct (JS.own_property platformMap (JS.toLowerCase p)) as [v | ] eqn:E.
  - left. exists v.
    unfold platformMap in E; cbn [JS.own_property] in E.
    repeat match type of E with
           | (if String.eqb ?k ?x then _ else _) = _ =>
               destruct (String.eqb_spec k x) as [<- | _];
               [ cbv iota in E; injection E as <-; split; [cbn; tauto | reflexivity] | ]
           end.
    discriminate.
  - destruct (JS.mem_string (JS.toLowerCase p) JS.Object_prototype) eqn:M.
    + right; left. split; [ now apply inherited_keys | reflexivity ].
    + right; right. reflexivity.
Qed.

(** The rarity bonus is 1.0 whenever the platform is not one of the
    enumeration. *)
Lemma rarityOf_not_enumerated (p : string) :
  (forall value, ~ In (JS.toLowerCase p, value) platformMap) ->
  rarityOf (mapPlatformToEnum p) = 1.0%float.
Proof.
  intros Hno.
  destruct (mapPlatformToEnum_total p) as [[v [Hin _]] | [[[E | E] ->] | ->]].
  - exfalso. exact (Hno v Hin).
  - rewrite E. reflexivity.
  - rewrite E. reflexivity.
  - reflexivity.
Qed.

(** The mapping looks at the lowercased string only. *)
Lemma mapPlatformToEnum_case_insensitive (p q : string) :
  JS.toLowerCase p = JS.toLowerCase q ->
  mapPlatformToEnum p = mapPlatformToEnum q.
Proof. unfold mapPlatformToEnum. now intros ->. Qed.

(** The value that UNKNOWN gets in the rarity table. *)
Lemma rarityOf_unknown : rarityOf (JS.VString "UNKNOWN") = 1.0%float.
Proof. reflexivity. Qed.

(** C6, at the input ["constructor"].  The key is not an own property of
    [platformMap]; the lookup finds [Object.prototype.constructor], which
    is truthy, so that the fallback ['UNKNOWN'] is not taken: the function
    returns the built-in object and not the enum value UNKNOWN. *)
Theorem mapPlatformToEnum_constructor :
  JS.own_property platformMap (JS.toLowerCase "constructor") = None
  /\ mapPlatformToEnum "constructor" = JS.VBuiltin "constructor"
  /\ mapPlatformToEnum "constructor" <> JS.VString "UNKNOWN"
  /\ mapPlatformToEnum "__proto__" = JS.VBuiltin "__proto__".
Proof.
  repeat split; try reflexivity. discriminate.
Qed.

End PlatformFacts.

(** ** The declaration ledger *)

Section LedgerFacts.

Import Ledger Props LedgerProps.

(** *** Normalisation of optional text *)

Lemma trim_or_null_not_empty (o : option string) :
  JS.trim_or_null o <> Some "".
Proof.
  unfold JS.trim_or_null. destruct (JS.opt_trim o) as [s | ]; [ | discriminate].
  destruct s; cbn; [discriminate | ].
  intros H; discriminate H.
Qed.

Lemma trim_or_null_empty : JS.trim_or_null (Some "") = None.
Proof. reflexivity. Qed.

Lemma trim_or_null_absent : JS.trim_or_null None = None.
Proof. reflexivity. Qed.

(** *** createRevision, case by case *)

Lemma findDeclaration_id (db : DB) (id : string) (d : Declaration) :
  findDeclaration db id = Some d -> decl_id d = id /\ In d (declarations db).
Proof.
  unfold findDeclaration. intros H. apply find_some in H as [Hin Heq].
  apply String.eqb_eq in Heq. auto.
Qed.

Lemma findDeclaration_none (db : DB) (id : string) :
  (forall d, In d (declarations db) -> decl_id d <> id) ->
  findDeclaration db id = None.
Proof.
  intros H. unfold findDeclaration.
  destruct (find _ (declarations db)) as [d | ] eqn:E; [ | reflexivity].
  apply find_some in E as [Hin Heq]. apply String.eqb_eq in Heq.
  exfalso. exact (H d Hin Heq).
Qed.

Lemma createRevision_outcome (g : RevisionGen) (db : DB) (formData : RevisionForm) :
  RevisionOutcome g db formData (createRevision g db formData).
Proof.
  unfold createRevision.
  destruct (JS.truthy (rf_declarationId formData)) eqn:Hid; cbn [negb].
  2: now apply NoDeclarationId.
  destruct (JS.blank (rf_changeNote formData)) eqn:Hnote.
  1: now apply NoChangeNote.
  destruct (findDeclaration db (JS.str (rf_declarationId formData)))
    as [d | ] eqn:Hfind.
  2: now apply DeclarationNotFound.
  apply findDeclaration_id in Hfind as Hd. destruct Hd as [Hd _].
  eapply RevisionCreated with (declaration := d); eauto.
Qed.

(** C8.  [createRevision] gives a validation error when the declaration id
    is missing or the change note is blank after trimming, a not-found
    error when no declaration has that id, and leaves the database as it
    was whenever it does not succeed; when it succeeds it appends one
    revision whose optional texts are never the empty string, an empty
    input being stored as absent. *)
Theorem createRevision_failures_and_normalisation
  (g : RevisionGen) (db : DB) (formData : RevisionForm) :
  let result := fst (createRevision g db formData) in
  let db' := snd (createRevision g db formData) in
  (JS.truthy (rf_declarationId formData) = false ->
     result = ActionError "Declaration ID is required" /\ db' = db)
  /\ (JS.truthy (rf_declarationId formData) = true ->
      JS.blank (rf_changeNote formData) = true ->
      result = ActionError "Change note is required" /\ db' = db)
  /\ (JS.truthy (rf_declarationId formData) = true ->
      JS.blank (rf_changeNote formData) = false ->
      (forall d, In d (declarations db) ->
                 decl_id d <> JS.str (rf_declarationId formData)) ->
      result = ActionError "Declaration not found" /\ db' = db)
  /\ (result <> ActionSuccess -> db' = db)
  /\ (result = ActionSuccess ->
      exists revision,
        db' = mkDB (works db) (declarations db)
                   (revisions db ++ [revision]) (audioRefs db)
        /\ rev_intent revision <> Some ""
        /\ rev_tools revision <> Some ""
        /\ rev_contributors revision <> Some ""
        /\ (rf_intent formData = Some "" -> rev_intent revision = None)
        /\ (rf_tools formData = Some "" -> rev_tools revision = None)
        /\ (rf_contributors formData = Some "" -> rev_contributors revision = None)).
Proof.
  cbv zeta.
  destruct (createRevision_outcome g db formData)
    as [Hid | Hid Hnote | Hid Hnote Hfind
        | d r Hid Hnote Hfind _ _ _ _ Hintent Htools Hcontrib];
    cbn [fst snd].
  - repeat split; try congruence.
  - repeat split; try congruence.
  - repeat split; try congruence.
  - split; [congruence | ].
    split; [congruence | ].
    split.
    { intros _ _ Hnone. rewrite (findDeclaration_none _ _ Hnone) in Hfind.
      discriminate. }
    split; [congruence | ].
    intros _. exists r. rewrite Hintent, Htools, Hcontrib.
    repeat split; try apply trim_or_null_not_empty;
      intros ->; reflexivity.
Qed.

(** *** createWork *)

Lemma hex_digit_lower (n : Z) : is_lower_hex (Sha256.hex_digit n) = true.
Proof.
  destruct n as [ | p | p]; try reflexivity.
  do 4 (destruct p as [p | p | ]; try reflexivity).
Qed.

Lemma hex_word_length (w : Z) : List.length (Sha256.hex_word w) = 8%nat.
Proof. reflexivity. Qed.

Lemma hex_word_lower (w : Z) : forallb is_lower_hex (Sha256.hex_word w) = true.
Proof.
  unfold Sha256.hex_word. apply forallb_forall. intros c Hc.
  apply in_map_iff in Hc as [i [<- _]]. apply hex_digit_lower.
Qed.

Lemma length_string_of_list (l : list ascii) :
  String.length (string_of_list_ascii l) = List.length l.
Proof. induction l; cbn; congruence. Qed.

(** The digest is 64 lowercase hexadecimal digits, whatever the buffer. *)
Lemma computeSha256_shape (buffer : list Byte.byte) :
  String.length (computeSha256 buffer) = 64%nat
  /\ forallb is_lower_hex (list_ascii_of_string (computeSha256 buffer)) = true.
Proof.
  unfold computeSha256, Sha256.hex. split.
  - rewrite length_string_of_list. repeat rewrite length_app.
    repeat rewrite hex_word_length. reflexivity.
  - rewrite list_ascii_of_string_of_list_ascii.
    repeat rewrite forallb_app. repeat rewrite hex_word_lower. reflexivity.
Qed.

Lemma createAudioRefs_files (g : WorkGen) (files : list File) (i : nat) :
  Forall2 (refOf (gen_declarationId g))
          (createAudioRefs g i (audioRefData files))
          (filter (fun f => 0 <? file_size f) files).
Proof.
  revert i. induction files as [ | f r IH]; intros i; cbn; [constructor | ].
  destruct (0 <? file_size f); cbn; [ | apply IH].
  constructor; [ | apply IH].
  unfold refOf; cbn.
  pose proof (computeSha256_shape (file_bytes f)) as [Hlen Hhex].
  repeat split; assumption.
Qed.

(** C3.  When the title, the intent or the tools are missing or blank
    after trimming, [createWork] gives a validation error and creates
    nothing.  Otherwise, in one step, it creates exactly one work, exactly
    one declaration of that work, no revision, and one audio reference for
    each uploaded file of nonzero size, in order, with the name of the file
    and the SHA-256 digest of its bytes as 64 lowercase hexadecimal
    digits. *)
Theorem createWork_creates_or_rejects (g : WorkGen) (db : DB) (formData : WorkForm) :
  let result := fst (createWork g db formData) in
  let db' := snd (createWork g db formData) in
  if JS.blank (wf_title formData) || JS.blank (wf_intent formData)
     || JS.blank (wf_tools formData)
  then
    (result = ActionError "Work title is required"
     \/ result = ActionError "Intent statement is required"
     \/ result = ActionError "Tools used is required")
    /\ db' = db
  else
    result = ActionRedirect ("/work/" ++ gen_workId g)
    /\ exists work declaration refs,
        works db' = works db ++ [work]
        /\ declarations db' = declarations db ++ [declaration]
        /\ revisions db' = revisions db
        /\ audioRefs db' = audioRefs db ++ refs
        /\ work_title work = JS.trim (JS.str (wf_title formData))
        /\ decl_workId declaration = work_id work
        /\ decl_intent declaration = JS.trim (JS.str (wf_intent formData))
        /\ decl_tools declaration = JS.trim (JS.str (wf_tools formData))
        /\ Forall2 (refOf (decl_id declaration)) refs
                   (filter (fun f => 0 <? file_size f) (wf_audioFiles formData)).
Proof.
  cbv zeta. unfold createWork.
  destruct (JS.blank (wf_title formData)); cbn [orb fst snd]; [ tauto | ].
  destruct (JS.blank (wf_intent formData)); cbn [orb fst snd]; [ tauto | ].
  destruct (JS.blank (wf_tools formData)); cbn [orb fst snd]; [ tauto | ].
  split; [reflexivity | ].
  eexists _, _, _. cbn.
  repeat split. apply createAudioRefs_files.
Qed.

(** *** getWork after revisions *)

Section OrderBy.

Context {A : Type} (key : A -> Z).

Lemma insertBy_perm (x : A) (l : list A) :
  Permutation (insertBy key x l) (x :: l).
Proof.
  induction l as [ | y r IH]; cbn; [reflexivity | ].
  destruct (key x <=? key y); [reflexivity | ].
  rewrite IH. apply perm_swap.
Qed.

Lemma orderBy_perm (l : list A) : Permutation (orderBy key l) l.
Proof.
  induction l as [ | x r IH]; cbn; [reflexivity | ].
  rewrite insertBy_perm. now constructor.
Qed.

Let le_key (a b : A) : Prop := key a <= key b.

Lemma insertBy_sorted (x : A) (l : list A) :
  StronglySorted le_key l -> StronglySorted le_key (insertBy key x l).
Proof.
  induction 1 as [ | y r Hr IH Hy]; cbn.
  - repeat constructor.
  - destruct (Z.leb_spec (key x) (key y)) as [Hle | Hgt].
    + constructor; [ now constructor | ].
      constructor; [exact Hle | ].
      eapply Forall_impl; [ | exact Hy].
      unfold le_key; intros; lia.
    + constructor; [exact IH | ].
      eapply Permutation_Forall; [ symmetry; apply insertBy_perm | ].
      constructor; [unfold le_key; lia | exact Hy].
Qed.

Lemma orderBy_sorted (l : list A) : StronglySorted le_key (orderBy key l).
Proof.
  induction l as [ | x r IH]; cbn; [constructor | ].
  now apply insertBy_sorted.
Qed.

End OrderBy.

Lemma createRevision_appendOnly (g : RevisionGen) (db : DB) (formData : RevisionForm) :
  appendOnly db (snd (createRevision g db formData)).
Proof.
  destruct (createRevision_outcome g db formData); cbn [snd]; unfold appendOnly;
    repeat split; try (exists []; now rewrite app_nil_r).
  cbn. eexists; reflexivity.
Qed.

Lemma applyRevisions_appendOnly (calls : list (RevisionGen * RevisionForm)) (db : DB) :
  appendOnly db (applyRevisions db calls).
Proof.
  revert db. induction calls as [ | [g f] r IH]; intros db; cbn.
  - repeat split. exists []. now rewrite app_nil_r.
  - destruct (createRevision_appendOnly g db f) as (Hw & Hd & Ha & added & Hr).
    destruct (IH (snd (createRevision g db f))) as (Hw' & Hd' & Ha' & added' & Hr').
    unfold applyRevisions in *. cbn [fst snd] in *.
    repeat split; try congruence.
    exists (added ++ added'). rewrite Hr', Hr. now rewrite app_assoc.
Qed.

(** C2.  Take a work that [getWork] returns with its declaration, and
    apply any sequence of [createRevision] calls.  [getWork] then returns
    the same work and the same declaration (intent, tools, AI flag and
    contributors as they were), the same audio references, every revision
    it returned before, unchanged, together with the new ones, and the
    revisions in non-decreasing order of creation time. *)
Theorem getWork_after_revisions
  (db : DB) (id : string) (view : WorkView) (dview : DeclarationView)
  (calls : list (RevisionGen * RevisionForm))
  (Hget : getWork db id = Some view)
  (Hdecl : wv_declaration view = Some dview) :
  exists dview',
    getWork (applyRevisions db calls) id
      = Some (mkWorkView (wv_work view) (Some dview'))
    /\ dv_declaration dview' = dv_declaration dview
    /\ decl_intent (dv_declaration dview') = decl_intent (dv_declaration dview)
    /\ decl_tools (dv_declaration dview') = decl_tools (dv_declaration dview)
    /\ decl_aiUsed (dv_declaration dview') = decl_aiUsed (dv_declaration dview)
    /\ decl_contributors (dv_declaration dview')
       = decl_contributors (dv_declaration dview)
    /\ dv_audioRefs dview' = dv_audioRefs dview
    /\ (exists added,
          Permutation (dv_revisions dview') (dv_revisions dview ++ added))
    /\ (forall r, In r (dv_revisions dview) -> In r (dv_revisions dview'))
    /\ oldestFirst (dv_revisions dview').
Proof.
  destruct (applyRevisions_appendOnly calls db) as (Hw & Hd & Ha & added & Hr).
  unfold getWork in *. rewrite Hw, Hd.
  destruct (find _ (works db)) as [w | ]; [ | discriminate].
  injection Hget as <-. cbn [wv_declaration wv_work] in *.
  destruct (find _ (declarations db)) as [d | ]; [ | discriminate].
  cbn [option_map] in *. injection Hdecl as <-.
  eexists. split; [reflexivity | ].
  unfold includeDeclaration; cbn [dv_declaration dv_revisions dv_audioRefs].
  rewrite Ha, Hr, filter_app.
  set (mine := fun r => String.eqb (rev_declarationId r) (decl_id d)).
  assert (Hperm : Permutation
                    (orderBy rev_createdAt (filter mine (revisions db) ++ filter mine added))
                    (orderBy rev_createdAt (filter mine (revisions db)) ++ filter mine added)).
  { rewrite orderBy_perm. apply Permutation_app_tail. symmetry. apply orderBy_perm. }
  repeat split; try reflexivity.
  - exists (filter mine added). exact Hperm.
  - intros r Hin. eapply Permutation_in; [symmetry; exact Hperm | ].
    apply in_or_app. now left.
  - apply orderBy_sorted.
Qed.

End LedgerFacts.

(** ** Binary64 arithmetic: rounding stays between canonical bounds *)

Section Binary64Facts.
Import Binary64.

Lemma K_eq : K = 2200. Proof. reflexivity. Qed.
Opaque K.

Lemma fexp_eq (e : Z) : fexp prec emax e = fexp64 e.
Proof. reflexivity. Qed.

Lemma P_pos (e : Z) : - K <= e -> 0 < P e.
Proof. intros. unfold P. apply Z.pow_pos_nonneg; lia. Qed.

Lemma P_add (e a : Z) : - K <= e -> 0 <= a -> P (e + a) = 2 ^ a * P e.
Proof.
  intros. unfold P. replace (e + a + K) with (a + (e + K)) by lia.
  apply Z.pow_add_r; lia.
Qed.

Lemma P_mul (e1 e2 : Z) : - K <= e1 + e2 -> - K <= e1 -> - K <= e2 ->
  P e1 * P e2 = P (e1 + e2) * 2 ^ K.
Proof.
  intros. pose proof K_eq. unfold P. rewrite <- !Z.pow_add_r by lia. f_equal. lia.
Qed.

(** Number of binary digits. *)
Lemma digits2_size (m : positive) : digits2_pos m = Pos.size m.
Proof. induction m; cbn; congruence. Qed.

Lemma digits_bounds (m : positive) :
  2 ^ (Z.pos (digits2_pos m) - 1) <= Z.pos m < 2 ^ Z.pos (digits2_pos m).
Proof.
  rewrite digits2_size. split.
  - pose proof (Pos.size_le m) as H.
    apply Pos2Z.pos_le_pos in H.
    rewrite Pos2Z.inj_pow in H. rewrite (Pos2Z.inj_xO m) in H.
    replace (Z.pos (Pos.size m)) with (Z.succ (Z.pos (Pos.size m) - 1)) in H by lia.
    rewrite Z.pow_succ_r in H by lia. lia.
  - pose proof (Pos.size_gt m) as H.
    apply Pos2Z.pos_lt_pos in H. rewrite Pos2Z.inj_pow in H. exact H.
Qed.

Lemma pow2_lt_inv (a b : Z) : 0 <= b -> 2 ^ a < 2 ^ b -> a < b.
Proof.
  intros Hb H. destruct (Z_lt_le_dec a b) as [ | Hle]; [assumption | exfalso].
  assert (2 ^ b <= 2 ^ a) by (apply Z.pow_le_mono_r; lia). lia.
Qed.

(** *** Shifting the mantissa right *)

Lemma iter_pos_nat {A} (f : A -> A) (p : positive) (x : A) :
  iter_pos f p x = Nat.iter (Pos.to_nat p) f x.
Proof.
  revert x. induction p as [p IH | p IH | ]; intros x; cbn [iter_pos].
  - rewrite !IH, Pos2Nat.inj_xI.
    replace (S (2 * Pos.to_nat p))%nat with (S (Pos.to_nat p + Pos.to_nat p)) by lia.
    rewrite Nat.iter_succ_r, Nat.iter_add. reflexivity.
  - rewrite !IH, Pos2Nat.inj_xO.
    replace (2 * Pos.to_nat p)%nat with (Pos.to_nat p + Pos.to_nat p)%nat by lia.
    rewrite Nat.iter_add. reflexivity.
  - reflexivity.
Qed.

Lemma shr_1_spec (mrs : shr_record) :
  0 <= shr_m mrs ->
  shr_m (shr_1 mrs) = shr_m mrs / 2
  /\ shr_r (shr_1 mrs) = Z.odd (shr_m mrs)
  /\ shr_s (shr_1 mrs) = shr_r mrs || shr_s mrs.
Proof.
  destruct mrs as [m r s]. cbn [shr_m shr_r shr_s]. intros Hm.
  rewrite <- Z.div2_div.
  destruct m as [ | [p | p | ] | p]; try lia; cbn; auto.
Qed.

Lemma iter_shr (n : nat) (m : Z) :
  0 <= m ->
  shr_m (Nat.iter n shr_1 (Build_shr_record m false false)) = m / 2 ^ Z.of_nat n
  /\ (m mod 2 ^ Z.of_nat n = 0 ->
      shr_r (Nat.iter n shr_1 (Build_shr_record m false false)) = false
      /\ shr_s (Nat.iter n shr_1 (Build_shr_record m false false)) = false).
Proof.
  intros Hm. induction n as [ | n IH].
  - cbn. rewrite Z.div_1_r. auto.
  - rewrite Nat.iter_succ. destruct IH as [IHm IHx].
    set (res := Nat.iter n shr_1 (Build_shr_record m false false)) in *.
    assert (Hpos : 0 < 2 ^ Z.of_nat n) by (apply Z.pow_pos_nonneg; lia).
    assert (Hres : 0 <= shr_m res) by (rewrite IHm; apply Z.div_pos; lia).
    destruct (shr_1_spec res Hres) as (H1 & H2 & H3).
    rewrite Nat2Z.inj_succ, Z.pow_succ_r by lia.
    split.
    + rewrite H1, IHm, Z.div_div by lia. f_equal. lia.
    + intros Hmod.
      apply Z.mod_divide in Hmod; [ | lia]. destruct Hmod as [q Hq].
      assert (Hmod' : m mod 2 ^ Z.of_nat n = 0).
      { apply Z.mod_divide; [lia | ]. exists (q * 2). lia. }
      destruct (IHx Hmod') as [Hr Hs].
      rewrite H2, H3, Hr, Hs, IHm. split; [ | reflexivity].
      replace m with (2 * q * 2 ^ Z.of_nat n) by lia.
      rewrite Z.div_mul by lia. rewrite Z.odd_mul. reflexivity.
Qed.

Lemma shr_exact_loc (mrs : shr_record) :
  shr_r mrs = false -> shr_s mrs = false -> loc_of_shr_record mrs = loc_Exact.
Proof. destruct mrs as [m r s]; cbn; intros -> ->; reflexivity. Qed.

Lemma rne_bounds (m : Z) (l : location) :
  m <= round_nearest_even m l <= m + 1.
Proof.
  destruct l as [ | [ | | ]]; cbn; try lia. destruct (Z.even m); lia.
Qed.

(** Shifting right by [fexp - e] bits. *)
Lemma shr_fexp_pos (mx : positive) (ex : Z) :
  let E := fexp64 (Z.pos (digits2_pos mx) + ex) in
  ex <= E ->
  exists mrs,
    shr_fexp prec emax (Z.pos mx) ex loc_Exact = (mrs, E)
    /\ shr_m mrs = Z.pos mx / 2 ^ (E - ex)
    /\ (Z.pos mx mod 2 ^ (E - ex) = 0 -> loc_of_shr_record mrs = loc_Exact).
Proof.
  intros E HE. unfold shr_fexp. cbn [Zdigits2 shr_record_of_loc].
  rewrite fexp_eq. fold E.
  destruct (E - ex) as [ | p | p] eqn:Hn; try lia.
  - exists (Build_shr_record (Z.pos mx) false false). cbn [shr shr_m].
    rewrite Z.div_1_r. repeat split; auto. f_equal. lia.
  - cbn [shr]. rewrite iter_pos_nat.
    destruct (iter_shr (Pos.to_nat p) (Z.pos mx) ltac:(lia)) as [H1 H2].
    rewrite positive_nat_Z in H1, H2.
    eexists. split; [ f_equal; lia | ].
    split; [exact H1 | ].
    intros Hmod. destruct (H2 Hmod). now apply shr_exact_loc.
Qed.

Lemma Zdigits2_le_53 (m : Z) : 0 <= m < 2 ^ 53 -> Zdigits2 m <= 53.
Proof.
  intros [H0 H1]. destruct m as [ | p | p]; cbn; try lia.
  pose proof (digits_bounds p) as [Hd _].
  assert (2 ^ (Z.pos (digits2_pos p) - 1) < 2 ^ 53) by lia.
  apply pow2_lt_inv in H; lia.
Qed.

(** The shift after rounding: nothing below 2^53, one bit at 2^53. *)
Lemma shr_fexp_again (m1 E : Z) :
  -1074 <= E -> 0 <= m1 <= 2 ^ 53 ->
  shr_fexp prec emax m1 E loc_Exact
  = if m1 =? 2 ^ 53 then (Build_shr_record (2 ^ 52) false false, E + 1)
    else (Build_shr_record m1 false false, E).
Proof.
  intros HE Hm. unfold shr_fexp. rewrite fexp_eq. cbn [shr_record_of_loc].
  destruct (Z.eqb_spec m1 (2 ^ 53)) as [-> | Hne].
  - change (Zdigits2 (2 ^ 53)) with 54. unfold fexp64.
    replace (Z.max (54 + E - 53) (-1074) - E) with 1 by lia.
    reflexivity.
  - pose proof (Zdigits2_le_53 m1 ltac:(lia)) as Hd. unfold fexp64.
    destruct (Z.max (Zdigits2 m1 + E - 53) (-1074) - E) eqn:Hn; try lia;
      reflexivity.
Qed.

(** The shape of a rounding from an exact mantissa. *)
Lemma binary_round_aux_shape (sx : bool) (mx : positive) (ex : Z) :
  let E := fexp64 (Z.pos (digits2_pos mx) + ex) in
  ex <= E ->
  exists m1,
    Z.pos mx / 2 ^ (E - ex) <= m1 <= Z.pos mx / 2 ^ (E - ex) + 1
    /\ (Z.pos mx mod 2 ^ (E - ex) = 0 -> m1 = Z.pos mx / 2 ^ (E - ex))
    /\ m1 <= 2 ^ 53
    /\ binary_round_aux prec emax sx (Z.pos mx) ex loc_Exact
       = if m1 =? 0 then S754_zero sx
         else if m1 =? 2 ^ 53
              then if E + 1 <=? 971 then S754_finite sx (2 ^ 52) (E + 1)
                   else S754_infinity sx
         else if E <=? 971 then S754_finite sx (Z.to_pos m1) E
              else S754_infinity sx.
Proof.
  intros E HE.
  destruct (shr_fexp_pos mx ex HE) as (mrs & Hshr & Hm & Hloc). fold E in Hshr, Hm, Hloc.
  set (n := E - ex) in *.
  set (m1 := round_nearest_even (shr_m mrs) (loc_of_shr_record mrs)).
  assert (Hpow : 0 < 2 ^ n) by (apply Z.pow_pos_nonneg; lia).
  assert (Hm' : 0 <= Z.pos mx / 2 ^ n < 2 ^ 53).
  { split; [apply Z.div_pos; lia | ].
    apply Z.div_lt_upper_bound; [lia | ].
    pose proof (digits_bounds mx) as [_ Hd].
    rewrite <- Z.pow_add_r by lia.
    assert (2 ^ Z.pos (digits2_pos mx) <= 2 ^ (n + 53)).
    { apply Z.pow_le_mono_r; [lia | ]. unfold n, E, fexp64. lia. }
    lia. }
  pose proof (rne_bounds (shr_m mrs) (loc_of_shr_record mrs)) as Hrne.
  fold m1 in Hrne. rewrite Hm in Hrne.
  exists m1. split; [exact Hrne | ].
  split.
  { intros Hmod. unfold m1. rewrite (Hloc Hmod). cbn. exact Hm. }
  split; [lia | ].
  unfold binary_round_aux. rewrite Hshr. fold m1.
  rewrite shr_fexp_again by (unfold E, fexp64; lia).
  destruct (Z.eqb_spec m1 (2 ^ 53)) as [E53 | N53].
  - rewrite E53. cbn [shr_m]. reflexivity.
  - cbn [shr_m]. destruct m1 as [ | p | p] eqn:Em1; try lia; reflexivity.
Qed.

(** *** Canonical floats *)

Lemma bounded_facts (m : positive) (e : Z) :
  bounded prec emax m e = true ->
  e = fexp64 (Z.pos (digits2_pos m) + e) /\ e <= 971.
Proof.
  unfold bounded, canonical_mantissa. rewrite fexp_eq.
  intros H. apply andb_true_iff in H as [H1 H2].
  apply Z.eqb_eq in H1. apply Z.leb_le in H2.
  change (emax - prec) with 971 in H2. auto.
Qed.

Lemma bounded_range (m : positive) (e : Z) :
  bounded prec emax m e = true ->
  -1074 <= e <= 971 /\ Z.pos (digits2_pos m) <= 53 /\ Z.pos m < 2 ^ 53
  /\ (-1074 < e -> Z.pos (digits2_pos m) = 53).
Proof.
  intros H. apply bounded_facts in H as [H1 H2]. unfold fexp64 in H1.
  assert (Hd : Z.pos (digits2_pos m) <= 53) by lia.
  repeat split; try lia.
  pose proof (digits_bounds m) as [_ Hm].
  assert (2 ^ Z.pos (digits2_pos m) <= 2 ^ 53) by (apply Z.pow_le_mono_r; lia).
  lia.
Qed.

Lemma P_le (e1 e2 : Z) : - K <= e1 -> e1 <= e2 -> P e1 <= P e2.
Proof. intros. unfold P. apply Z.pow_le_mono_r; lia. Qed.

(** A smaller value has no more digits above the binary point. *)
Lemma magnitude_le (m1 : positive) (e1 : Z) (m2 : positive) (e2 : Z) :
  - K <= e1 -> - K <= e2 ->
  Z.pos m1 * P e1 <= Z.pos m2 * P e2 ->
  Z.pos (digits2_pos m1) + e1 <= Z.pos (digits2_pos m2) + e2.
Proof.
  intros H1 H2 Hle.
  pose proof (digits_bounds m1) as [Hd1 _].
  pose proof (digits_bounds m2) as [_ Hd2].
  pose proof (P_pos e1 H1). pose proof (P_pos e2 H2).
  assert (Hlt : 2 ^ (Z.pos (digits2_pos m1) - 1) * P e1
                < 2 ^ Z.pos (digits2_pos m2) * P e2) by nia.
  unfold P in Hlt. rewrite <- !Z.pow_add_r in Hlt by lia.
  apply pow2_lt_inv in Hlt; lia.
Qed.

(** Rounding an exact value that lies between two canonical floats gives
    a finite float between them. *)
Lemma binary_round_aux_bounds (sx : bool) (mx : positive) (ex : Z)
  (ml : positive) (el : Z) (mh : positive) (eh : Z) :
  ex <= fexp64 (Z.pos (digits2_pos mx) + ex) -> - K <= ex ->
  bounded prec emax ml el = true -> bounded prec emax mh eh = true ->
  Z.pos ml * P el <= Z.pos mx * P ex <= Z.pos mh * P eh ->
  exists m e,
    binary_round_aux prec emax sx (Z.pos mx) ex loc_Exact = S754_finite sx m e
    /\ Z.pos ml * P el <= Z.pos m * P e <= Z.pos mh * P eh.
Proof.
  intros HE HK Hl Hh [Hlo Hhi]. pose proof K_eq as HKv.
  destruct (binary_round_aux_shape sx mx ex HE) as (m1 & Hm1 & Hexact & H53 & Hres).
  set (E := fexp64 (Z.pos (digits2_pos mx) + ex)) in *.
  set (n := E - ex) in *.
  pose proof (bounded_range _ _ Hl) as (Hel & Hdl & Hml & Hnl).
  pose proof (bounded_range _ _ Hh) as (Heh & Hdh & Hmh & Hnh).
  apply bounded_facts in Hl as [Hcl _]. apply bounded_facts in Hh as [Hch _].
  assert (HelE : el <= E).
  { rewrite Hcl. unfold E, fexp64.
    pose proof (magnitude_le ml el mx ex ltac:(lia) HK Hlo). lia. }
  assert (HEeh : E <= eh).
  { rewrite Hch. unfold E, fexp64.
    pose proof (magnitude_le mx ex mh eh HK ltac:(lia) Hhi). lia. }
  assert (HEmin : -1074 <= E) by (unfold E, fexp64; lia).
  assert (Hpn : 0 < 2 ^ n) by (apply Z.pow_pos_nonneg; lia).
  assert (HPex : 0 < P ex) by (apply P_pos; lia).
  assert (HPE : P E = 2 ^ n * P ex).
  { replace E with (ex + n) by (unfold n; lia). apply P_add; lia. }
  pose proof (Z.div_mod (Z.pos mx) (2 ^ n) ltac:(lia)) as Hdm.
  pose proof (Z.mod_pos_bound (Z.pos mx) (2 ^ n) Hpn) as Hrem.
  set (m' := Z.pos mx / 2 ^ n) in *. set (rem := Z.pos mx mod 2 ^ n) in *.
  (* the upper bound *)
  assert (HPeh : P eh = 2 ^ (eh - E) * P E).
  { replace eh with (E + (eh - E)) at 1 by lia. apply P_add; lia. }
  assert (Hpq : 0 < 2 ^ (eh - E)) by (apply Z.pow_pos_nonneg; lia).
  set (H := Z.pos mh * 2 ^ (eh - E)).
  assert (Hup : m1 <= H).
  { assert (Z.pos mx <= H * 2 ^ n).
    { unfold H. rewrite HPeh, HPE in Hhi. nia. }
    destruct (Z.eq_dec rem 0) as [Hz | Hnz].
    - rewrite (Hexact Hz). nia.
    - assert (m' < H) by nia. lia. }
  (* the lower bound *)
  assert (Hlow : Z.pos ml * P el <= m1 * P E).
  { destruct (Z.eq_dec el E) as [Heq | Hne].
    - rewrite Heq in *. rewrite HPE in Hlo |- *.
      assert (Z.pos ml <= m') by nia. nia.
    - assert (HEn : E = Z.pos (digits2_pos mx) + ex - 53)
        by (unfold E, fexp64 in *; lia).
      assert (Hm52 : 2 ^ 52 <= m').
      { apply Z.div_le_lower_bound; [lia | ].
        pose proof (digits_bounds mx) as [Hd _].
        rewrite <- Z.pow_add_r by lia.
        replace (n + 52) with (Z.pos (digits2_pos mx) - 1) by (unfold n; lia).
        exact Hd. }
      assert (HP1 : P E = 2 * P (E - 1)).
      { replace E with (E - 1 + 1) at 1 by lia. rewrite P_add by lia. reflexivity. }
      pose proof (P_le el (E - 1) ltac:(lia) ltac:(lia)) as HPl.
      pose proof (P_pos el ltac:(lia)).
      change (2 ^ 53) with (2 * 2 ^ 52) in Hml.
      nia. }
  assert (Hm1pos : 0 < m1).
  { pose proof (P_pos el ltac:(lia)). pose proof (P_pos E ltac:(lia)). nia. }
  rewrite Hres.
  destruct (Z.eqb_spec m1 0) as [ | _]; [lia | ].
  destruct (Z.eqb_spec m1 (2 ^ 53)) as [E53 | N53].
  - assert (E + 1 <= eh).
    { destruct (Z.eq_dec eh E) as [Heq | ]; [ | lia].
      unfold H in Hup. rewrite Heq, Z.sub_diag in Hup. cbn in Hup. lia. }
    destruct (Z.leb_spec (E + 1) 971); [ | lia].
    eexists _, _. split; [reflexivity | ].
    rewrite (P_add E 1) by lia.
    change (Z.pos (2 ^ 52)) with (2 ^ 52). change (2 ^ 1) with 2.
    rewrite E53 in *. change (2 ^ 53) with (2 * 2 ^ 52) in *.
    split; [lia | ].
    rewrite HPeh. fold H. pose proof (P_pos E ltac:(lia)). nia.
  - destruct (Z.leb_spec E 971); [ | lia].
    eexists _, _. split; [reflexivity | ].
    rewrite Z2Pos.id by lia.
    split; [exact Hlow | ].
    rewrite HPeh. fold H. pose proof (P_pos E ltac:(lia)). nia.
Qed.

(** *** Aligning the mantissa left *)

Lemma iter_xO (m d : positive) :
  Z.pos (Pos.iter xO m d) = Z.pos m * 2 ^ Z.pos d
  /\ Z.pos (digits2_pos (Pos.iter xO m d)) = Z.pos (digits2_pos m) + Z.pos d.
Proof.
  induction d as [ | d IH] using Pos.peano_ind.
  - cbn [Pos.iter]. split; [ | cbn [digits2_pos]]; lia.
  - rewrite Pos.iter_succ. destruct IH as [IH1 IH2].
    cbn [digits2_pos]. rewrite Pos2Z.inj_succ, (Pos2Z.inj_xO (Pos.iter xO m d)).
    rewrite Pos2Z.inj_succ, Z.pow_succ_r by lia. split; lia.
Qed.

Lemma shl_align_spec (mx : positive) (ex ex' : Z) :
  - K <= ex -> - K <= ex' ->
  Z.pos (fst (shl_align mx ex ex')) * P (snd (shl_align mx ex ex')) = Z.pos mx * P ex
  /\ snd (shl_align mx ex ex') = Z.min ex ex'
  /\ Z.pos (digits2_pos (fst (shl_align mx ex ex'))) + snd (shl_align mx ex ex')
     = Z.pos (digits2_pos mx) + ex.
Proof.
  intros H1 H2. unfold shl_align.
  destruct (ex' - ex) as [ | d | d] eqn:Hd; cbn [fst snd]; try (repeat split; lia).
  destruct (iter_xO mx d) as [Hv Hg]. rewrite Hv, Hg.
  replace ex with (ex' + Z.pos d) by lia.
  rewrite P_add by lia. repeat split; lia.
Qed.

Lemma binary_round_bounds (sx : bool) (mx : positive) (ex : Z)
  (ml : positive) (el : Z) (mh : positive) (eh : Z) :
  - K <= ex ->
  bounded prec emax ml el = true -> bounded prec emax mh eh = true ->
  Z.pos ml * P el <= Z.pos mx * P ex <= Z.pos mh * P eh ->
  exists m e,
    binary_round prec emax sx mx ex = S754_finite sx m e
    /\ Z.pos ml * P el <= Z.pos m * P e <= Z.pos mh * P eh.
Proof.
  intros HK Hl Hh Hb. pose proof K_eq. unfold binary_round. rewrite fexp_eq.
  set (E := fexp64 (Z.pos (digits2_pos mx) + ex)).
  assert (HE : - K <= E) by (unfold E, fexp64; lia).
  destruct (shl_align_spec mx ex E HK HE) as (Hv & He & Hd).
  destruct (shl_align mx ex E) as [mz ez]. cbn [fst snd] in *.
  apply binary_round_aux_bounds; try assumption.
  - rewrite Hd. fold E. lia.
  - lia.
  - rewrite Hv. exact Hb.
Qed.

(** *** Addition and multiplication of positive finite floats *)

Lemma SFadd_bounds (mx : positive) (ex : Z) (my : positive) (ey : Z)
  (ml : positive) (el : Z) (mh : positive) (eh : Z) :
  bounded prec emax mx ex = true -> bounded prec emax my ey = true ->
  bounded prec emax ml el = true -> bounded prec emax mh eh = true ->
  Z.pos ml * P el <= Z.pos mx * P ex + Z.pos my * P ey <= Z.pos mh * P eh ->
  exists m e,
    SF64add (S754_finite false mx ex) (S754_finite false my ey) = S754_finite false m e
    /\ Z.pos ml * P el <= Z.pos m * P e <= Z.pos mh * P eh.
Proof.
  intros Hx Hy Hl Hh Hb. pose proof K_eq.
  apply bounded_range in Hx as (Hex & _). apply bounded_range in Hy as (Hey & _).
  unfold SF64add, SFadd. cbn [cond_Zopp].
  set (ez := Z.min ex ey).
  destruct (shl_align_spec mx ex ez ltac:(lia) ltac:(lia)) as (Hvx & Hsx & _).
  destruct (shl_align_spec my ey ez ltac:(lia) ltac:(lia)) as (Hvy & Hsy & _).
  replace (Z.min ex ez) with ez in Hsx by lia.
  replace (Z.min ey ez) with ez in Hsy by lia.
  rewrite Hsx in Hvx. rewrite Hsy in Hvy.
  rewrite <- Pos2Z.inj_add. cbn [binary_normalize].
  apply binary_round_bounds; try assumption; [lia | ].
  rewrite Pos2Z.inj_add, Z.mul_add_distr_r, Hvx, Hvy. exact Hb.
Qed.

Lemma digits_mul (mx my : positive) :
  Z.pos (digits2_pos mx) + Z.pos (digits2_pos my) - 1
  <= Z.pos (digits2_pos (mx * my)).
Proof.
  pose proof (digits_bounds mx) as [Hx _].
  pose proof (digits_bounds my) as [Hy _].
  pose proof (digits_bounds (mx * my)) as [_ Hxy].
  rewrite Pos2Z.inj_mul in Hxy.
  assert (0 < 2 ^ (Z.pos (digits2_pos mx) - 1)) by (apply Z.pow_pos_nonneg; lia).
  assert (0 < 2 ^ (Z.pos (digits2_pos my) - 1)) by (apply Z.pow_pos_nonneg; lia).
  assert (Hlt : 2 ^ (Z.pos (digits2_pos mx) - 1) * 2 ^ (Z.pos (digits2_pos my) - 1)
                < 2 ^ Z.pos (digits2_pos (mx * my))) by nia.
  rewrite <- Z.pow_add_r in Hlt by lia.
  apply pow2_lt_inv in Hlt; lia.
Qed.

Lemma SFmul_bounds (mx : positive) (ex : Z) (my : positive) (ey : Z)
  (ml : positive) (el : Z) (mh : positive) (eh : Z) :
  bounded prec emax mx ex = true -> bounded prec emax my ey = true ->
  bounded prec emax ml el = true -> bounded prec emax mh eh = true ->
  Z.pos ml * P el * 2 ^ K <= (Z.pos mx * P ex) * (Z.pos my * P ey)
    <= Z.pos mh * P eh * 2 ^ K ->
  exists m e,
    SF64mul (S754_finite false mx ex) (S754_finite false my ey) = S754_finite false m e
    /\ Z.pos ml * P el <= Z.pos m * P e <= Z.pos mh * P eh.
Proof.
  intros Hx Hy Hl Hh Hb. pose proof K_eq.
  apply bounded_range in Hx as (Hex & Hdx & _ & Hnx).
  apply bounded_range in Hy as (Hey & Hdy & _ & Hny).
  unfold SF64mul, SFmul. cbn [xorb].
  pose proof (digits_mul mx my) as Hd.
  assert (H2K : 0 < 2 ^ K) by (apply Z.pow_pos_nonneg; lia).
  apply binary_round_aux_bounds; try assumption.
  - unfold fexp64.
    destruct (Z.eq_dec ex (-1074)) as [Ex | Nx];
      destruct (Z.eq_dec ey (-1074)) as [Ey | Ny]; lia.
  - lia.
  - rewrite Pos2Z.inj_mul.
    replace (Z.pos mx * P ex * (Z.pos my * P ey))
      with (Z.pos mx * Z.pos my * P (ex + ey) * 2 ^ K) in Hb
      by (rewrite <- Z.mul_assoc, <- P_mul by lia; ring).
    nia.
Qed.

(** *** Comparison of positive finite floats *)

Lemma SFcompare_pos (m1 : positive) (e1 : Z) (m2 : positive) (e2 : Z) :
  bounded prec emax m1 e1 = true -> bounded prec emax m2 e2 = true ->
  SFcompare (S754_finite false m1 e1) (S754_finite false m2 e2)
  = Some (Z.pos m1 * P e1 ?= Z.pos m2 * P e2).
Proof.
  intros H1 H2. pose proof K_eq as HK. cbn [SFcompare]. f_equal.
  pose proof (bounded_range _ _ H1) as (He1 & _).
  pose proof (bounded_range _ _ H2) as (He2 & _).
  apply bounded_facts in H1 as [Hc1 _]. apply bounded_facts in H2 as [Hc2 _].
  assert (Hlt : forall ma ea mb eb,
             -1074 <= ea -> -1074 <= eb ->
             ea = fexp64 (Z.pos (digits2_pos ma) + ea) ->
             eb = fexp64 (Z.pos (digits2_pos mb) + eb) ->
             ea < eb -> Z.pos ma * P ea < Z.pos mb * P eb).
  { intros ma ea mb eb Ha Hb Hca Hcb Hab.
    pose proof (digits_bounds ma) as [_ Hda].
    pose proof (digits_bounds mb) as [Hdb _].
    assert (Hmag : Z.pos (digits2_pos ma) + ea <= Z.pos (digits2_pos mb) - 1 + eb)
      by (unfold fexp64 in *; lia).
    pose proof (P_pos ea ltac:(lia)). pose proof (P_pos eb ltac:(lia)).
    assert (2 ^ Z.pos (digits2_pos ma) * P ea
            <= 2 ^ (Z.pos (digits2_pos mb) - 1) * P eb).
    { unfold P. rewrite <- !Z.pow_add_r by lia. apply Z.pow_le_mono_r; lia. }
    nia. }
  destruct (Z.compare_spec e1 e2) as [Heq | Hl | Hg].
  - subst e2. rewrite Pos.compare_cont_spec.
    rewrite <- Zmult_compare_compat_r by (apply Z.lt_gt, P_pos; lia).
    cbn [Z.compare]. destruct (m1 ?= m2)%positive; reflexivity.
  - symmetry. apply Z.compare_lt_iff. apply Hlt; auto; lia.
  - symmetry. apply Z.compare_gt_iff. apply Hlt; auto; lia.
Qed.

Lemma SFleb_pos (m1 : positive) (e1 : Z) (m2 : positive) (e2 : Z) :
  bounded prec emax m1 e1 = true -> bounded prec emax m2 e2 = true ->
  SFleb (S754_finite false m1 e1) (S754_finite false m2 e2)
  = (Z.pos m1 * P e1 <=? Z.pos m2 * P e2).
Proof.
  intros H1 H2. unfold SFleb. rewrite SFcompare_pos by assumption.
  unfold Z.leb. destruct (Z.pos m1 * P e1 ?= Z.pos m2 * P e2); reflexivity.
Qed.

(** *** The same facts on the floats of the kernel *)

Local Open Scope float_scope.

Lemma FinPos_bounded (x : float) (m : positive) (e : Z) :
  Prim2SF x = S754_finite false m e -> bounded prec emax m e = true.
Proof. intros H. pose proof (Prim2SF_valid x) as V. rewrite H in V. exact V. Qed.

Lemma val_FinPos (x : float) (m : positive) (e : Z) :
  Prim2SF x = S754_finite false m e -> val x = (Z.pos m * P e)%Z.
Proof. intros H. unfold val. rewrite H. reflexivity. Qed.

Lemma FinPos_val_pos (x : float) : FinPos x -> (0 < val x)%Z.
Proof.
  intros (m & e & H). rewrite (val_FinPos _ _ _ H).
  pose proof (bounded_range _ _ (FinPos_bounded _ _ _ H)) as (He & _).
  pose proof K_eq. pose proof (P_pos e ltac:(lia)). nia.
Qed.

Lemma between_leb (lo hi x : float) :
  FinPos lo -> FinPos hi -> between lo hi x ->
  (lo <=? x) = true /\ (x <=? hi) = true.
Proof.
  intros (ml & el & Hl) (mh & eh & Hh) [(m & e & Hx) Hb].
  rewrite (val_FinPos _ _ _ Hl), (val_FinPos _ _ _ Hh), (val_FinPos _ _ _ Hx) in Hb.
  rewrite !FloatAxioms.leb_spec, Hl, Hh, Hx.
  rewrite !SFleb_pos by eauto using FinPos_bounded.
  split; apply Z.leb_le; lia.
Qed.

Lemma leb_between (lo hi x : float) :
  FinPos lo -> FinPos hi ->
  (lo <=? x) = true -> (x <=? hi) = true -> between lo hi x.
Proof.
  intros (ml & el & Hl) (mh & eh & Hh) H1 H2.
  rewrite FloatAxioms.leb_spec, Hl in H1. rewrite FloatAxioms.leb_spec, Hh in H2.
  unfold between. rewrite (val_FinPos _ _ _ Hl), (val_FinPos _ _ _ Hh).
  destruct (Prim2SF x) as [s | s | | s m e] eqn:Hx;
    try discriminate; try (destruct s; discriminate).
  destruct s; [discriminate | ].
  split; [now exists m, e | ].
  rewrite (val_FinPos _ _ _ Hx).
  rewrite SFleb_pos in H1, H2 by eauto using FinPos_bounded.
  apply Z.leb_le in H1, H2. lia.
Qed.

(** A float between [0] and a positive finite float is a zero or a
    positive finite float below it. *)
Lemma leb_zero_between (hi x : float) :
  FinPos hi -> (0 <=? x) = true -> (x <=? hi) = true ->
  (exists s, Prim2SF x = S754_zero s)
  \/ (FinPos x /\ (val x <= val hi)%Z).
Proof.
  intros (mh & eh & Hh) H1 H2.
  rewrite FloatAxioms.leb_spec in H1. rewrite FloatAxioms.leb_spec, Hh in H2.
  change (Prim2SF 0) with (S754_zero false) in H1.
  rewrite (val_FinPos _ _ _ Hh).
  destruct (Prim2SF x) as [s | s | | s m e] eqn:Hx;
    try discriminate; try (destruct s; discriminate).
  - left. now exists s.
  - destruct s; [discriminate | ]. right.
    split; [now exists m, e | ].
    rewrite (val_FinPos _ _ _ Hx).
    rewrite SFleb_pos in H2 by eauto using FinPos_bounded.
    apply Z.leb_le in H2. exact H2.
Qed.

Lemma add_between (a a' b b' lo hi x y : float) :
  between a a' x -> between b b' y -> FinPos lo -> FinPos hi ->
  (val lo <= val a + val b)%Z -> (val a' + val b' <= val hi)%Z ->
  between lo hi (x + y).
Proof.
  intros [(mx & ex & Hx) Hbx] [(my & ey & Hy) Hby] (ml & el & Hl) (mh & eh & Hh) Hlo Hhi.
  rewrite (val_FinPos _ _ _ Hl) in *. rewrite (val_FinPos _ _ _ Hh) in *.
  rewrite (val_FinPos _ _ _ Hx) in Hbx. rewrite (val_FinPos _ _ _ Hy) in Hby.
  destruct (SFadd_bounds mx ex my ey ml el mh eh) as (m & e & Hadd & Hb);
    eauto using FinPos_bounded; [lia | ].
  assert (Hs : Prim2SF (x + y) = S754_finite false m e)
    by (rewrite FloatAxioms.add_spec, Hx, Hy; exact Hadd).
  split; [now exists m, e | ].
  rewrite (val_FinPos _ _ _ Hs), (val_FinPos _ _ _ Hl), (val_FinPos _ _ _ Hh).
  exact Hb.
Qed.

Lemma add_zero_r (x y : float) (s : bool) :
  FinPos x -> Prim2SF y = S754_zero s -> x + y = x.
Proof.
  intros (m & e & Hx) Hy. apply Prim2SF_inj.
  rewrite FloatAxioms.add_spec, Hx, Hy. reflexivity.
Qed.

Lemma mul_between (a a' b b' lo hi x y : float) :
  between a a' x -> between b b' y -> FinPos lo -> FinPos hi ->
  (0 <= val a)%Z -> (0 <= val b)%Z ->
  (val lo * 2 ^ K <= val a * val b)%Z -> (val a' * val b' <= val hi * 2 ^ K)%Z ->
  between lo hi (x * y).
Proof.
  intros [Fx Hbx] [Fy Hby] (ml & el & Hl) (mh & eh & Hh) Ha Hb Hlo Hhi.
  pose proof (FinPos_val_pos _ Fx). pose proof (FinPos_val_pos _ Fy).
  destruct Fx as (mx & ex & Hx). destruct Fy as (my & ey & Hy).
  rewrite (val_FinPos _ _ _ Hl) in *. rewrite (val_FinPos _ _ _ Hh) in *.
  rewrite (val_FinPos _ _ _ Hx) in *. rewrite (val_FinPos _ _ _ Hy) in *.
  destruct (SFmul_bounds mx ex my ey ml el mh eh) as (m & e & Hmul & Hbm);
    eauto using FinPos_bounded; [nia | ].
  assert (Hs : Prim2SF (x * y) = S754_finite false m e)
    by (rewrite FloatAxioms.mul_spec, Hx, Hy; exact Hmul).
  split; [now exists m, e | ].
  rewrite (val_FinPos _ _ _ Hs), (val_FinPos _ _ _ Hl), (val_FinPos _ _ _ Hh).
  exact Hbm.
Qed.

Lemma Z2F_between (lo hi : float) (z : Z) :
  FinPos lo -> FinPos hi -> (0 < z < 2 ^ 63)%Z ->
  (val lo <= z * 2 ^ K <= val hi)%Z ->
  between lo hi (JS.Z2F z).
Proof.
  intros (ml & el & Hl) (mh & eh & Hh) Hz Hb. pose proof K_eq.
  rewrite (val_FinPos _ _ _ Hl), (val_FinPos _ _ _ Hh) in Hb.
  unfold JS.Z2F. destruct (Z.ltb_spec z 0) as [ | _]; [lia | ].
  assert (Hs : Prim2SF (of_uint63 (Uint63.of_Z z))
               = binary_round prec emax false (Z.to_pos z) 0).
  { rewrite FloatAxioms.of_uint63_spec, Uint63.of_Z_spec.
    rewrite Z.mod_small by (change wB with (2 ^ 63)%Z; lia).
    destruct z; try lia. reflexivity. }
  destruct (binary_round_bounds false (Z.to_pos z) 0 ml el mh eh)
    as (m & e & Hr & Hbr); eauto using FinPos_bounded; [lia | | ].
  { rewrite Z2Pos.id by lia. change (P 0) with (2 ^ K)%Z. exact Hb. }
  rewrite Hr in Hs.
  split; [now exists m, e | ].
  rewrite (val_FinPos _ _ _ Hs), (val_FinPos _ _ _ Hl), (val_FinPos _ _ _ Hh).
  exact Hbr.
Qed.

(** [Math.round] of a float between two bounds lies between the
    integers that enclose them. *)
Lemma round_between (lo hi x : float) (a b : Z) :
  between lo hi x ->
  (a * 2 ^ K <= val lo)%Z -> (val hi <= b * 2 ^ K)%Z ->
  exists p, JS.Math_round_Z x = Some p /\ (a <= p <= b)%Z.
Proof.
  intros [(m & e & Hx) Hb] Ha Hhi. pose proof K_eq.
  rewrite (val_FinPos _ _ _ Hx) in Hb.
  pose proof (bounded_range _ _ (FinPos_bounded _ _ _ Hx)) as (He & _).
  unfold JS.Math_round_Z. rewrite Hx. eexists; split; [reflexivity | ].
  unfold JS.round_half_up.
  assert (H2K : (0 < 2 ^ K)%Z) by (apply Z.pow_pos_nonneg; lia).
  destruct (Z.leb_spec 0 e) as [Hpos | Hneg].
  - assert (HP : P e = (2 ^ e * 2 ^ K)%Z) by (unfold P; apply Z.pow_add_r; lia).
    rewrite HP in Hb.
    assert (0 < 2 ^ e)%Z by (apply Z.pow_pos_nonneg; lia).
    nia.
  - assert (HP : (2 ^ K = 2 ^ (- e) * P e)%Z).
    { unfold P. rewrite <- Z.pow_add_r by lia. f_equal. lia. }
    rewrite HP in Ha, Hhi.
    pose proof (P_pos e ltac:(lia)) as HPe.
    assert (Hq : (0 < 2 ^ (- e))%Z) by (apply Z.pow_pos_nonneg; lia).
    assert (Hh : (2 * 2 ^ (- e - 1) = 2 ^ (- e))%Z).
    { rewrite <- Z.pow_succ_r by lia. f_equal. lia. }
    assert (Hh0 : (0 < 2 ^ (- e - 1))%Z) by (apply Z.pow_pos_nonneg; lia).
    split.
    + apply Z.div_le_lower_bound; [lia | ]. nia.
    + assert ((Z.pos m + 2 ^ (- e - 1)) / 2 ^ (- e) < b + 1)%Z; [ | lia].
      apply Z.div_lt_upper_bound; [lia | ]. nia.
Qed.

End Binary64Facts.

(** ** The contribution reward engine *)

Section RewardFacts.

Import Reward Props Binary64.

Local Open Scope float_scope.

(** Facts about float constants are decided by evaluation. *)
Ltac finpos := do 2 eexists; vm_compute; reflexivity.
Ltac closed := vm_compute; solve [ reflexivity | intro; discriminate ].
Ltac closed_between := split; [ finpos | split; closed ].

(** *** Base points *)

Lemma hasText_truthy (o : option string) : JS.truthy o = hasText o.
Proof. destruct o as [[ | c s] | ]; reflexivity. Qed.

Lemma SFcompare_refl (x : spec_float) :
  x <> S754_nan -> SFcompare x x = Some Eq.
Proof.
  destruct x as [s | s | | s m e]; intros H; try congruence;
    destruct s; cbn [SFcompare]; try reflexivity;
    rewrite Z.compare_refl, Pos.compare_cont_refl; reflexivity.
Qed.

(** A number that is not truthy is a zero or NaN. *)
Lemma falsy_number (d : float) :
  JS.truthy_number d = false ->
  (exists s, Prim2SF d = S754_zero s) \/ Prim2SF d = S754_nan.
Proof.
  unfold JS.truthy_number. intros H. apply negb_false_iff, orb_true_iff in H.
  destruct H as [H | H].
  - rewrite FloatAxioms.eqb_spec in H. change (Prim2SF 0) with (S754_zero false) in H.
    destruct (Prim2SF d) as [s | s | | s m e]; try discriminate;
      try (destruct s; discriminate).
    left. now exists s.
  - unfold PrimFloat.is_nan in H. rewrite FloatAxioms.eqb_spec in H.
    right. destruct (Prim2SF d) as [s | s | | s m e] eqn:E; try reflexivity;
      unfold SFeqb in H; rewrite SFcompare_refl in H by discriminate;
      discriminate.
Qed.

Lemma leb_quotient_falsy (c d : float) :
  FinPos c -> JS.truthy_number d = false -> (c <=? d / 60) = false.
Proof.
  intros (m & e & Hc) Hd.
  rewrite FloatAxioms.leb_spec, FloatAxioms.div_spec, Hc.
  change (Prim2SF 60) with (S754_finite false 8444249301319680 (-47)).
  destruct (falsy_number d Hd) as [[s ->] | ->]; reflexivity.
Qed.

Lemma durationPoints_formula (input : ProcessDeclarationInput) :
  durationPoints input = durationBonus (sessionDuration input).
Proof.
  unfold durationPoints, durationBonus.
  destruct (sessionDuration input) as [d | ]; [ | reflexivity].
  destruct (JS.truthy_number d) eqn:T; [reflexivity | ].
  rewrite !leb_quotient_falsy by (assumption || finpos). reflexivity.
Qed.

Lemma basePoints_formula (input : ProcessDeclarationInput) :
  basePoints input = basePointsFormula input.
Proof.
  unfold basePoints, basePointsFormula.
  rewrite durationPoints_formula.
  unfold lineagePoints, rejectionPoints, selectionPoints, tagPoints, tagCount.
  assert (Hsel :
    match selectedOutput input with
    | Some selected =>
        (10 + (if JS.truthy (so_likeReason selected) then 5 else 0)
         + (if JS.truthy (so_customFeedback selected) then 10 else 0))%Z
    | None => 0%Z
    end
    = match selectedOutput input with
      | Some selected =>
          (10 + (if hasText (so_likeReason selected) then 5 else 0)
           + (if hasText (so_customFeedback selected) then 10 else 0))%Z
      | None => 0%Z
      end).
  { destruct (selectedOutput input); [ | reflexivity]. now rewrite !hasText_truthy. }
  rewrite Hsel.
  destruct (expertiseTags input) as [tags | ].
  - destruct (Z.ltb_spec 0 (Z.of_nat (List.length tags))); lia.
  - lia.
Qed.

Lemma durationBonus_range (d : option float) : (0 <= durationBonus d <= 10)%Z.
Proof.
  unfold durationBonus. destruct d as [d | ]; [ | lia].
  cbv zeta. destruct (15 <=? d / 60); [lia | ].
  destruct (5 <=? d / 60); [lia | ]. destruct (2 <=? d / 60); lia.
Qed.

Lemma basePoints_range (input : ProcessDeclarationInput) :
  (10 <= basePoints input <= 101)%Z.
Proof.
  rewrite basePoints_formula. unfold basePointsFormula, tagCount.
  pose proof (durationBonus_range (sessionDuration input)).
  destruct (selectedOutput input) as [s | ];
    [ destruct (hasText (so_likeReason s)), (hasText (so_customFeedback s)) | ];
    destruct (expertiseTags input); lia.
Qed.

(** *** Multipliers *)

(** The quality multiplier of a taste score in [0,1]. *)
Lemma qualityMultiplier_between (t : float) :
  unitScore t -> between 0.5 1.5 (0.5 + t).
Proof.
  intros [H0 H1].
  destruct (leb_zero_between 1 t ltac:(finpos) H0 H1) as [[s Hz] | [Ft Hle]].
  - rewrite (add_zero_r 0.5 t s ltac:(finpos) Hz). closed_between.
  - pose proof (FinPos_val_pos _ Ft) as Hpos.
    apply (add_between 0.5 0.5 t 1).
    + closed_between.
    + split; [exact Ft | lia].
    + finpos.
    + finpos.
    + lia.
    + closed.
Qed.

Lemma qualityMultiplier_range (t : float) :
  unitScore t -> (0.5 <=? 0.5 + t) = true /\ (0.5 + t <=? 1.5) = true.
Proof.
  intros Ht. apply between_leb; [finpos | finpos | ].
  now apply qualityMultiplier_between.
Qed.

(** The rarity bonus is one of the values of the table. *)
Lemma rarityOf_between (p : string) :
  between 0.7 1.8 (rarityOf (mapPlatformToEnum p)).
Proof.
  destruct (mapPlatformToEnum_total p) as [[v [Hin ->]] | [[[E | E] ->] | ->]].
  - unfold platformMap in Hin. cbn [In] in Hin.
    repeat (destruct Hin as [Hin | Hin];
            [ injection Hin as _ <-; closed_between | ]).
    destruct Hin.
  - rewrite E. closed_between.
  - rewrite E. closed_between.
  - closed_between.
Qed.

(** The points of a contribution: the product is a finite float between
    3.25 and 273, and [Math.round] makes a positive integer of it. *)
Lemma points_between (base : Z) (t rb : float) :
  (10 <= base <= 101)%Z -> unitScore t -> between 0.7 1.8 rb ->
  between 3.25 273 (JS.Z2F base * (0.5 + t) * rb).
Proof.
  intros Hbase Ht Hrb.
  apply (mul_between 5 151.5 0.7 1.8);
    [ | exact Hrb | finpos | finpos | closed | closed | closed | closed ].
  apply (mul_between 10 101 0.5 1.5);
    [ | now apply qualityMultiplier_between
      | finpos | finpos | closed | closed | closed | closed ].
  apply Z2F_between; [ finpos | finpos | lia | ].
  replace (val 10) with (10 * 2 ^ K)%Z by closed.
  replace (val 101) with (101 * 2 ^ K)%Z by closed.
  pose proof K_eq.
  assert (0 < 2 ^ K)%Z by (apply Z.pow_pos_nonneg; lia). nia.
Qed.

Lemma points_positive (base : Z) (t rb : float) :
  (10 <= base <= 101)%Z -> unitScore t -> between 0.7 1.8 rb ->
  exists p, JS.Math_round_Z (JS.Z2F base * (0.5 + t) * rb) = Some p
            /\ (3 <= p <= 273)%Z.
Proof.
  intros Hbase Ht Hrb.
  apply (round_between 3.25 273); [now apply points_between | closed | closed].
Qed.

(** *** updateTasteScore *)

Lemma SFcompare_antisym (x y : spec_float) :
  SFcompare y x = option_map CompOpp (SFcompare x y).
Proof.
  destruct x as [sx | sx | | sx mx ex], y as [sy | sy | | sy my ey];
    try reflexivity;
    try (destruct sx; reflexivity); try (destruct sy; reflexivity);
    try (destruct sx, sy; reflexivity).
  cbn [SFcompare option_map]. f_equal.
  rewrite (Z.compare_antisym ex ey).
  destruct sx, sy; try reflexivity;
    destruct (ex ?= ey)%Z; cbn [CompOpp]; try reflexivity;
    rewrite ?CompOpp_involutive, Pos.compare_cont_antisym; reflexivity.
Qed.

Lemma is_nan_false (x : float) :
  PrimFloat.is_nan x = false <-> Prim2SF x <> S754_nan.
Proof.
  unfold PrimFloat.is_nan. rewrite FloatAxioms.eqb_spec. unfold SFeqb. split.
  - intros H E. rewrite E in H. discriminate.
  - intros H. now rewrite SFcompare_refl.
Qed.

(** Of two floats that are not NaN one is below the other. *)
Lemma ltb_false_leb (x y : float) :
  Prim2SF x <> S754_nan -> Prim2SF y <> S754_nan ->
  (x <? y) = false -> (y <=? x) = true.
Proof.
  intros Hx Hy. rewrite FloatAxioms.ltb_spec, FloatAxioms.leb_spec.
  unfold SFltb, SFleb. rewrite (SFcompare_antisym (Prim2SF x) (Prim2SF y)).
  destruct (SFcompare (Prim2SF x) (Prim2SF y)) as [[ | | ] | ] eqn:E;
    cbn; try congruence.
  destruct (Prim2SF x) as [? | ? | | ? ? ?], (Prim2SF y) as [? | ? | | ? ? ?];
    try congruence; discriminate.
Qed.

Lemma ltb_leb (x y : float) : (x <? y) = true -> (x <=? y) = true.
Proof.
  rewrite FloatAxioms.ltb_spec, FloatAxioms.leb_spec. unfold SFltb, SFleb.
  destruct (SFcompare (Prim2SF x) (Prim2SF y)) as [[ | | ] | ]; congruence.
Qed.

(** The clamp of a float that is not NaN lies in [0,1]. *)
Lemma clamp01_unit (x : float) :
  Prim2SF x <> S754_nan -> unitScore (clamp01 x).
Proof.
  intros Hx. assert (Hn : PrimFloat.is_nan x = false) by now apply is_nan_false.
  assert (H1 : Prim2SF 1 <> S754_nan) by (vm_compute; discriminate).
  assert (H0 : Prim2SF 0 <> S754_nan) by (vm_compute; discriminate).
  assert (Hm : Prim2SF (JS.Math_min 1 x) <> S754_nan
               /\ (JS.Math_min 1 x <=? 1) = true).
  { unfold JS.Math_min. change (PrimFloat.is_nan 1) with false. rewrite Hn.
    cbn [orb]. destruct (1 <? x) eqn:L1; [ split; [exact H1 | reflexivity] | ].
    destruct (x <? 1) eqn:L2; [ split; [exact Hx | now apply ltb_leb] | ].
    change (JS.is_neg_zero 1) with false. cbv iota.
    split; [exact Hx | now apply ltb_false_leb]. }
  destruct Hm as [Hmn Hm1]. set (m := JS.Math_min 1 x) in *.
  unfold clamp01. fold m. unfold JS.Math_max, unitScore.
  change (PrimFloat.is_nan 0) with false.
  rewrite (proj2 (is_nan_false m) Hmn). cbn [orb].
  destruct (0 <? m) eqn:L1; [ split; [now apply ltb_leb | exact Hm1] | ].
  destruct (m <? 0) eqn:L2; [ split; reflexivity | ].
  change (JS.is_neg_zero 0) with false. cbv iota. split; reflexivity.
Qed.

Lemma binary_round_aux_nonneg (mx : positive) (ex : Z) :
  (ex <= fexp64 (Z.pos (digits2_pos mx) + ex))%Z ->
  nonnegSF (binary_round_aux prec emax false (Z.pos mx) ex loc_Exact).
Proof.
  intros HE.
  destruct (binary_round_aux_shape false mx ex HE) as (m1 & _ & _ & _ & ->).
  destruct (m1 =? 0)%Z; [exact I | ].
  destruct (m1 =? 2 ^ 53)%Z.
  - destruct (fexp64 (Z.pos (digits2_pos mx) + ex) + 1 <=? 971)%Z; reflexivity.
  - destruct (fexp64 (Z.pos (digits2_pos mx) + ex) <=? 971)%Z; reflexivity.
Qed.

Lemma SFmul_nonneg (x y : spec_float) :
  valid_binary x = true -> valid_binary y = true ->
  nonnegSF x -> nonnegSF y ->
  (forall s, x <> S754_infinity s) -> (forall s, y <> S754_infinity s) ->
  nonnegSF (SF64mul x y).
Proof.
  intros Vx Vy Nx Ny Ix Iy. pose proof K_eq.
  destruct x as [sx | sx | | sx mx ex], y as [sy | sy | | sy my ey];
    cbn in Nx, Ny; try contradiction; try exact I;
    try (exfalso; eapply Ix; reflexivity); try (exfalso; eapply Iy; reflexivity).
  subst sx sy. unfold SF64mul, SFmul. cbn [xorb].
  cbn [valid_binary] in Vx, Vy.
  apply bounded_range in Vx as (Hex & Hdx & _ & Hnx).
  apply bounded_range in Vy as (Hey & Hdy & _ & Hny).
  pose proof (digits_mul mx my) as Hd.
  apply binary_round_aux_nonneg. unfold fexp64.
  destruct (Z.eq_dec ex (-1074)), (Z.eq_dec ey (-1074)); lia.
Qed.

Lemma SFadd_nonneg (x y : spec_float) :
  valid_binary x = true -> valid_binary y = true ->
  nonnegSF x -> nonnegSF y -> nonnegSF (SF64add x y).
Proof.
  intros Vx Vy Nx Ny. pose proof K_eq.
  destruct x as [sx | sx | | sx mx ex], y as [sy | sy | | sy my ey];
    cbn in Nx, Ny; try contradiction; subst;
    try exact I; try reflexivity;
    try (destruct sx, sy; exact I).
  unfold SF64add, SFadd. cbn [cond_Zopp].
  cbn [valid_binary] in Vx, Vy.
  apply bounded_range in Vx as (Hex & _). apply bounded_range in Vy as (Hey & _).
  rewrite <- Pos2Z.inj_add. cbn [binary_normalize]. unfold binary_round.
  rewrite fexp_eq.
  match goal with
  | |- context [shl_align ?m ?e ?E] =>
      destruct (shl_align_spec m e E ltac:(lia) ltac:(unfold fexp64; lia))
        as (_ & He & Hd);
      destruct (shl_align m e E) as [mz ez]; cbn [fst snd] in *
  end.
  apply binary_round_aux_nonneg. rewrite Hd. lia.
Qed.

(** The moving average of two scores in [0,1] is not NaN. *)
Lemma movingAverage_number (s a : float) :
  unitScore s -> unitScore a -> Prim2SF (movingAverage s a) <> S754_nan.
Proof.
  intros [Hs0 Hs1] [Ha0 Ha1].
  assert (Hnn : forall t c, (0 <=? t) = true -> (t <=? 1) = true -> FinPos c ->
                  nonnegSF (Prim2SF (t * c))).
  { intros t c H0 H1 (mc & ec & Hc). rewrite FloatAxioms.mul_spec.
    apply SFmul_nonneg; try apply Prim2SF_valid.
    - destruct (leb_zero_between 1 t ltac:(finpos) H0 H1) as [[z ->] | [(m & e & ->) _]];
        [exact I | reflexivity].
    - rewrite Hc. reflexivity.
    - destruct (leb_zero_between 1 t ltac:(finpos) H0 H1) as [[z ->] | [(m & e & ->) _]];
        discriminate.
    - rewrite Hc. discriminate. }
  unfold movingAverage. rewrite FloatAxioms.add_spec.
  pose proof (SFadd_nonneg (Prim2SF (s * 0.8)) (Prim2SF (a * 0.2))
                (Prim2SF_valid _) (Prim2SF_valid _)
                (Hnn s 0.8 Hs0 Hs1 ltac:(finpos))
                (Hnn a 0.2 Ha0 Ha1 ltac:(finpos))) as N.
  intros E. rewrite E in N. exact N.
Qed.

Lemma findContributor_update (table : list Contributor) (anon : string)
  (c : Contributor) (f : Contributor -> Contributor) :
  (forall x, c_anonymousId (f x) = c_anonymousId x) ->
  NoDup (map c_id table) ->
  findContributor table anon = Some c ->
  findContributor (updateContributor table (c_id c) f) anon = Some (f c).
Proof.
  intros Hf. unfold findContributor.
  induction table as [ | x r IH]; intros Hnd Hfind; [discriminate | ].
  cbn [find updateContributor map] in *. inversion Hnd as [ | ? ? Hnotin Hnd']; subst.
  destruct (String.eqb (c_anonymousId x) anon) eqn:Ex.
  - injection Hfind as <-. rewrite String.eqb_refl. cbn [find].
    now rewrite Hf, Ex.
  - destruct (String.eqb_spec (c_id x) (c_id c)) as [Eid | Nid].
    + exfalso. apply Hnotin. rewrite Eid.
      apply find_some in Hfind as [Hin _]. now apply in_map.
    + cbn [find]. rewrite Ex. now apply IH.
Qed.

Lemma updateContributor_length (table : list Contributor) (id : string)
  (f : Contributor -> Contributor) :
  List.length (updateContributor table id f) = List.length table.
Proof.
  induction table as [ | x r IH]; [reflexivity | ].
  cbn [updateContributor]. destruct (String.eqb (c_id x) id); cbn [List.length];
    congruence.
Qed.

(** C5, at the score 0.1 with the alignment 0.1: the score that comes
    back and is stored is 0.10000000000000002, not 0.1, although the
    alignment equals the score. *)
Lemma updateTasteScore_moves_at_equal_score :
  c_tasteScore tenthContributor = 0.1
  /\ updateTasteScore noFaults [tenthContributor] "anon-1" 0.1
     = (Some 0.10000000000000002,
        [withTasteScore 0.10000000000000002 tenthContributor])
  /\ 0.10000000000000002 <> 0.1.
Proof.
  split; [reflexivity | ]. split; [vm_compute; reflexivity | ].
  intros E. apply (f_equal Prim2SF) in E. vm_compute in E. discriminate E.
Qed.

(** C5, as the code has it.  For a contributor of score [s] and an
    alignment [a], [updateTasteScore] returns the clamp to [0,1] of
    [s * 0.8 + a * 0.2] in binary64 arithmetic, and stores it as the taste
    score of that contributor, the rest of the row unchanged; the result
    lies in [0,1] when [s] and [a] do.  For an unknown id it returns 0.5
    and the table is unchanged. *)
Theorem updateTasteScore_average (table : list Contributor)
  (contributorId : string) (a : float)
  (Hids : NoDup (map c_id table)) :
  match findContributor table contributorId with
  | Some c =>
      let s := c_tasteScore c in
      let r := clamp01 (movingAverage s a) in
      let table' := snd (updateTasteScore noFaults table contributorId a) in
      fst (updateTasteScore noFaults table contributorId a) = Some r
      /\ findContributor table' contributorId = Some (withTasteScore r c)
      /\ List.length table' = List.length table
      /\ (unitScore s -> unitScore a -> unitScore r)
  | None =>
      updateTasteScore noFaults table contributorId a = (Some 0.5, table)
  end.
Proof.
  unfold updateTasteScore, noFaults. cbn [fail_findUnique fail_update].
  destruct (findContributor table contributorId) as [c | ] eqn:Hfind;
    [ | reflexivity].
  cbv zeta. cbn [fst snd].
  change (1 - 0.2) with 0.8.
  fold (movingAverage (c_tasteScore c) a).
  fold (clamp01 (movingAverage (c_tasteScore c) a)).
  fold (withTasteScore (clamp01 (movingAverage (c_tasteScore c) a))).
  split; [reflexivity | split; [ | split]].
  - now apply findContributor_update.
  - apply updateContributor_length.
  - intros Hs Ha. apply clamp01_unit. now apply movingAverage_number.
Qed.

(** *** calculateContributionReward *)

Section Engine.

Variable Date_getTime : string -> option Z.
Variable newContributorId : string.

(** Unless a Prisma call rejects, the engine returns the reward made of
    the rounded product. *)
Lemma reward_outcome (flt : Faults) (table : list Contributor)
  (contributorId pdId : string) (input : ProcessDeclarationInput) (p : Z) :
  let c := contributorFor table newContributorId contributorId input in
  let qm := 0.5 + c_tasteScore c in
  let rb := rarityOf (mapPlatformToEnum (platform input)) in
  let total := (c_totalPoints c + p)%Z in
  JS.Math_round_Z (JS.Z2F (basePoints input) * qm * rb) = Some p ->
  fst (calculateContributionReward Date_getTime newContributorId flt
         table contributorId pdId input)
  = if engineRejects Date_getTime flt table contributorId input then None
    else Some (mkReward p total
                 (if negb (tier_eqb (calculateTier total) (c_currentTier c))
                  then Some (c_currentTier c, calculateTier total) else None)
                 qm rb).
Proof.
  intros c qm rb total Hround.
  unfold calculateContributionReward, engineRejects, consentDateRejected.
  destruct (fail_findUnique flt); [reflexivity | ]. cbn [orb].
  unfold c, contributorFor, freshContributor in *.
  destruct (findContributor table contributorId) as [c0 | ];
    [ | destruct (fail_create flt); [reflexivity | ] ];
    cbv zeta in *; cbn [c_tasteScore c_totalPoints c_currentTier c_id orb] in *;
    unfold qm, rb in Hround; rewrite Hround;
    destruct (fail_update flt); cbn [orb]; try reflexivity;
    destruct (consentTimestamp input) as [s | ]; try reflexivity;
    destruct (JS.truthy_string s); try reflexivity;
    destruct (Date_getTime s); reflexivity.
Qed.

(** C1.  For every input and every contributor whose taste score lies
    in [0,1] (the row of the anonymous id, or the one created for a new
    id), the base points are 10, plus min(2 x lineage, 20), plus
    min(3 x rejections, 30), plus for a selection 10 and 5 for a
    like-reason and 10 for a feedback, plus the duration bonus, plus
    min(2 x tags, 6); unless a database call rejects, the engine returns
    a reward whose points are [Math.round] of base points x quality
    multiplier x rarity bonus, with the quality multiplier 0.5 + taste
    score.  On the worked example of the specification the base points
    are 56 and the points earned 56. *)
Theorem reward_points_formula :
  (forall (flt : Faults) (table : list Contributor) (contributorId pdId : string)
          (input : ProcessDeclarationInput),
      let c := contributorFor table newContributorId contributorId input in
      let result := fst (calculateContributionReward Date_getTime newContributorId
                           flt table contributorId pdId input) in
      unitScore (c_tasteScore c) ->
      basePoints input = basePointsFormula input
      /\ (engineRejects Date_getTime flt table contributorId input = false ->
          result <> None)
      /\ forall reward, result = Some reward ->
          qualityMultiplier reward = 0.5 + c_tasteScore c
          /\ rarityBonus reward = rarityOf (mapPlatformToEnum (platform input))
          /\ JS.Math_round_Z (JS.Z2F (basePointsFormula input)
                              * qualityMultiplier reward * rarityBonus reward)
             = Some (pointsEarned reward)
          /\ newTotal reward = (c_totalPoints c + pointsEarned reward)%Z)
  /\ basePointsFormula exampleInput = 56%Z
  /\ basePoints exampleInput = 56%Z
  /\ JS.Math_round_Z (JS.Z2F 56 * (0.5 + 0.5) * 1.0) = Some 56%Z
  /\ (consentDateRejected Date_getTime exampleInput = false ->
      fst (calculateContributionReward Date_getTime newContributorId noFaults
             [exampleContributor] "anon-1" "pd-1" exampleInput)
      = Some (mkReward 56 176 None 1 1)
      /\ fst (calculateContributionReward Date_getTime newContributorId noFaults
                [] "anon-1" "pd-1" exampleInput)
         = Some (mkReward 56 56 None 1 1)).
Proof.
  split; [ | split; [ | split; [ | split]]].
  - intros flt table contributorId pdId input c result Hscore.
    split; [apply basePoints_formula | ].
    destruct (points_positive (basePoints input) (c_tasteScore c)
                (rarityOf (mapPlatformToEnum (platform input)))
                (basePoints_range input) Hscore (rarityOf_between _))
      as (p & Hround & _).
    pose proof (reward_outcome flt table contributorId pdId input p Hround) as Hout.
    fold c result in Hout. cbv zeta in Hout.
    split.
    + intros Hok. rewrite Hout, Hok. discriminate.
    + intros reward Hr. rewrite Hout in Hr.
      destruct (engineRejects Date_getTime flt table contributorId input);
        [discriminate | ].
      injection Hr as <-.
      cbn [qualityMultiplier rarityBonus pointsEarned newTotal].
      rewrite <- basePoints_formula. auto.
  - vm_compute. reflexivity.
  - vm_compute. reflexivity.
  - vm_compute. reflexivity.
  - intros Hdate. split.
    + rewrite (reward_outcome noFaults [exampleContributor] "anon-1" "pd-1"
                 exampleInput 56).
      * unfold engineRejects. rewrite Hdate. reflexivity.
      * vm_compute. reflexivity.
    + rewrite (reward_outcome noFaults [] "anon-1" "pd-1" exampleInput 56).
      * unfold engineRejects. rewrite Hdate. reflexivity.
      * vm_compute. reflexivity.
Qed.

(** C7.  For a contributor whose taste score lies in [0,1] and whose
    tier is the one of its total points, every reward that the engine
    returns has a quality multiplier in [0.5, 1.5], strictly positive
    points, a new total strictly above the old one, and a tier that is
    not lower than the old one (a tier change, when reported, goes
    upwards); and the engine does return a reward unless a database
    call rejects. *)
Theorem reward_monotone (flt : Faults) (table : list Contributor)
  (contributorId pdId : string) (input : ProcessDeclarationInput)
  (Hscore : unitScore (c_tasteScore
               (contributorFor table newContributorId contributorId input)))
  (Htier : c_currentTier (contributorFor table newContributorId contributorId input)
           = calculateTier (c_totalPoints
               (contributorFor table newContributorId contributorId input))) :
  let c := contributorFor table newContributorId contributorId input in
  let result := fst (calculateContributionReward Date_getTime newContributorId
                       flt table contributorId pdId input) in
  (engineRejects Date_getTime flt table contributorId input = false ->
   result <> None)
  /\ forall reward, result = Some reward ->
      (0.5 <=? qualityMultiplier reward) = true
      /\ (qualityMultiplier reward <=? 1.5) = true
      /\ (0 < pointsEarned reward)%Z
      /\ (c_totalPoints c < newTotal reward)%Z
      /\ tier_le (c_currentTier c) (calculateTier (newTotal reward))
      /\ (tierChange reward = None
          \/ exists to, tierChange reward = Some (c_currentTier c, to)
                        /\ to = calculateTier (newTotal reward)
                        /\ (tier_rank (c_currentTier c) < tier_rank to)%Z).
Proof.
  intros c result.
  destruct (points_positive (basePoints input) (c_tasteScore c)
              (rarityOf (mapPlatformToEnum (platform input)))
              (basePoints_range input) Hscore (rarityOf_between _))
    as (p & Hround & Hp).
  pose proof (reward_outcome flt table contributorId pdId input p Hround) as Hout.
  fold c result in Hout. cbv zeta in Hout.
  split; [ intros Hok; rewrite Hout, Hok; discriminate | ].
  intros reward Hr. rewrite Hout in Hr.
  destruct (engineRejects Date_getTime flt table contributorId input);
    [discriminate | ].
  injection Hr as <-.
  cbn [qualityMultiplier rarityBonus pointsEarned newTotal tierChange].
  destruct (qualityMultiplier_range _ Hscore) as [Hlo Hhi].
  assert (Hmono : tier_le (c_currentTier c) (calculateTier (c_totalPoints c + p))).
  { fold c in Htier. rewrite Htier. apply calculateTier_monotone. lia. }
  split; [exact Hlo | ]. split; [exact Hhi | ].
  split; [lia | ]. split; [lia | ]. split; [exact Hmono | ].
  destruct (tier_eqb (calculateTier (c_totalPoints c + p)) (c_currentTier c)) eqn:Eq;
    cbn [negb]; [now left | right].
  eexists. split; [reflexivity | ]. split; [reflexivity | ].
  unfold tier_le in Hmono.
  destruct (calculateTier (c_totalPoints c + p)), (c_currentTier c);
    cbn in *; try discriminate; lia.
Qed.

End Engine.

End RewardFacts.

(** ** The ingestion endpoint *)

Section RouteFacts.

Import Reward Route Props.

Variable Date_getTime : string -> option Z.

(** The response and the store once the record is persisted. *)
Lemma POST_persisted (env : Env) (st : Store) (input : ProcessDeclarationInput)
  (pd : ProcessDeclaration) :
  valid (validateProcessInput Date_getTime input) = true ->
  createProcessDeclaration Date_getTime env input
    (mapPlatformToEnum (platform input)) (sessionDurationOf Date_getTime input)
  = inr pd ->
  POST Date_getTime env st (Some input)
  = if JS.truthy (contributorId input) && consentForTrainingData input
    then
      let r := calculateContributionReward Date_getTime (newContributorId env)
                 (rewardFaults env) (contributors st)
                 (JS.str (contributorId input)) (pd_id pd) input in
      (mkResponse 201 true (Some (pd_id pd)) (fst r) None,
       mkStore (processDeclarations st ++ [pd]) (snd r))
    else
      (mkResponse 201 true (Some (pd_id pd)) None None,
       mkStore (processDeclarations st ++ [pd]) (contributors st)).
Proof.
  intros Hvalid Hcreate. unfold POST. rewrite Hvalid. cbn [negb].
  cbv zeta. rewrite Hcreate. cbn [contributors processDeclarations].
  destruct (JS.truthy (contributorId input) && consentForTrainingData input);
    [ | reflexivity].
  destruct (calculateContributionReward _ _ _ _ _ _ _) as [r table].
  reflexivity.
Qed.

(** C9.  Once the ProcessDeclaration record is persisted, a reward
    computation that fails does not fail the request and does not remove
    the record: the response is 201 with [success: true], the id of the
    record and no reward, and the record is in the store. *)
Theorem POST_swallows_reward_failure (env : Env) (st : Store)
  (input : ProcessDeclarationInput) (pd : ProcessDeclaration)
  (Hvalid : valid (validateProcessInput Date_getTime input) = true)
  (Hcreate : createProcessDeclaration Date_getTime env input
               (mapPlatformToEnum (platform input))
               (sessionDurationOf Date_getTime input) = inr pd)
  (Hfails : fst (calculateContributionReward Date_getTime (newContributorId env)
                   (rewardFaults env) (contributors st)
                   (JS.str (contributorId input)) (pd_id pd) input) = None) :
  fst (POST Date_getTime env st (Some input))
  = mkResponse 201 true (Some (pd_id pd)) None None
  /\ processDeclarations (snd (POST Date_getTime env st (Some input)))
     = processDeclarations st ++ [pd].
Proof.
  rewrite (POST_persisted env st input pd Hvalid Hcreate).
  destruct (JS.truthy (contributorId input) && consentForTrainingData input);
    cbv zeta; cbn [fst snd processDeclarations]; [rewrite Hfails | ];
    split; reflexivity.
Qed.

(** C10.  Once the record is persisted the submission succeeds; the
    reward is computed, and the contributor table touched, only when the
    contributor id is present and the consent is given: without one of
    them the response has no reward and the contributor table is the one
    before the request. *)
Theorem POST_reward_only_with_consent (env : Env) (st : Store)
  (input : ProcessDeclarationInput) (pd : ProcessDeclaration)
  (Hvalid : valid (validateProcessInput Date_getTime input) = true)
  (Hcreate : createProcessDeclaration Date_getTime env input
               (mapPlatformToEnum (platform input))
               (sessionDurationOf Date_getTime input) = inr pd) :
  let response := fst (POST Date_getTime env st (Some input)) in
  let st' := snd (POST Date_getTime env st (Some input)) in
  let eligible := JS.truthy (contributorId input) && consentForTrainingData input in
  status response = 201 /\ success response = true
  /\ id response = Some (pd_id pd)
  /\ processDeclarations st' = processDeclarations st ++ [pd]
  /\ (eligible = false -> reward response = None /\ contributors st' = contributors st)
  /\ (reward response <> None ->
      JS.truthy (contributorId input) = true /\ consentForTrainingData input = true)
  /\ (contributors st' <> contributors st ->
      JS.truthy (contributorId input) = true /\ consentForTrainingData input = true)
  /\ (eligible = true ->
      reward response
      = fst (calculateContributionReward Date_getTime (newContributorId env)
               (rewardFaults env) (contributors st)
               (JS.str (contributorId input)) (pd_id pd) input)).
Proof.
  cbv zeta. rewrite (POST_persisted env st input pd Hvalid Hcreate).
  destruct (JS.truthy (contributorId input)), (consentForTrainingData input);
    cbv zeta; cbn [andb fst snd status success id reward contributors processDeclarations];
    repeat split; try congruence.
Qed.

End RouteFacts.

(** ** The properties at concrete inputs *)

Section Instances.

Import Reward Route Props LedgerProps.

Local Open Scope float_scope.

(** The JavaScript primitives on a few values. *)
Example trim_example : JS.trim "  a b	 " = "a b".
Proof. reflexivity. Qed.

Example trim_blank : JS.blank (Some "   ") = true /\ JS.blank None = true.
Proof. split; reflexivity. Qed.

Example toLowerCase_example : JS.toLowerCase "Stable-Diffusion" = "stable-diffusion".
Proof. reflexivity. Qed.

Example Math_round_examples :
  JS.Math_round_Z 2.5 = Some 3%Z /\ JS.Math_round_Z (-2.5) = Some (-2)%Z
  /\ JS.Math_round_Z 0.49999999999999994 = Some 0%Z
  /\ JS.Math_round_Z 3.5 = Some 4%Z /\ JS.Math_round_Z 600.4 = Some 600%Z
  /\ JS.Math_round_Z nan = None /\ JS.Math_round_Z infinity = None.
Proof. repeat split; vm_compute; reflexivity. Qed.

Example mapPlatformToEnum_examples :
  mapPlatformToEnum "MidJourney" = JS.VString "MIDJOURNEY"
  /\ mapPlatformToEnum "stable-diffusion" = JS.VString "STABLE_DIFFUSION"
  /\ mapPlatformToEnum "sora" = JS.VString "UNKNOWN"
  /\ rarityOf (mapPlatformToEnum "higgsfield") = 1.8
  /\ rarityOf (mapPlatformToEnum "sora") = 1.0.
Proof. repeat split; reflexivity. Qed.

(** The two example calls on the example ledger: the first revision is
    stored with an absent intent and comes first, being the oldest; the
    second call finds no declaration and changes nothing. *)
Example applyRevisions_example :
  option_map (fun v => option_map
                (fun d => map (fun r => (Ledger.rev_id r, Ledger.rev_intent r,
                                         Ledger.rev_changeNote r))
                              (Ledger.dv_revisions d))
                (Ledger.wv_declaration v))
             (Ledger.getWork (applyRevisions exampleDB exampleCalls) "w1")
  = Some (Some [("r2", None, "used a synthesiser");
                ("r1", None, "Added the singer")]).
Proof. reflexivity. Qed.

(** SHA-256 on the test vectors of FIPS 180-4: the empty message, "abc",
    and a message of two blocks. *)
Example sha256_empty :
  Ledger.computeSha256 []
  = "e3b0c44298fc1c149afbf4c8996fb92427ae41e4649b934ca495991b7852b855".
Proof. vm_compute. reflexivity. Qed.

Example sha256_abc :
  Ledger.computeSha256 [Byte.x61; Byte.x62; Byte.x63]
  = "ba7816bf8f01cfea414140de5dae2223b00361a396177a9cb410ff61f20015ad".
Proof. vm_compute. reflexivity. Qed.

Example sha256_two_blocks :
  Ledger.computeSha256 (repeat Byte.x61 100)
  = "2816597888e4a0d3a36b82b83316ab32680eb8f00f8cd3b904d681246d285a0e".
Proof. vm_compute. reflexivity. Qed.

(** The revisions of the example ledger after the two example calls. *)
Lemma getWork_after_revisions_witness :
  Ledger.getWork exampleDB "w1" = Some exampleView
  /\ exists dview',
      Ledger.getWork (applyRevisions exampleDB exampleCalls) "w1"
        = Some (Ledger.mkWorkView exampleWork (Some dview'))
      /\ Ledger.dv_declaration dview' = exampleDeclaration
      /\ In exampleRevision (Ledger.dv_revisions dview')
      /\ oldestFirst (Ledger.dv_revisions dview').
Proof.
  split; [reflexivity | ].
  destruct (getWork_after_revisions exampleDB "w1" exampleView
              exampleDeclarationView exampleCalls eq_refl eq_refl)
    as (dview' & Hget & Hdecl & _ & _ & _ & _ & _ & _ & Hin & Hsorted).
  exists dview'. repeat split; try assumption.
  apply Hin. left. reflexivity.
Defined.

(** The moving average at the score 0.1 and the alignment 0.1. *)
Lemma updateTasteScore_average_witness :
  NoDup (map c_id [tenthContributor])
  /\ fst (updateTasteScore noFaults [tenthContributor] "anon-1" 0.1)
     = Some (clamp01 (movingAverage 0.1 0.1)).
Proof.
  assert (H : NoDup (map c_id [tenthContributor])).
  { simpl. constructor; [simpl; tauto | constructor]. }
  split; [exact H | ].
  exact (proj1 (updateTasteScore_average [tenthContributor] "anon-1" 0.1 H)).
Defined.

(** The reward of the worked example for a curator of 120 points. *)
Lemma reward_monotone_witness :
  unitScore (c_tasteScore exampleContributor)
  /\ c_currentTier exampleContributor
     = calculateTier (c_totalPoints exampleContributor)
  /\ exists reward,
      fst (calculateContributionReward exampleDate "c-new" noFaults
             [exampleContributor] "anon-1" "pd-1" exampleInput) = Some reward
      /\ (0 < pointsEarned reward)%Z
      /\ (c_totalPoints exampleContributor < newTotal reward)%Z.
Proof.
  assert (H1 : unitScore (c_tasteScore exampleContributor))
    by (split; reflexivity).
  assert (H2 : c_currentTier exampleContributor
               = calculateTier (c_totalPoints exampleContributor))
    by reflexivity.
  split; [exact H1 | split; [exact H2 | ]].
  destruct (reward_monotone exampleDate "c-new" noFaults [exampleContributor]
              "anon-1" "pd-1" exampleInput H1 H2) as [Hsome Hall].
  destruct (fst (calculateContributionReward exampleDate "c-new" noFaults
                   [exampleContributor] "anon-1" "pd-1" exampleInput))
    as [reward | ].
  - exists reward. destruct (Hall reward eq_refl) as (_ & _ & Hp & Ht & _).
    repeat split; assumption.
  - exfalso. apply Hsome; reflexivity.
Defined.

(** The worked example through the endpoint when the update of the
    contributor rejects. *)
Lemma POST_swallows_reward_failure_witness :
  fst (POST exampleDate failingEnv emptyStore (Some exampleInput))
  = mkResponse 201 true (Some "pd-1") None None
  /\ processDeclarations (snd (POST exampleDate failingEnv emptyStore (Some exampleInput)))
     = [exampleRow].
Proof.
  apply (POST_swallows_reward_failure exampleDate failingEnv emptyStore
           exampleInput exampleRow).
  - vm_compute. reflexivity.
  - vm_compute. reflexivity.
  - vm_compute. reflexivity.
Defined.

(** The worked example without a contributor id. *)
Lemma POST_reward_only_with_consent_witness :
  status (fst (POST exampleDate healthyEnv emptyStore (Some anonymousInput))) = 201%Z
  /\ reward (fst (POST exampleDate healthyEnv emptyStore (Some anonymousInput))) = None
  /\ contributors (snd (POST exampleDate healthyEnv emptyStore (Some anonymousInput)))
     = [].
Proof.
  assert (H1 : valid (validateProcessInput exampleDate anonymousInput) = true)
    by (vm_compute; reflexivity).
  assert (H2 : createProcessDeclaration exampleDate healthyEnv anonymousInput
                 (mapPlatformToEnum (platform anonymousInput))
                 (sessionDurationOf exampleDate anonymousInput) = inr anonymousRow)
    by (vm_compute; reflexivity).
  destruct (POST_reward_only_with_consent exampleDate healthyEnv emptyStore anonymousInput
              anonymousRow H1 H2) as (Hs & _ & _ & _ & Hwithout & _).
  destruct (Hwithout eq_refl) as [Hr Hc].
  repeat split; assumption.
Defined.

(** C6, through the endpoint: a submission whose platform is the string
    "constructor" passes the validation, the platform maps to a built-in
    object instead of an enum value, the record is not created, and the
    request ends in a 500. *)
Example POST_constructor_platform :
  fst (POST exampleDate healthyEnv emptyStore
         (Some (mkInput "constructor" "2024-01-01T00:00:00Z" None None 0
                  [] [] None false None None None None)))
  = failure 500 (Some "Failed to create process declaration").
Proof. vm_compute. reflexivity. Qed.

End Instances.

(** ** The ledger as a whole *)

Section LedgerIntegrity.

Import Ledger Props LedgerProps.

(** *** Lists with a row added at the end *)

Lemma NoDup_snoc {A} (l : list A) (x : A) :
  NoDup l -> ~ In x l -> NoDup (l ++ [x]).
Proof.
  intros Hnd Hx. induction Hnd as [ | y r Hy Hr IH]; cbn.
  - constructor; [intros [] | constructor].
  - constructor.
    + intros Hin. apply in_app_or in Hin as [Hin | [Hin | []]]; [contradiction | ].
      subst. apply Hx. now left.
    + apply IH. intros Hin. apply Hx. now right.
Qed.

Lemma find_snoc_old {A} (f : A -> bool) (l : list A) (x a : A) :
  find f l = Some a -> find f (l ++ [x]) = Some a.
Proof.
  induction l as [ | y r IH]; cbn; [discriminate | ].
  destruct (f y); [trivial | exact IH].
Qed.

Lemma find_snoc_new {A} (f : A -> bool) (l : list A) (x : A) :
  find f l = None -> find f (l ++ [x]) = if f x then Some x else None.
Proof.
  induction l as [ | y r IH]; cbn; [reflexivity | ].
  destruct (f y); [discriminate | exact IH].
Qed.


Lemma find_some_key {A} (key : A -> string) (l : list A) (k : string) :
  In k (map key l) -> find (fun a => String.eqb (key a) k) l <> None.
Proof.
  intros Hk E. apply in_map_iff in Hk as (a & Ha & Hin).
  apply (find_none _ _ E) in Hin. cbv beta in Hin.
  rewrite Ha, String.eqb_refl in Hin. discriminate.
Qed.



(** *** What createWork writes *)

Lemma createAudioRefs_declarationId (g : WorkGen) (data : list (string * string))
  (i : nat) (a : AudioReference) :
  In a (createAudioRefs g i data) ->
  audio_declarationId a = gen_declarationId g /\ audio_createdAt a = gen_now g.
Proof.
  revert i. induction data as [ | [n h] r IH]; intros i; cbn; [intros [] | ].
  intros [<- | Hin]; [split; reflexivity | exact (IH _ Hin)].
Qed.

(** The database after [createWork]: the one before, or the one with the
    new work, its declaration and its audio references. *)
Lemma createWork_written (g : WorkGen) (db : DB) (formData : WorkForm) :
  let aiUsed := match wf_aiUsed formData with
                | Some v => String.eqb v "true" | None => false end in
  createWork g db formData
  = if JS.blank (wf_title formData) then (ActionError "Work title is required", db)
    else if JS.blank (wf_intent formData)
    then (ActionError "Intent statement is required", db)
    else if JS.blank (wf_tools formData)
    then (ActionError "Tools used is required", db)
    else
      (ActionRedirect ("/work/" ++ gen_workId g),
       mkDB (works db
             ++ [mkWork (gen_workId g) (JS.trim (JS.str (wf_title formData))) (gen_now g)])
            (declarations db
             ++ [mkDeclaration (gen_declarationId g) (gen_workId g) (gen_now g)
                   (JS.trim (JS.str (wf_intent formData)))
                   (JS.trim (JS.str (wf_tools formData)))
                   aiUsed (JS.trim_or_null (wf_contributors formData))])
            (revisions db)
            (audioRefs db
             ++ createAudioRefs g 0 (audioRefData (wf_audioFiles formData)))).
Proof. reflexivity. Qed.

Lemma wellFormed_createWork (g : WorkGen) (db : DB) (formData : WorkForm) :
  wellFormed db -> freshIds g db -> wellFormed (snd (createWork g db formData)).
Proof.
  intros (Hw & Hd & Hdw & Hwd & Hdx & Hr & Ha) [Fw Fd].
  rewrite createWork_written. cbv zeta.
  destruct (JS.blank (wf_title formData));
    [ cbn [snd]; unfold wellFormed; auto 10 | ].
  destruct (JS.blank (wf_intent formData));
    [ cbn [snd]; unfold wellFormed; auto 10 | ].
  destruct (JS.blank (wf_tools formData));
    [ cbn [snd]; unfold wellFormed; auto 10 | ].
  cbn [snd]. unfold wellFormed.
  cbn [works declarations revisions audioRefs].
  rewrite !map_app. cbn [map work_id decl_id decl_workId].
  assert (Fdw : ~ In (gen_workId g) (map decl_workId (declarations db))).
  { intros Hin. apply in_map_iff in Hin as (d & Hk & Hin).
    destruct (Hdx d Hin) as (w & Hin' & Hk'). apply Fw.
    rewrite <- Hk, <- Hk'. now apply in_map. }
  split; [now apply NoDup_snoc | ].
  split; [now apply NoDup_snoc | ].
  split; [now apply NoDup_snoc | ].
  split; [ | split; [ | split]].
  - intros w Hin. apply in_app_or in Hin as [Hin | [<- | []]].
    + destruct (Hwd w Hin) as (d & Hd' & Hk). exists d.
      split; [apply in_or_app; now left | exact Hk].
    + eexists. split; [apply in_or_app; right; left; reflexivity | reflexivity].
  - intros d Hin. apply in_app_or in Hin as [Hin | [<- | []]].
    + destruct (Hdx d Hin) as (w & Hw' & Hk). exists w.
      split; [apply in_or_app; now left | exact Hk].
    + eexists. split; [apply in_or_app; right; left; reflexivity | reflexivity].
  - intros r Hin. destruct (Hr r Hin) as (d & Hd' & Hk). exists d.
    split; [apply in_or_app; now left | exact Hk].
  - intros a Hin. apply in_app_or in Hin as [Hin | Hin].
    + destruct (Ha a Hin) as (d & Hd' & Hk). exists d.
      split; [apply in_or_app; now left | exact Hk].
    + apply createAudioRefs_declarationId in Hin as [Hk _].
      eexists. split; [apply in_or_app; right; left; reflexivity | ].
      now rewrite Hk.
Qed.

Lemma wellFormed_createRevision (g : RevisionGen) (db : DB) (formData : RevisionForm) :
  wellFormed db -> wellFormed (snd (createRevision g db formData)).
Proof.
  intros WF.
  destruct (createRevision_outcome g db formData)
    as [ | | | d r _ _ Hfind _ Hrd _ _ _ _ _]; cbn [snd]; try exact WF.
  destruct WF as (Hw & Hd & Hdw & Hwd & Hdx & Hr & Ha).
  unfold wellFormed. cbn [works declarations revisions audioRefs].
  repeat (split; [assumption | ]). split; [ | assumption].
  intros x Hin. apply in_app_or in Hin as [Hin | [<- | []]]; [now apply Hr | ].
  apply findDeclaration_id in Hfind as [_ Hin]. exists d. split; [exact Hin | ].
  now rewrite Hrd.
Qed.

Lemma wellFormed_empty : wellFormed emptyDB.
Proof.
  unfold wellFormed, emptyDB. cbn.
  repeat split; try constructor; intros ? [].
Qed.

Lemma reachable_wellFormed (db : DB) : reachable db -> wellFormed db.
Proof.
  induction 1 as [ | g db f _ IH Hfresh | g db f _ IH].
  - exact wellFormed_empty.
  - now apply wellFormed_createWork.
  - now apply wellFormed_createRevision.
Qed.

(** In a well-formed ledger [getWork] finds the declaration of every work
    it finds. *)
Lemma getWork_declaration (db : DB) (id : string) (view : WorkView) :
  wellFormed db -> getWork db id = Some view ->
  work_id (wv_work view) = id
  /\ In (wv_work view) (works db)
  /\ exists d, In d (declarations db) /\ decl_workId d = id
               /\ wv_declaration view = Some (includeDeclaration db d).
Proof.
  intros (_ & _ & _ & Hwd & _) Hget. unfold getWork in Hget.
  destruct (find _ (works db)) as [w | ] eqn:Ew; [ | discriminate].
  injection Hget as <-. cbn [wv_work wv_declaration].
  apply find_some in Ew as [Hin Hk]. apply String.eqb_eq in Hk.
  split; [exact Hk | ]. split; [exact Hin | ].
  destruct (find _ (declarations db)) as [d | ] eqn:Ed.
  - apply find_some in Ed as [Hd Hkd]. apply String.eqb_eq in Hkd.
    exists d. repeat split; [exact Hd | congruence].
  - exfalso. destruct (Hwd w Hin) as (d & Hd & Hkd).
    apply (find_none _ _ Ed) in Hd. cbv beta in Hd.
    rewrite Hkd, String.eqb_refl in Hd. discriminate.
Qed.

(** X1.  In every ledger that [createWork] and [createRevision] build from
    the empty one, with identifiers that are new each time a work is
    created, the identifiers of the works and of the declarations are
    keys, every work has exactly one declaration, every revision and
    every audio reference belongs to a declaration of the ledger, and
    [getWork] never returns a work without its declaration. *)
Theorem ledger_integrity (db : DB) (Hreach : reachable db) :
  wellFormed db
  /\ forall id view, getWork db id = Some view ->
       work_id (wv_work view) = id
       /\ exists dview,
            wv_declaration view = Some dview
            /\ decl_workId (dv_declaration dview) = id
            /\ (forall r, In r (dv_revisions dview) ->
                          rev_declarationId r = decl_id (dv_declaration dview))
            /\ (forall a, In a (dv_audioRefs dview) ->
                          audio_declarationId a = decl_id (dv_declaration dview)).
Proof.
  pose proof (reachable_wellFormed db Hreach) as WF.
  split; [exact WF | ].
  intros id view Hget.
  destruct (getWork_declaration db id view WF Hget) as (Hid & _ & d & _ & Hk & Hview).
  split; [exact Hid | ].
  exists (includeDeclaration db d). split; [exact Hview | ].
  unfold includeDeclaration. cbn [dv_declaration dv_revisions dv_audioRefs].
  split; [exact Hk | ]. split.
  - intros r Hin.
    eapply Permutation_in in Hin; [ | apply orderBy_perm].
    apply filter_In in Hin as [_ Hin]. now apply String.eqb_eq.
  - intros a Hin.
    eapply Permutation_in in Hin; [ | apply orderBy_perm].
    apply filter_In in Hin as [_ Hin]. now apply String.eqb_eq.
Qed.

(** *** Nothing is taken out or changed *)

Lemma extends_refl (db : DB) : extends db db.
Proof. repeat split; exists []; now rewrite app_nil_r. Qed.

Lemma extends_trans (a b c : DB) : extends a b -> extends b c -> extends a c.
Proof.
  intros ([w1 W1] & [d1 D1] & [r1 R1] & [a1 A1]) ([w2 W2] & [d2 D2] & [r2 R2] & [a2 A2]).
  repeat split; eexists.
  - rewrite W2, W1, <- app_assoc. reflexivity.
  - rewrite D2, D1, <- app_assoc. reflexivity.
  - rewrite R2, R1, <- app_assoc. reflexivity.
  - rewrite A2, A1, <- app_assoc. reflexivity.
Qed.

Lemma act_extends (db : DB) (a : Action) : extends db (act db a).
Proof.
  destruct a as [g f | g f]; cbn [act].
  - rewrite createWork_written. cbv zeta.
    destruct (JS.blank (wf_title f)); [apply extends_refl | ].
    destruct (JS.blank (wf_intent f)); [apply extends_refl | ].
    destruct (JS.blank (wf_tools f)); [apply extends_refl | ].
    cbn [snd]. unfold extends. cbn [works declarations revisions audioRefs].
    repeat split; try (eexists; reflexivity).
    exists []. now rewrite app_nil_r.
  - destruct (createRevision_appendOnly g db f) as (Hw & Hd & Ha & added & Hr).
    unfold extends. rewrite Hw, Hd, Ha, Hr.
    repeat split; try (exists []; now rewrite app_nil_r).
    now exists added.
Qed.

Lemma run_extends (actions : list Action) (db : DB) : extends db (run db actions).
Proof.
  revert db. induction actions as [ | a r IH]; intros db; cbn [run fold_left].
  - apply extends_refl.
  - eapply extends_trans; [apply act_extends | apply IH].
Qed.

Lemma find_app_old {A} (f : A -> bool) (l l' : list A) (a : A) :
  find f l = Some a -> find f (l ++ l') = Some a.
Proof.
  induction l as [ | y r IH]; cbn; [discriminate | ].
  destruct (f y); [trivial | exact IH].
Qed.

(** X24.  The ledger keeps its history under every sequence of actions.
    Whatever works are created and whatever revisions are made
    afterwards, no row of any table is taken out or changed; a work that
    [getWork] returned with its declaration is returned with the same
    work row and the same declaration (intent, tools, AI flag and
    contributors as declared), with all the revisions and audio
    references it had, and with its revisions oldest first. *)
Theorem ledger_keeps_history (db : DB) (actions : list Action) :
  extends db (run db actions)
  /\ forall id view dview,
       getWork db id = Some view -> wv_declaration view = Some dview ->
       exists dview',
         getWork (run db actions) id = Some (mkWorkView (wv_work view) (Some dview'))
         /\ dv_declaration dview' = dv_declaration dview
         /\ (forall r, In r (dv_revisions dview) -> In r (dv_revisions dview'))
         /\ (forall a, In a (dv_audioRefs dview) -> In a (dv_audioRefs dview'))
         /\ oldestFirst (dv_revisions dview').
Proof.
  pose proof (run_extends actions db) as Hext.
  split; [exact Hext | ].
  destruct Hext as ([lw Hw] & [ld Hd] & [lr Hr] & [la Ha]).
  intros id view dview Hget Hdecl.
  unfold getWork in *. rewrite Hw, Hd.
  destruct (find _ (works db)) as [w | ] eqn:Ew; [ | discriminate].
  rewrite (find_app_old _ _ lw _ Ew).
  injection Hget as <-. cbn [wv_declaration wv_work] in *.
  destruct (find _ (declarations db)) as [d | ] eqn:Ed; [ | discriminate].
  rewrite (find_app_old _ _ ld _ Ed).
  cbn [option_map] in *. injection Hdecl as <-.
  eexists. split; [reflexivity | ].
  unfold includeDeclaration; cbn [dv_declaration dv_revisions dv_audioRefs].
  rewrite Hr, Ha, !filter_app.
  split; [reflexivity | ]. split; [ | split].
  - intros r Hin. eapply Permutation_in; [symmetry; apply orderBy_perm | ].
    eapply Permutation_in in Hin; [ | apply orderBy_perm].
    apply in_or_app. now left.
  - intros a Hin. eapply Permutation_in; [symmetry; apply orderBy_perm | ].
    eapply Permutation_in in Hin; [ | apply orderBy_perm].
    apply in_or_app. now left.
  - apply orderBy_sorted.
Qed.

(** *** A revision made now comes last *)




End LedgerIntegrity.

(** ** Export and the library *)

Section ExportFacts.

Import Ledger Props LedgerProps.

Variable Date_toISOString : Z -> string.
Variable JSON_stringify : ExportDocument -> string.






(** The effect of a successful [createRevision] on the rows that
    [getWork] selects for a declaration other than the revised one. *)
Lemma includeDeclaration_other (db : DB) (d : Declaration) (r : DeclarationRevision) :
  rev_declarationId r <> decl_id d ->
  includeDeclaration (mkDB (works db) (declarations db) (revisions db ++ [r])
                           (audioRefs db)) d
  = includeDeclaration db d.
Proof.
  intros Hne. unfold includeDeclaration. cbn [revisions audioRefs].
  rewrite filter_app. cbn [filter].
  apply String.eqb_neq in Hne. rewrite Hne. now rewrite app_nil_r.
Qed.

(** X3.  A revision made for one declaration does not show in any other
    work: when the work of an id has a declaration other than the one the
    form names, [getWork] and the export of that id are after
    [createRevision] what they were before it. *)
Theorem createRevision_other_work (g : RevisionGen) (db : DB)
  (formData : RevisionForm) (id : string) (now : Z)
  (Hother : forall d, In d (declarations db) -> decl_workId d = id ->
                      decl_id d <> JS.str (rf_declarationId formData)) :
  let db' := snd (createRevision g db formData) in
  getWork db' id = getWork db id
  /\ exportWorkAsJson Date_toISOString now db' id
     = exportWorkAsJson Date_toISOString now db id
  /\ exportGET Date_toISOString JSON_stringify now db' id
     = exportGET Date_toISOString JSON_stringify now db id.
Proof.
  cbv zeta.
  assert (Hget : getWork (snd (createRevision g db formData)) id = getWork db id).
  { destruct (createRevision_outcome g db formData)
      as [ | | | d r _ _ Hfind _ Hrd _ _ _ _ _]; cbn [snd]; try reflexivity.
    unfold getWork. cbn [works declarations].
    destruct (find _ (works db)) as [w | ] eqn:Ew; [ | reflexivity].
    apply find_some in Ew as [_ Hk]. apply String.eqb_eq in Hk.
    destruct (find _ (declarations db)) as [d' | ] eqn:Ed; [ | reflexivity].
    cbn [option_map]. apply find_some in Ed as [Hin Hkd]. apply String.eqb_eq in Hkd.
    rewrite includeDeclaration_other; [reflexivity | ].
    apply findDeclaration_id in Hfind as [Hid _].
    rewrite Hrd, Hid. intros E. apply (Hother d' Hin); congruence. }
  split; [exact Hget | ].
  unfold exportGET, exportWorkAsJson. rewrite Hget. split; reflexivity.
Qed.

(** X4.  The export endpoint answers 404 with the error [Work not found]
    exactly when no work of the ledger has the id; otherwise it answers
    200 with the serialised document as an attachment named after the id,
    and the document carries the id and the title of the work of that
    id. *)
Theorem exportGET_found_or_404 (now : Z) (db : DB) (id : string) :
  let response := exportGET Date_toISOString JSON_stringify now db id in
  (xs_status response = 404 <-> ~ In id (map work_id (works db)))
  /\ (xs_status response = 404 ->
      xs_body response = ExportError "Work not found"
      /\ xs_contentDisposition response = None)
  /\ (xs_status response <> 404 ->
      xs_status response = 200
      /\ xs_contentDisposition response
         = Some ("attachment; filename=" ++ dquote ++ "ctad-" ++ id ++ ".json"
                 ++ dquote)%string
      /\ exists doc w,
           exportWorkAsJson Date_toISOString now db id = Some doc
           /\ xs_body response = ExportText (JSON_stringify doc)
           /\ In w (works db) /\ work_id w = id
           /\ xw_id (x_work doc) = id /\ xw_title (x_work doc) = work_title w).
Proof.
  cbv zeta. unfold exportGET, exportWorkAsJson, getWork.
  destruct (find (fun w => String.eqb (work_id w) id) (works db)) as [w | ] eqn:Ew;
    cbn [xs_status xs_body xs_contentDisposition].
  - apply find_some in Ew as [Hin Hk]. apply String.eqb_eq in Hk.
    split; [ | split].
    + split; [discriminate | ]. intros Hno. exfalso. apply Hno.
      rewrite <- Hk. now apply in_map.
    + discriminate.
    + intros _. split; [reflexivity | ]. split; [reflexivity | ].
      eexists. exists w. split; [reflexivity | ].
      cbn [x_work xw_id xw_title wv_work]. auto.
  - split; [ | split].
    + split; [ | reflexivity]. intros _ Hin.
      now apply (find_some_key work_id) in Hin.
    + intros _. split; reflexivity.
    + intros H. now contradiction H.
Qed.

(** *** getAllWorks *)

Lemma insertByDesc_perm {A} (key : A -> Z) (x : A) (l : list A) :
  Permutation (insertByDesc key x l) (x :: l).
Proof.
  induction l as [ | y r IH]; cbn; [reflexivity | ].
  destruct (key y <=? key x); [reflexivity | ].
  rewrite IH. apply perm_swap.
Qed.

Lemma orderByDesc_perm {A} (key : A -> Z) (l : list A) :
  Permutation (orderByDesc key l) l.
Proof.
  induction l as [ | x r IH]; cbn; [reflexivity | ].
  rewrite insertByDesc_perm. now constructor.
Qed.

Lemma insertByDesc_sorted {A} (key : A -> Z) (x : A) (l : list A) :
  StronglySorted (fun a b => key b <= key a) l ->
  StronglySorted (fun a b => key b <= key a) (insertByDesc key x l).
Proof.
  induction 1 as [ | y r Hr IH Hy]; cbn.
  - repeat constructor.
  - destruct (Z.leb_spec (key y) (key x)) as [Hle | Hgt].
    + constructor; [ now constructor | ].
      constructor; [exact Hle | ].
      eapply Forall_impl; [ | exact Hy]. cbv beta. intros; lia.
    + constructor; [exact IH | ].
      eapply Permutation_Forall; [ symmetry; apply insertByDesc_perm | ].
      constructor; [lia | exact Hy].
Qed.

Lemma orderByDesc_sorted {A} (key : A -> Z) (l : list A) :
  StronglySorted (fun a b => key b <= key a) (orderByDesc key l).
Proof.
  induction l as [ | x r IH]; cbn; [constructor | ].
  now apply insertByDesc_sorted.
Qed.

(** X5.  The library lists every work of the ledger once, the newest
    first; each entry carries the declaration of its work with the
    revisions and the audio references of that declaration, and in a
    well-formed ledger no entry is without a declaration. *)
Theorem getAllWorks_newest_first (db : DB) :
  Permutation (map wv_work (getAllWorks db)) (works db)
  /\ newestFirst (getAllWorks db)
  /\ (forall view dview,
        In view (getAllWorks db) -> wv_declaration view = Some dview ->
        decl_workId (dv_declaration dview) = work_id (wv_work view)
        /\ (forall r, In r (dv_revisions dview) <->
                      In r (revisions db)
                      /\ rev_declarationId r = decl_id (dv_declaration dview))
        /\ (forall a, In a (dv_audioRefs dview) <->
                      In a (audioRefs db)
                      /\ audio_declarationId a = decl_id (dv_declaration dview)))
  /\ (wellFormed db ->
      forall view, In view (getAllWorks db) -> wv_declaration view <> None).
Proof.
  unfold getAllWorks. split; [ | split; [ | split]].
  - rewrite map_map. cbn [wv_work]. rewrite map_id. apply orderByDesc_perm.
  - unfold newestFirst.
    pose proof (orderByDesc_sorted work_createdAt (works db)) as S.
    induction S as [ | x r Hr IH Hx]; cbn [map]; constructor; [exact IH | ].
    apply Forall_forall. intros b Hb. apply in_map_iff in Hb as (a & <- & Ha).
    cbn [wv_work]. rewrite Forall_forall in Hx. now apply Hx.
  - intros view dview Hin Hdecl.
    apply in_map_iff in Hin as (w & <- & _). cbn [wv_work wv_declaration] in *.
    destruct (find _ (declarations db)) as [d | ] eqn:Ed; [ | discriminate].
    cbn [option_map] in Hdecl. injection Hdecl as <-.
    apply find_some in Ed as [_ Hk]. apply String.eqb_eq in Hk.
    unfold includeAll. cbn [dv_declaration dv_revisions dv_audioRefs].
    split; [exact Hk | ]. split.
    + intros r. rewrite filter_In, String.eqb_eq. reflexivity.
    + intros a. rewrite filter_In, String.eqb_eq. reflexivity.
  - intros (_ & _ & _ & Hwd & _) view Hin.
    apply in_map_iff in Hin as (w & <- & Hw). cbn [wv_declaration].
    eapply Permutation_in in Hw; [ | apply orderByDesc_perm].
    destruct (Hwd w Hw) as (d & Hd & Hk).
    destruct (find _ (declarations db)) as [d' | ] eqn:Ed; [discriminate | ].
    apply (find_none _ _ Ed) in Hd. cbv beta in Hd.
    rewrite Hk, String.eqb_refl in Hd. discriminate.
Qed.

End ExportFacts.

(** ** Text fields: blank, visible, trimmed *)

Section TextFacts.

Import Ledger Props LedgerProps.

Let nonspace (c : ascii) : bool := negb (JS.is_space c).

Lemma trimStart_visible (s : string) :
  existsb nonspace (list_ascii_of_string (JS.trimStart s))
  = existsb nonspace (list_ascii_of_string s).
Proof.
  induction s as [ | c r IH]; [reflexivity | ].
  cbn [JS.trimStart]. destruct (JS.is_space c) eqn:E; [ | reflexivity].
  cbn [list_ascii_of_string existsb]. unfold nonspace at 2. rewrite E. exact IH.
Qed.

Lemma trimEnd_truthy (s : string) :
  JS.truthy_string (JS.trimEnd s) = existsb nonspace (list_ascii_of_string s).
Proof.
  induction s as [ | c r IH]; [reflexivity | ].
  cbn [JS.trimEnd list_ascii_of_string existsb]. rewrite <- IH.
  unfold nonspace. destruct (JS.trimEnd r) as [ | c' r']; cbn [JS.truthy_string].
  - destruct (JS.is_space c); reflexivity.
  - now rewrite orb_true_r.
Qed.

(** A field is blank exactly when it is missing or all white space. *)
Lemma blank_visible (o : option string) : JS.blank o = negb (visible o).
Proof.
  destruct o as [s | ]; [ | reflexivity].
  unfold JS.blank, JS.opt_trim, JS.truthy, visible, JS.trim. cbn [option_map].
  rewrite trimEnd_truthy. fold nonspace. now rewrite trimStart_visible.
Qed.

Lemma trimStart_first (s : string) :
  match first_char (JS.trimStart s) with
  | Some c => JS.is_space c = false
  | None => JS.trimStart s = ""
  end.
Proof.
  induction s as [ | c r IH]; [reflexivity | ].
  cbn [JS.trimStart]. destruct (JS.is_space c) eqn:E; [exact IH | exact E].
Qed.

Lemma trimEnd_first (c : ascii) (r : string) :
  JS.is_space c = false -> JS.trimEnd (String c r) = String c (JS.trimEnd r).
Proof.
  intros E. cbn [JS.trimEnd]. rewrite E. now destruct (JS.trimEnd r).
Qed.

Lemma trimEnd_last (s : string) :
  match last_char (JS.trimEnd s) with
  | Some c => JS.is_space c = false
  | None => JS.trimEnd s = ""
  end.
Proof.
  induction s as [ | c r IH]; [reflexivity | ].
  cbn [JS.trimEnd]. destruct (JS.trimEnd r) as [ | c' r'] eqn:E.
  - destruct (JS.is_space c) eqn:S; [reflexivity | exact S].
  - cbn [last_char] in IH |- *.
    destruct (last_char r') as [b | ]; exact IH.
Qed.

(** What [trim] leaves is empty or begins and ends without white space. *)
Lemma trim_trimmed (s : string) : JS.trim s = "" \/ trimmed (JS.trim s).
Proof.
  unfold JS.trim. pose proof (trimStart_first s) as F.
  destruct (JS.trimStart s) as [ | c r] eqn:E; [now left | right].
  cbn [first_char] in F. rewrite (trimEnd_first c r F). split.
  - exists c. split; [reflexivity | exact F].
  - rewrite <- (trimEnd_first c r F).
    pose proof (trimEnd_last (String c r)) as L.
    rewrite (trimEnd_first c r F) in L |- *.
    destruct (last_char (String c (JS.trimEnd r))) as [b | ]; [ | discriminate].
    now exists b.
Qed.

Lemma trim_visible (o : option string) :
  JS.blank o = false -> trimmed (JS.trim (JS.str o)).
Proof.
  intros H. destruct o as [s | ]; [ | discriminate]. cbn [JS.str].
  destruct (trim_trimmed s) as [E | T]; [ | exact T].
  unfold JS.blank, JS.opt_trim, JS.truthy in H. cbn [option_map] in H.
  rewrite E in H. discriminate.
Qed.

Lemma trim_or_null_trimmed (o : option string) :
  trimmed_or_absent (JS.trim_or_null o).
Proof.
  unfold JS.trim_or_null, JS.opt_trim. destruct o as [s | ]; [ | exact I].
  cbn [option_map]. destruct (trim_trimmed s) as [-> | T]; [exact I | ].
  destruct (JS.trim s); [exact I | exact T].
Qed.

(** X6.  [createWork] creates the work exactly when the title, the intent
    and the tools each hold a character that is not white space; the
    first of the three that does not decides the error, the title before
    the intent and the intent before the tools. *)
Theorem createWork_succeeds_iff (g : WorkGen) (db : DB) (formData : WorkForm) :
  let result := fst (createWork g db formData) in
  (result = ActionRedirect ("/work/" ++ gen_workId g)
   <-> visible (wf_title formData) = true
       /\ visible (wf_intent formData) = true
       /\ visible (wf_tools formData) = true)
  /\ (result = ActionError "Work title is required"
      <-> visible (wf_title formData) = false)
  /\ (result = ActionError "Intent statement is required"
      <-> visible (wf_title formData) = true
          /\ visible (wf_intent formData) = false)
  /\ (result = ActionError "Tools used is required"
      <-> visible (wf_title formData) = true
          /\ visible (wf_intent formData) = true
          /\ visible (wf_tools formData) = false).
Proof.
  cbv zeta. rewrite createWork_written. cbv zeta.
  rewrite !blank_visible.
  destruct (visible (wf_title formData)); cbn [negb fst].
  2:{ repeat split; intros; try discriminate;
        repeat match goal with H : _ /\ _ |- _ => destruct H end;
        try discriminate; reflexivity. }
  destruct (visible (wf_intent formData)); cbn [negb fst].
  2:{ repeat split; intros; try discriminate;
        repeat match goal with H : _ /\ _ |- _ => destruct H end;
        try discriminate; reflexivity. }
  destruct (visible (wf_tools formData)); cbn [negb fst];
    repeat split; intros; try discriminate;
    repeat match goal with H : _ /\ _ |- _ => destruct H end;
    try discriminate; reflexivity.
Qed.

(** The rows after one action: the rows before it, and rows of trimmed
    text. *)
Lemma createWork_text (g : WorkGen) (db : DB) (formData : WorkForm) :
  (forall w, In w (works (snd (createWork g db formData))) ->
             In w (works db) \/ trimmed (work_title w))
  /\ (forall d, In d (declarations (snd (createWork g db formData))) ->
                In d (declarations db)
                \/ (trimmed (decl_intent d) /\ trimmed (decl_tools d)
                    /\ trimmed_or_absent (decl_contributors d)))
  /\ revisions (snd (createWork g db formData)) = revisions db.
Proof.
  rewrite createWork_written. cbv zeta.
  destruct (JS.blank (wf_title formData)) eqn:Bt; [cbn [snd]; tauto | ].
  destruct (JS.blank (wf_intent formData)) eqn:Bi; [cbn [snd]; tauto | ].
  destruct (JS.blank (wf_tools formData)) eqn:Bo; [cbn [snd]; tauto | ].
  cbn [snd works declarations revisions]. split; [ | split; [ | reflexivity]].
  - intros w Hw. apply in_app_or in Hw as [Hw | [<- | []]]; [now left | right].
    cbn [work_title]. now apply trim_visible.
  - intros d Hd. apply in_app_or in Hd as [Hd | [<- | []]]; [now left | right].
    cbn [decl_intent decl_tools decl_contributors].
    auto using trim_visible, trim_or_null_trimmed.
Qed.

Lemma createRevision_text (g : RevisionGen) (db : DB) (formData : RevisionForm)
  (r : DeclarationRevision) :
  In r (revisions (snd (createRevision g db formData))) ->
  In r (revisions db)
  \/ (trimmed (rev_changeNote r)
      /\ trimmed_or_absent (rev_intent r)
      /\ trimmed_or_absent (rev_tools r)
      /\ trimmed_or_absent (rev_contributors r)).
Proof.
  destruct (createRevision_outcome g db formData)
    as [ | | | d x _ Hnote _ _ _ _ Hc Hi Ht Hco]; cbn [snd revisions]; auto.
  intros Hin. apply in_app_or in Hin as [Hin | [<- | []]]; [now left | right].
  rewrite Hc, Hi, Ht, Hco.
  auto using trim_visible, trim_or_null_trimmed.
Qed.

(** X7.  In every ledger that [createWork] and [createRevision] build from
    the empty one, all stored text is trimmed: the title of every work,
    the intent and the tools of every declaration and the change note of
    every revision are not empty and neither begin nor end with white
    space, and the optional texts (the contributors, and the intent and
    the tools of a revision) are absent or trimmed in the same sense,
    never empty. *)
Theorem stored_text_is_trimmed (db : DB) (Hreach : reachable db) :
  (forall w, In w (works db) -> trimmed (work_title w))
  /\ (forall d, In d (declarations db) ->
        trimmed (decl_intent d) /\ trimmed (decl_tools d)
        /\ trimmed_or_absent (decl_contributors d)
        /\ decl_contributors d <> Some "")
  /\ (forall r, In r (revisions db) ->
        trimmed (rev_changeNote r)
        /\ trimmed_or_absent (rev_intent r)
        /\ trimmed_or_absent (rev_tools r)
        /\ trimmed_or_absent (rev_contributors r)).
Proof.
  assert (Hne : forall o, trimmed_or_absent o -> o <> Some "").
  { intros o T E. subst o. destruct T as [[c [F _]] _]. discriminate F. }
  induction Hreach as [ | g db f _ (IHw & IHd & IHr) _ | g db f _ (IHw & IHd & IHr)].
  - split; [ | split]; intros ? [].
  - destruct (createWork_text g db f) as (Hw & Hd & Hr).
    split; [ | split].
    + intros w Hin. destruct (Hw w Hin) as [Hold | T]; [now apply IHw | exact T].
    + intros d Hin. destruct (Hd d Hin) as [Hold | (T1 & T2 & T3)];
        [now apply IHd | ].
      auto.
    + rewrite Hr. exact IHr.
  - split; [ | split].
    + destruct (createRevision_appendOnly g db f) as (-> & _). exact IHw.
    + destruct (createRevision_appendOnly g db f) as (_ & -> & _). exact IHd.
    + intros r Hin. destruct (createRevision_text g db f r Hin) as [Hold | T];
        [now apply IHr | exact T].
Qed.

End TextFacts.

(** ** Validation of a submission *)

Section ValidationFacts.

Import Reward Props.

Variable Date_getTime : string -> option Z.

Lemma checkLineage_none (l : list PromptVersion) (i : nat) :
  checkLineage i l = None <-> forallb promptOK l = true.
Proof.
  revert i. induction l as [ | v r IH]; intros i; cbn [checkLineage forallb];
    [tauto | ].
  unfold promptOK at 1.
  destruct (JS.truthy_string (pv_id v)), (JS.truthy_string (pv_content v)),
    (JS.truthy_string (pv_timestamp v)), (JS.truthy_string (pv_mode v));
    cbn [negb orb andb]; try (split; discriminate).
  apply IH.
Qed.

Lemma checkLineage_first (good rest : list PromptVersion) (bad : PromptVersion)
  (i : nat) :
  forallb promptOK good = true -> promptOK bad = false ->
  checkLineage i (good ++ bad :: rest)
  = Some (lineageMessage (i + List.length good)).
Proof.
  revert i. induction good as [ | v r IH]; intros i Hgood Hbad.
  - cbn [app checkLineage List.length]. rewrite Nat.add_0_r.
    unfold promptOK in Hbad.
    destruct (JS.truthy_string (pv_id bad)), (JS.truthy_string (pv_content bad)),
      (JS.truthy_string (pv_timestamp bad)), (JS.truthy_string (pv_mode bad));
      cbn [negb orb andb] in *; try discriminate; reflexivity.
  - cbn [forallb] in Hgood. apply andb_true_iff in Hgood as [Hv Hr].
    cbn [app checkLineage List.length]. unfold promptOK in Hv.
    destruct (JS.truthy_string (pv_id v)), (JS.truthy_string (pv_content v)),
      (JS.truthy_string (pv_timestamp v)), (JS.truthy_string (pv_mode v));
      cbn [negb orb andb] in *; try discriminate.
    rewrite (IH (S i) Hr Hbad). do 2 f_equal. lia.
Qed.

Lemma checkRejections_none (l : list RejectedOutput) (i : nat) :
  checkRejections i l = None <-> forallb rejectionOK l = true.
Proof.
  revert i. induction l as [ | v r IH]; intros i; cbn [checkRejections forallb];
    [tauto | ].
  unfold rejectionOK at 1.
  destruct (JS.truthy_string (ro_id v)), (JS.truthy_string (ro_promptVersionId v)),
    (JS.truthy_string (ro_timestamp v));
    cbn [negb orb andb]; try (split; discriminate).
  apply IH.
Qed.

Lemma checkRejections_first (good rest : list RejectedOutput) (bad : RejectedOutput)
  (i : nat) :
  forallb rejectionOK good = true -> rejectionOK bad = false ->
  checkRejections i (good ++ bad :: rest)
  = Some (rejectionMessage (i + List.length good)).
Proof.
  revert i. induction good as [ | v r IH]; intros i Hgood Hbad.
  - cbn [app checkRejections List.length]. rewrite Nat.add_0_r.
    unfold rejectionOK in Hbad.
    destruct (JS.truthy_string (ro_id bad)),
      (JS.truthy_string (ro_promptVersionId bad)),
      (JS.truthy_string (ro_timestamp bad));
      cbn [negb orb andb] in *; try discriminate; reflexivity.
  - cbn [forallb] in Hgood. apply andb_true_iff in Hgood as [Hv Hr].
    cbn [app checkRejections List.length]. unfold rejectionOK in Hv.
    destruct (JS.truthy_string (ro_id v)),
      (JS.truthy_string (ro_promptVersionId v)),
      (JS.truthy_string (ro_timestamp v));
      cbn [negb orb andb] in *; try discriminate.
    rewrite (IH (S i) Hr Hbad). do 2 f_equal. lia.
Qed.

Lemma checkLineage_error (l : list PromptVersion) (i : nat) (msg : string) :
  checkLineage i l = Some msg -> forallb promptOK l = false.
Proof.
  intros H. destruct (forallb promptOK l) eqn:E; [ | reflexivity].
  apply (checkLineage_none l i) in E. congruence.
Qed.

Lemma checkRejections_error (l : list RejectedOutput) (i : nat) (msg : string) :
  checkRejections i l = Some msg -> forallb rejectionOK l = false.
Proof.
  intros H. destruct (forallb rejectionOK l) eqn:E; [ | reflexivity].
  apply (checkRejections_none l i) in E. congruence.
Qed.

(** The result is the accepting one or carries a message. *)
Lemma validateProcessInput_shape (input : ProcessDeclarationInput) :
  validateProcessInput Date_getTime input = mkValidation true None
  \/ exists msg, validateProcessInput Date_getTime input = invalid msg.
Proof.
  unfold validateProcessInput.
  destruct (negb (JS.truthy_string (platform input))); [right; eauto | ].
  destruct (negb (JS.truthy_string (sessionStartedAt input))); [right; eauto | ].
  destruct (Date_getTime (sessionStartedAt input)); [ | right; eauto].
  destruct (checkLineage 0 (promptLineage input)); [right; eauto | ].
  destruct (checkRejections 0 (rejectedOutputs input)); [right; eauto | ].
  match goal with |- context [if ?b then _ else _] => destruct b end;
    [right; eauto | ].
  match goal with |- context [if ?b then _ else _] => destruct b end;
    [right; eauto | now left].
Qed.

Ltac refused :=
  cbn; split; [reflexivity | split; [discriminate | intros _; eexists; reflexivity]].

(** X8.  [validateProcessInput] accepts an input exactly when the
    platform and the start time are given, the start time is a date,
    every prompt version has an id, a content, a timestamp and a mode,
    every rejected output and the selected output, if any, have an id, a
    prompt version id and a timestamp, and a consent comes with its
    timestamp; an accepted input carries no error message and a refused
    one always carries one. *)
Theorem validateProcessInput_accepts_iff (input : ProcessDeclarationInput) :
  let result := validateProcessInput Date_getTime input in
  valid result = acceptable Date_getTime input
  /\ (valid result = true -> error result = None)
  /\ (valid result = false -> exists msg, error result = Some msg).
Proof.
  cbv zeta. unfold validateProcessInput, acceptable, isDate, invalid.
  destruct (JS.truthy_string (platform input)); cbn [negb andb];
    [ | refused].
  destruct (JS.truthy_string (sessionStartedAt input)); cbn [negb andb];
    [ | refused].
  destruct (Date_getTime (sessionStartedAt input)); cbn [andb];
    [ | refused].
  destruct (checkLineage 0 (promptLineage input)) as [msg | ] eqn:El.
  { rewrite (checkLineage_error _ _ _ El). refused. }
  rewrite (proj1 (checkLineage_none _ _) El). cbn [andb].
  destruct (checkRejections 0 (rejectedOutputs input)) as [msg | ] eqn:Er.
  { rewrite (checkRejections_error _ _ _ Er). refused. }
  rewrite (proj1 (checkRejections_none _ _) Er). cbn [andb].
  assert (Hsel :
    match selectedOutput input with
    | Some selection =>
        negb (JS.truthy_string (so_id selection))
        || negb (JS.truthy_string (so_promptVersionId selection))
        || negb (JS.truthy_string (so_timestamp selection))
    | None => false
    end
    = negb match selectedOutput input with
           | Some selection => selectionOK selection
           | None => true
           end).
  { destruct (selectedOutput input) as [s | ]; [ | reflexivity].
    unfold selectionOK.
    destruct (JS.truthy_string (so_id s)), (JS.truthy_string (so_promptVersionId s)),
      (JS.truthy_string (so_timestamp s)); reflexivity. }
  rewrite Hsel.
  destruct (match selectedOutput input with
            | Some selection => selectionOK selection
            | None => true
            end); cbn [negb andb];
    [ | refused].
  destruct (consentForTrainingData input), (JS.truthy (consentTimestamp input));
    cbn; (split; [reflexivity | split; [ | ]]);
    first [ reflexivity | discriminate | intros _; eexists; reflexivity ].
Qed.

(** X9.  The error of a malformed entry names the first such entry.  For
    an input whose platform and start time pass, when the prompt versions
    before position [i] have their required fields and the one at [i] has
    not, the error is the message of the prompt versions with the index
    [i], whatever follows; and when all prompt versions pass, the same
    holds for the rejected outputs. *)
Theorem validateProcessInput_first_offender (input : ProcessDeclarationInput)
  (Hplatform : JS.truthy_string (platform input) = true)
  (Hstart : JS.truthy_string (sessionStartedAt input) = true)
  (Hdate : isDate Date_getTime (sessionStartedAt input) = true) :
  (forall good bad rest,
      promptLineage input = good ++ bad :: rest ->
      forallb promptOK good = true -> promptOK bad = false ->
      validateProcessInput Date_getTime input
      = invalid (lineageMessage (List.length good)))
  /\ (forall good bad rest,
        forallb promptOK (promptLineage input) = true ->
        rejectedOutputs input = good ++ bad :: rest ->
        forallb rejectionOK good = true -> rejectionOK bad = false ->
        validateProcessInput Date_getTime input
        = invalid (rejectionMessage (List.length good))).
Proof.
  unfold isDate in Hdate.
  split.
  - intros good bad rest Hl Hgood Hbad. unfold validateProcessInput.
    rewrite Hplatform, Hstart. cbn [negb].
    destruct (Date_getTime (sessionStartedAt input)); [ | discriminate].
    rewrite Hl, (checkLineage_first good rest bad 0 Hgood Hbad). reflexivity.
  - intros good bad rest Hl Hr Hgood Hbad. unfold validateProcessInput.
    rewrite Hplatform, Hstart. cbn [negb].
    destruct (Date_getTime (sessionStartedAt input)); [ | discriminate].
    rewrite (proj2 (checkLineage_none _ 0) Hl).
    rewrite Hr, (checkRejections_first good rest bad 0 Hgood Hbad). reflexivity.
Qed.

End ValidationFacts.

(** ** The contributor table under the reward engine *)

Section ContributorFacts.

Import Reward Props Binary64.

Local Open Scope float_scope.

Variable Date_getTime : string -> option Z.
Variable newContributorId : string.

(** *** The engine, case by case *)

(** The result and the table after the engine, when the product rounds
    to [p]. *)
Lemma reward_pair (flt : Faults) (table : list Contributor)
  (contributorId pdId : string) (input : ProcessDeclarationInput) (p : Z) :
  let c := contributorFor table newContributorId contributorId input in
  let qm := 0.5 + c_tasteScore c in
  let rb := rarityOf (mapPlatformToEnum (platform input)) in
  let total := (c_totalPoints c + p)%Z in
  JS.Math_round_Z (JS.Z2F (basePoints input) * qm * rb) = Some p ->
  calculateContributionReward Date_getTime newContributorId flt
    table contributorId pdId input
  = if fail_findUnique flt then (None, table)
    else if match findContributor table contributorId with
            | None => fail_create flt
            | Some _ => false
            end
    then (None, table)
    else if fail_update flt || consentDateRejected Date_getTime input
    then (None, tableWith table newContributorId contributorId input)
    else
      (Some (mkReward p total
               (if negb (tier_eqb (calculateTier total) (c_currentTier c))
                then Some (c_currentTier c, calculateTier total) else None)
               qm rb),
       updateContributor (tableWith table newContributorId contributorId input)
         (c_id c) (rewardedRow Date_getTime c input p)).
Proof.
  intros c qm rb total Hround.
  unfold calculateContributionReward, consentDateRejected, tableWith.
  destruct (fail_findUnique flt); [reflexivity | ].
  unfold c, contributorFor, freshContributor in *.
  destruct (findContributor table contributorId) as [c0 | ];
    [ | destruct (fail_create flt); [reflexivity | ] ];
    cbv zeta in *; cbn [c_tasteScore c_totalPoints c_currentTier c_id orb] in *;
    unfold qm, rb in Hround; rewrite Hround;
    destruct (fail_update flt); cbn [orb]; try reflexivity;
    unfold rewardedRow;
    destruct (consentTimestamp input) as [s | ]; try reflexivity;
    destruct (JS.truthy_string s); try reflexivity;
    destruct (Date_getTime s); reflexivity.
Qed.

Lemma rowOK_fresh (contributorId : string) (input : ProcessDeclarationInput) :
  rowOK (freshContributor newContributorId contributorId input).
Proof.
  unfold rowOK, freshContributor, unitScore.
  cbn [c_currentTier c_totalPoints c_tasteScore].
  repeat split; try reflexivity; lia.
Qed.

Lemma rowOK_contributorFor (table : list Contributor) (contributorId : string)
  (input : ProcessDeclarationInput) :
  tableOK table -> rowOK (contributorFor table newContributorId contributorId input).
Proof.
  intros Hok. unfold contributorFor.
  destruct (findContributor table contributorId) as [c | ] eqn:E;
    [ | apply rowOK_fresh].
  apply find_some in E as [Hin _].
  unfold tableOK in Hok. rewrite Forall_forall in Hok. now apply Hok.
Qed.

Lemma tableOK_tableWith (table : list Contributor) (contributorId : string)
  (input : ProcessDeclarationInput) :
  tableOK table -> tableOK (tableWith table newContributorId contributorId input).
Proof.
  intros Hok. unfold tableWith.
  destruct (findContributor table contributorId); [exact Hok | ].
  apply Forall_app. split; [exact Hok | ].
  constructor; [apply rowOK_fresh | constructor].
Qed.

Lemma Forall_updateContributor (P : Contributor -> Prop) (table : list Contributor)
  (id : string) (f : Contributor -> Contributor) :
  Forall P table -> (forall x, P x -> P (f x)) ->
  Forall P (updateContributor table id f).
Proof.
  intros Hall Hf. induction Hall as [ | x r Hx Hr IH]; cbn [updateContributor];
    [constructor | ].
  destruct (String.eqb (c_id x) id); constructor; auto.
Qed.

(** The points of a contribution to a sound row. *)
Lemma points_of_sound_row (c : Contributor) (input : ProcessDeclarationInput) :
  rowOK c ->
  exists p,
    JS.Math_round_Z (JS.Z2F (basePoints input) * (0.5 + c_tasteScore c)
                     * rarityOf (mapPlatformToEnum (platform input))) = Some p
    /\ (3 <= p <= 273)%Z.
Proof.
  intros (_ & Hscore & _).
  exact (points_positive (basePoints input) (c_tasteScore c)
           (rarityOf (mapPlatformToEnum (platform input)))
           (basePoints_range input) Hscore (rarityOf_between _)).
Qed.

(** X10.  No contribution earns more than 273 points and none less than
    3, however long the lists of the input are: for a contributor whose
    taste score lies in [0,1], every reward that the engine returns has
    base points between 10 and 101 and points earned between 3 and 273,
    and the new total is the old one plus the points earned. *)
Theorem reward_points_capped (flt : Faults) (table : list Contributor)
  (contributorId pdId : string) (input : ProcessDeclarationInput)
  (reward : ContributorReward)
  (Hscore : unitScore (c_tasteScore
               (contributorFor table newContributorId contributorId input)))
  (Hreward : fst (calculateContributionReward Date_getTime newContributorId flt
                    table contributorId pdId input) = Some reward) :
  (10 <= basePoints input <= 101)%Z
  /\ (3 <= pointsEarned reward <= 273)%Z
  /\ newTotal reward
     = (c_totalPoints (contributorFor table newContributorId contributorId input)
        + pointsEarned reward)%Z.
Proof.
  split; [apply basePoints_range | ].
  destruct (points_positive (basePoints input) _
              (rarityOf (mapPlatformToEnum (platform input)))
              (basePoints_range input) Hscore (rarityOf_between _))
    as (p & Hround & Hp).
  rewrite (reward_pair flt table contributorId pdId input p Hround) in Hreward.
  destruct (fail_findUnique flt); [discriminate | ].
  destruct (match findContributor table contributorId with
            | Some _ => false | None => fail_create flt end); [discriminate | ].
  destruct (fail_update flt || consentDateRejected Date_getTime input);
    [discriminate | ].
  cbn [fst] in Hreward. injection Hreward as <-.
  cbn [pointsEarned newTotal]. split; [exact Hp | reflexivity].
Qed.

(** The engine keeps the contributor table sound, whatever the input,
    whether the contributor is new or known, and whichever database call
    rejects. *)
Lemma reward_table_sound (flt : Faults) (table : list Contributor)
  (contributorId pdId : string) (input : ProcessDeclarationInput)
  (Hsound : tableOK table) :
  tableOK (snd (calculateContributionReward Date_getTime newContributorId flt
                  table contributorId pdId input)).
Proof.
  pose proof (rowOK_contributorFor table contributorId input Hsound) as Hrow.
  destruct (points_of_sound_row _ input Hrow) as (p & Hround & Hp).
  rewrite (reward_pair flt table contributorId pdId input p Hround).
  destruct (fail_findUnique flt); [exact Hsound | ].
  destruct (match findContributor table contributorId with
            | Some _ => false | None => fail_create flt end); [exact Hsound | ].
  destruct (fail_update flt || consentDateRejected Date_getTime input); cbn [snd].
  - now apply tableOK_tableWith.
  - apply Forall_updateContributor; [now apply tableOK_tableWith | ].
    intros x (_ & Hx & _). destruct Hrow as (_ & _ & Hpoints).
    unfold rowOK, rewardedRow. cbn [c_currentTier c_totalPoints c_tasteScore].
    split; [reflexivity | ]. split; [exact Hx | lia].
Qed.

(** *** What a returned reward leaves in the table *)

Lemma reward_pair_none (flt : Faults) (table : list Contributor)
  (contributorId pdId : string) (input : ProcessDeclarationInput) :
  let c := contributorFor table newContributorId contributorId input in
  JS.Math_round_Z (JS.Z2F (basePoints input) * (0.5 + c_tasteScore c)
                   * rarityOf (mapPlatformToEnum (platform input))) = None ->
  calculateContributionReward Date_getTime newContributorId flt
    table contributorId pdId input
  = if fail_findUnique flt then (None, table)
    else if match findContributor table contributorId with
            | None => fail_create flt
            | Some _ => false
            end
    then (None, table)
    else (None, tableWith table newContributorId contributorId input).
Proof.
  intros c Hround.
  unfold calculateContributionReward, tableWith.
  destruct (fail_findUnique flt); [reflexivity | ].
  unfold c, contributorFor, freshContributor in *.
  destruct (findContributor table contributorId) as [c0 | ];
    [ | destruct (fail_create flt); [reflexivity | ] ];
    cbv zeta in *; cbn [c_tasteScore c_totalPoints c_currentTier c_id] in *;
    rewrite Hround; reflexivity.
Qed.

(** A reward that is returned is the rounded product, and the table is
    the one with the row of the contributor rewritten. *)
Lemma reward_success (flt : Faults) (table : list Contributor)
  (contributorId pdId : string) (input : ProcessDeclarationInput)
  (reward : ContributorReward) :
  let c := contributorFor table newContributorId contributorId input in
  let result := calculateContributionReward Date_getTime newContributorId flt
                  table contributorId pdId input in
  fst result = Some reward ->
  exists p,
    JS.Math_round_Z (JS.Z2F (basePoints input) * (0.5 + c_tasteScore c)
                     * rarityOf (mapPlatformToEnum (platform input))) = Some p
    /\ pointsEarned reward = p
    /\ newTotal reward = (c_totalPoints c + p)%Z
    /\ qualityMultiplier reward = 0.5 + c_tasteScore c
    /\ tierChange reward
       = (if negb (tier_eqb (calculateTier (c_totalPoints c + p)) (c_currentTier c))
          then Some (c_currentTier c, calculateTier (c_totalPoints c + p))
          else None)
    /\ snd result
       = updateContributor (tableWith table newContributorId contributorId input)
           (c_id c) (rewardedRow Date_getTime c input p).
Proof.
  intros c result Hreward. unfold result in *.
  destruct (JS.Math_round_Z (JS.Z2F (basePoints input) * (0.5 + c_tasteScore c)
                             * rarityOf (mapPlatformToEnum (platform input))))
    as [p | ] eqn:Hround.
  - exists p. split; [reflexivity | ].
    rewrite (reward_pair flt table contributorId pdId input p Hround) in Hreward |- *.
    destruct (fail_findUnique flt); [discriminate | ].
    destruct (match findContributor table contributorId with
              | Some _ => false | None => fail_create flt end); [discriminate | ].
    destruct (fail_update flt || consentDateRejected Date_getTime input);
      [discriminate | ].
    cbn [fst snd] in *. injection Hreward as <-.
    cbn [pointsEarned newTotal qualityMultiplier tierChange]. auto 6.
  - rewrite (reward_pair_none flt table contributorId pdId input Hround) in Hreward.
    destruct (fail_findUnique flt); [discriminate | ].
    destruct (match findContributor table contributorId with
              | Some _ => false | None => fail_create flt end); discriminate.
Qed.

(** The table after the engine, in all cases. *)
Lemma reward_table (flt : Faults) (table : list Contributor)
  (contributorId pdId : string) (input : ProcessDeclarationInput) :
  let c := contributorFor table newContributorId contributorId input in
  let table' := snd (calculateContributionReward Date_getTime newContributorId flt
                       table contributorId pdId input) in
  table' = table
  \/ table' = tableWith table newContributorId contributorId input
  \/ exists p,
       table' = updateContributor
                  (tableWith table newContributorId contributorId input)
                  (c_id c) (rewardedRow Date_getTime c input p).
Proof.
  intros c table'. unfold table'.
  destruct (JS.Math_round_Z (JS.Z2F (basePoints input) * (0.5 + c_tasteScore c)
                             * rarityOf (mapPlatformToEnum (platform input))))
    as [p | ] eqn:Hround.
  - rewrite (reward_pair flt table contributorId pdId input p Hround).
    destruct (fail_findUnique flt); [now left | ].
    destruct (match findContributor table contributorId with
              | Some _ => false | None => fail_create flt end); [now left | ].
    destruct (fail_update flt || consentDateRejected Date_getTime input);
      cbn [snd]; [right; now left | right; right; now exists p].
  - rewrite (reward_pair_none flt table contributorId pdId input Hround).
    destruct (fail_findUnique flt); [now left | ].
    destruct (match findContributor table contributorId with
              | Some _ => false | None => fail_create flt end);
      [now left | right; now left].
Qed.

Lemma findContributor_none (table : list Contributor) (anon : string) :
  findContributor table anon = None <-> ~ In anon (map c_anonymousId table).
Proof.
  unfold findContributor. split.
  - intros E Hin. apply in_map_iff in Hin as (c & Hk & Hin).
    apply (find_none _ _ E) in Hin. cbv beta in Hin.
    rewrite Hk, String.eqb_refl in Hin. discriminate.
  - intros Hno. destruct (find _ table) as [c | ] eqn:E; [ | reflexivity].
    apply find_some in E as [Hin Hk]. apply String.eqb_eq in Hk.
    exfalso. apply Hno. rewrite <- Hk. now apply in_map.
Qed.

Lemma findContributor_tableWith (table : list Contributor) (contributorId : string)
  (input : ProcessDeclarationInput) :
  findContributor (tableWith table newContributorId contributorId input) contributorId
  = Some (contributorFor table newContributorId contributorId input).
Proof.
  unfold tableWith, contributorFor.
  destruct (findContributor table contributorId) as [c | ] eqn:E; [exact E | ].
  unfold findContributor in *. rewrite (find_snoc_new _ _ _ E).
  cbn [freshContributor c_anonymousId]. now rewrite String.eqb_refl.
Qed.

Lemma findContributor_tableWith_other (table : list Contributor)
  (contributorId other : string) (input : ProcessDeclarationInput) :
  other <> contributorId ->
  findContributor (tableWith table newContributorId contributorId input) other
  = findContributor table other.
Proof.
  intros Hne. unfold tableWith.
  destruct (findContributor table contributorId); [reflexivity | ].
  unfold findContributor.
  destruct (find (fun c => String.eqb (c_anonymousId c) other) table) as [c | ] eqn:E.
  - now apply find_snoc_old.
  - rewrite (find_snoc_new _ _ _ E). cbn [freshContributor c_anonymousId].
    apply String.eqb_neq in Hne. rewrite String.eqb_sym. now rewrite Hne.
Qed.

Lemma keys_tableWith (table : list Contributor) (contributorId : string)
  (input : ProcessDeclarationInput) :
  ~ In newContributorId (map c_id table) ->
  (NoDup (map c_id table) ->
   NoDup (map c_id (tableWith table newContributorId contributorId input)))
  /\ (NoDup (map c_anonymousId table) ->
      NoDup (map c_anonymousId
               (tableWith table newContributorId contributorId input))).
Proof.
  intros Hfresh. unfold tableWith.
  destruct (findContributor table contributorId) eqn:E; [tauto | ].
  rewrite !map_app. cbn [map freshContributor c_id c_anonymousId].
  split; intros Hnd; apply NoDup_snoc; try assumption.
  now apply findContributor_none.
Qed.

Lemma map_updateContributor {B} (key : Contributor -> B) (table : list Contributor)
  (id : string) (f : Contributor -> Contributor) :
  (forall x, key (f x) = key x) ->
  map key (updateContributor table id f) = map key table.
Proof.
  intros Hf. induction table as [ | x r IH]; [reflexivity | ].
  cbn [updateContributor]. destruct (String.eqb (c_id x) id); cbn [map].
  - now rewrite Hf.
  - now rewrite IH.
Qed.

(** The update of a row leaves the rows of the other anonymous ids as
    they are. *)
Lemma findContributor_update_other (table : list Contributor)
  (anon other : string) (c : Contributor) (f : Contributor -> Contributor) :
  (forall x, c_anonymousId (f x) = c_anonymousId x) ->
  NoDup (map c_id table) ->
  findContributor table anon = Some c -> other <> anon ->
  findContributor (updateContributor table (c_id c) f) other
  = findContributor table other.
Proof.
  intros Hf. unfold findContributor.
  induction table as [ | x r IH]; intros Hnd Hfind Hne; [discriminate | ].
  cbn [find updateContributor map] in *.
  inversion Hnd as [ | ? ? Hnotin Hnd']; subst.
  destruct (String.eqb (c_anonymousId x) anon) eqn:Ex.
  - injection Hfind as <-. rewrite String.eqb_refl. cbn [find]. rewrite Hf.
    apply String.eqb_eq in Ex. rewrite Ex.
    apply String.eqb_neq in Hne. rewrite String.eqb_sym in Hne. now rewrite Hne.
  - destruct (String.eqb_spec (c_id x) (c_id c)) as [Eid | Nid].
    + exfalso. apply Hnotin. rewrite Eid.
      apply find_some in Hfind as [Hin _]. now apply in_map.
    + cbn [find]. destruct (String.eqb (c_anonymousId x) other); [reflexivity | ].
      now apply IH.
Qed.

Lemma rewardedRow_keys (contributor : Contributor) (input : ProcessDeclarationInput)
  (p : Z) (x : Contributor) :
  c_id (rewardedRow Date_getTime contributor input p x) = c_id x
  /\ c_anonymousId (rewardedRow Date_getTime contributor input p x) = c_anonymousId x.
Proof. split; reflexivity. Qed.

(** The row of the contributor after a reward was returned. *)
Lemma reward_persisted (flt : Faults) (table : list Contributor)
  (contributorId pdId : string) (input : ProcessDeclarationInput)
  (reward : ContributorReward) :
  let c := contributorFor table newContributorId contributorId input in
  let result := calculateContributionReward Date_getTime newContributorId flt
                  table contributorId pdId input in
  NoDup (map c_id table) -> ~ In newContributorId (map c_id table) ->
  fst result = Some reward ->
  findContributor (snd result) contributorId
  = Some (rewardedRow Date_getTime c input (pointsEarned reward) c).
Proof.
  intros c result Hids Hfresh Hreward.
  destruct (reward_success flt table contributorId pdId input reward Hreward)
    as (p & _ & -> & _ & _ & _ & Htable).
  unfold result. rewrite Htable.
  apply findContributor_update.
  - intros x. apply rewardedRow_keys.
  - now apply keys_tableWith.
  - apply findContributor_tableWith.
Qed.

Lemma tier_round_trip (t : ContributorTier) :
  JS.toLowerCase (tierToPrismaEnum t) = tier_name t.
Proof. destruct t; reflexivity. Qed.

(** The row ids and the anonymous ids stay keys under the engine. *)
Lemma reward_table_keys (flt : Faults) (table : list Contributor)
  (contributorId pdId : string) (input : ProcessDeclarationInput) :
  ~ In newContributorId (map c_id table) -> keysOK table ->
  keysOK (snd (calculateContributionReward Date_getTime newContributorId flt
                 table contributorId pdId input)).
Proof.
  intros Hfresh [Kid Kanon].
  destruct (keys_tableWith table contributorId input Hfresh) as [Wid Wanon].
  destruct (reward_table flt table contributorId pdId input) as [E | [E | [p E]]];
    rewrite E; unfold keysOK.
  - auto.
  - auto.
  - rewrite !map_updateContributor by (intros x; apply rewardedRow_keys). auto.
Qed.

(** X14.  The engine touches one contributor.  In a table whose row ids
    are keys and for a new row id that is not in use, after
    [calculateContributionReward], returned reward or not, the row of
    every other anonymous id is the one before, the row ids and the
    anonymous ids are still keys, and the table has one row more exactly
    when the contributor was unknown and the creation of its row was
    reached. *)
Theorem reward_touches_one_contributor (flt : Faults) (table : list Contributor)
  (contributorId pdId : string) (input : ProcessDeclarationInput)
  (Hids : NoDup (map c_id table))
  (Hfresh : ~ In newContributorId (map c_id table)) :
  let table' := snd (calculateContributionReward Date_getTime newContributorId flt
                       table contributorId pdId input) in
  (forall other, other <> contributorId ->
                 findContributor table' other = findContributor table other)
  /\ NoDup (map c_id table')
  /\ (NoDup (map c_anonymousId table) -> NoDup (map c_anonymousId table'))
  /\ (findContributor table contributorId <> None ->
      List.length table' = List.length table)
  /\ (List.length table' = List.length table
      \/ (findContributor table contributorId = None
          /\ List.length table' = S (List.length table)
          /\ findContributor table' contributorId <> None)).
Proof.
  intros table'.
  destruct (keys_tableWith table contributorId input Hfresh) as [Kid Kanon].
  assert (Hlen : List.length (tableWith table newContributorId contributorId input)
                 = match findContributor table contributorId with
                   | Some _ => List.length table
                   | None => S (List.length table)
                   end).
  { unfold tableWith. destruct (findContributor table contributorId);
      [reflexivity | ]. rewrite length_app. cbn. lia. }
  destruct (reward_table flt table contributorId pdId input) as [E | [E | [p E]]];
    fold table' in E; rewrite E.
  - repeat split; auto.
  - split; [ | split; [ | split; [ | split]]].
    + intros other Hne. now apply findContributor_tableWith_other.
    + now apply Kid.
    + exact Kanon.
    + intros Hknown. rewrite Hlen.
      destruct (findContributor table contributorId); [reflexivity | ].
      now contradiction Hknown.
    + rewrite Hlen. rewrite findContributor_tableWith.
      destruct (findContributor table contributorId);
        [now left | right; repeat split; discriminate].
  - split; [ | split; [ | split; [ | split]]].
    + intros other Hne.
      rewrite (findContributor_update_other _ contributorId other);
        [ now apply findContributor_tableWith_other
        | intros x; apply rewardedRow_keys
        | now apply Kid
        | apply findContributor_tableWith
        | exact Hne ].
    + rewrite map_updateContributor; [now apply Kid | ].
      intros x. apply rewardedRow_keys.
    + intros Hk. rewrite map_updateContributor; [now apply Kanon | ].
      intros x. apply rewardedRow_keys.
    + intros Hknown. rewrite updateContributor_length, Hlen.
      destruct (findContributor table contributorId); [reflexivity | ].
      now contradiction Hknown.
    + rewrite updateContributor_length, Hlen.
      rewrite (findContributor_update _ contributorId
                 (contributorFor table newContributorId contributorId input));
        [ | intros x; apply rewardedRow_keys | now apply Kid
          | apply findContributor_tableWith ].
      destruct (findContributor table contributorId);
        [now left | right; repeat split; discriminate].
Qed.

(** *** Tags *)

Lemma mem_string_In (k : string) (l : list string) :
  JS.mem_string k l = true <-> In k l.
Proof.
  unfold JS.mem_string. rewrite existsb_exists. split.
  - intros (x & Hin & E). apply String.eqb_eq in E. now subst.
  - intros Hin. exists k. split; [exact Hin | apply String.eqb_refl].
Qed.

Lemma addTags_spec (tags seen : list string) :
  (forall t, In t (addTags seen tags) <-> In t seen \/ In t tags)
  /\ (NoDup seen -> NoDup (addTags seen tags))
  /\ exists added, addTags seen tags = seen ++ added.
Proof.
  revert seen. induction tags as [ | tag r IH]; intros seen; cbn [addTags].
  - split; [ | split].
    + intros t. cbn [In]. tauto.
    + trivial.
    + exists []. now rewrite app_nil_r.
  - destruct (JS.mem_string tag seen) eqn:M.
    + apply mem_string_In in M. destruct (IH seen) as (Hin & Hnd & added & E).
      split; [ | split; [exact Hnd | now exists added]].
      intros t. rewrite Hin. cbn [In]. split; [tauto | ].
      intros [H | [<- | H]]; auto.
    + assert (Hno : ~ In tag seen).
      { intros Hin. apply mem_string_In in Hin. congruence. }
      destruct (IH (seen ++ [tag])) as (Hin & Hnd & added & E).
      split; [ | split].
      * intros t. rewrite Hin, in_app_iff. cbn [In]. tauto.
      * intros Hs. apply Hnd. now apply NoDup_snoc.
      * exists (tag :: added). rewrite E, <- app_assoc. reflexivity.
Qed.

(** Tags that are all different are taken as they are. *)
Lemma addTags_distinct (tags seen : list string) :
  NoDup (seen ++ tags) -> addTags seen tags = seen ++ tags.
Proof.
  revert seen. induction tags as [ | t r IH]; intros seen H;
    cbn [addTags]; [now rewrite app_nil_r | ].
  destruct (JS.mem_string t seen) eqn:M.
  - exfalso. apply mem_string_In in M.
    apply NoDup_remove_2 in H. apply H. apply in_or_app. now left.
  - rewrite IH; rewrite <- app_assoc; [reflexivity | exact H].
Qed.

(** X15.  The tags of a contributor only grow.  After a reward was
    returned, the stored tags of the contributor hold no tag twice, and a
    tag is among them exactly when it was a tag of the contributor before
    or is a tag of the input; the tags that were there come first, in
    their order. *)
Theorem reward_merges_tags (flt : Faults) (table : list Contributor)
  (contributorId pdId : string) (input : ProcessDeclarationInput)
  (reward : ContributorReward)
  (Hids : NoDup (map c_id table))
  (Hfresh : ~ In newContributorId (map c_id table))
  (Hreward : fst (calculateContributionReward Date_getTime newContributorId flt
                    table contributorId pdId input) = Some reward) :
  let c := contributorFor table newContributorId contributorId input in
  let table' := snd (calculateContributionReward Date_getTime newContributorId flt
                       table contributorId pdId input) in
  exists row,
    findContributor table' contributorId = Some row
    /\ NoDup (c_expertiseTags row)
    /\ (forall tag, In tag (c_expertiseTags row)
                    <-> In tag (c_expertiseTags c) \/ In tag (inputTags input))
    /\ (NoDup (c_expertiseTags c) ->
        exists added, c_expertiseTags row = c_expertiseTags c ++ added).
Proof.
  intros c table'.
  pose proof (reward_persisted flt table contributorId pdId input reward
                Hids Hfresh Hreward) as Hrow.
  fold c in Hrow. fold table' in Hrow.
  eexists. split; [exact Hrow | ].
  unfold rewardedRow. cbn [c_expertiseTags]. unfold mergedTags.
  fold (inputTags input).
  destruct (addTags_spec (c_expertiseTags c) []) as (Hin1 & Hnd1 & _).
  destruct (addTags_spec (inputTags input) (addTags [] (c_expertiseTags c)))
    as (Hin2 & Hnd2 & added & E).
  split; [ | split].
  - apply Hnd2, Hnd1. constructor.
  - intros tag. rewrite Hin2, Hin1. cbn [In]. tauto.
  - intros Hnd. exists added. rewrite E. f_equal.
    exact (addTags_distinct (c_expertiseTags c) [] Hnd).
Qed.

(** *** Platform statistics *)

Lemma own_property_setStat (stats : list (string * PlatformStat))
  (key k : string) (v : PlatformStat) :
  JS.own_property (setStat stats key v) k
  = if String.eqb key k then Some v else JS.own_property stats k.
Proof.
  induction stats as [ | [k0 old] r IH]; cbn [setStat JS.own_property].
  - reflexivity.
  - destruct (String.eqb_spec k0 key) as [-> | Hne]; cbn [JS.own_property].
    + destruct (String.eqb key k); reflexivity.
    + rewrite IH. destruct (String.eqb_spec k0 k) as [-> | Hne'];
        [ | reflexivity].
      apply String.eqb_neq in Hne. rewrite String.eqb_sym in Hne. now rewrite Hne.
Qed.

(** A platform that maps to an enum value is not a member of
    [Object.prototype]. *)
Lemma recognised_not_inherited (p v : string) :
  mapPlatformToEnum p = JS.VString v ->
  JS.mem_string (JS.toLowerCase p) JS.Object_prototype = false.
Proof.
  destruct (JS.mem_string (JS.toLowerCase p) JS.Object_prototype) eqn:M;
    [ | reflexivity].
  intros H. destruct (inherited_keys p M) as [E | E];
    unfold mapPlatformToEnum in H; rewrite E in H; discriminate H.
Qed.

(** X16.  A rewarded contribution is counted for its platform.  After a
    reward was returned for an input whose platform maps to an enum
    value, the stored statistics of the contributor have, under the
    lowercased platform, one contribution more than before (one, with the
    accuracy 0.5, for a platform not met before), and the statistics of
    every other platform are the ones before. *)
Theorem reward_counts_platform (flt : Faults) (table : list Contributor)
  (contributorId pdId : string) (input : ProcessDeclarationInput)
  (reward : ContributorReward) (value : string)
  (Hplatform : mapPlatformToEnum (platform input) = JS.VString value)
  (Hids : NoDup (map c_id table))
  (Hfresh : ~ In newContributorId (map c_id table))
  (Hreward : fst (calculateContributionReward Date_getTime newContributorId flt
                    table contributorId pdId input) = Some reward) :
  let c := contributorFor table newContributorId contributorId input in
  let table' := snd (calculateContributionReward Date_getTime newContributorId flt
                       table contributorId pdId input) in
  let key := JS.toLowerCase (platform input) in
  exists row,
    findContributor table' contributorId = Some row
    /\ statOf (c_platformStats row) key
       = mkStat (contributions (statOf (c_platformStats c) key) + 1)
                (accuracy (statOf (c_platformStats c) key))
    /\ (JS.own_property (statsObject (c_platformStats c)) key = None ->
        statOf (c_platformStats row) key = mkStat 1 0.5)
    /\ (forall k, k <> key ->
                  JS.own_property (statsObject (c_platformStats row)) k
                  = JS.own_property (statsObject (c_platformStats c)) k).
Proof.
  intros c table' key.
  pose proof (reward_persisted flt table contributorId pdId input reward
                Hids Hfresh Hreward) as Hrow.
  fold c in Hrow. fold table' in Hrow.
  eexists. split; [exact Hrow | ].
  unfold rewardedRow. cbn [c_platformStats]. fold key.
  unfold statOf, bumpStats. cbn [statsObject]. fold (statsObject (c_platformStats c)).
  unfold JS.get.
  pose proof (recognised_not_inherited _ _ Hplatform) as Hproto. fold key in Hproto.
  destruct (JS.own_property (statsObject (c_platformStats c)) key) as [s | ] eqn:E.
  - split; [ | split].
    + rewrite own_property_setStat, String.eqb_refl. reflexivity.
    + discriminate.
    + intros k Hne. rewrite own_property_setStat.
      apply String.eqb_neq in Hne. rewrite String.eqb_sym in Hne. now rewrite Hne.
  - rewrite Hproto. split; [ | split].
    + rewrite own_property_setStat, String.eqb_refl. reflexivity.
    + intros _. rewrite own_property_setStat, String.eqb_refl. reflexivity.
    + intros k Hne. rewrite own_property_setStat.
      apply String.eqb_neq in Hne. rewrite String.eqb_sym in Hne. now rewrite Hne.
Qed.

(** *** The statistics of a contributor *)

Variable Contributor_createdAt : string -> Z.

(** X13.  What the engine reports is what it stores.  After a reward was
    returned, in a table whose row ids are keys and for a new row id that
    is not in use, [getContributorStats] of the contributor gives the new
    total of the reward as the total points, the tier of that total (in
    lowercase, read back from the enum value that was written), one
    contribution more than before, the taste score and the creation time
    unchanged; and the quality multiplier of the reward is 0.5 plus that
    taste score. *)
Theorem reward_visible_in_stats (flt : Faults) (table : list Contributor)
  (contributorId pdId : string) (input : ProcessDeclarationInput)
  (reward : ContributorReward)
  (Hids : NoDup (map c_id table))
  (Hfresh : ~ In newContributorId (map c_id table))
  (Hreward : fst (calculateContributionReward Date_getTime newContributorId flt
                    table contributorId pdId input) = Some reward) :
  let c := contributorFor table newContributorId contributorId input in
  let table' := snd (calculateContributionReward Date_getTime newContributorId flt
                       table contributorId pdId input) in
  exists stats,
    Stats.getContributorStats Contributor_createdAt table' contributorId = Some stats
    /\ Stats.cs_totalPoints stats = newTotal reward
    /\ Stats.cs_totalPoints stats = (c_totalPoints c + pointsEarned reward)%Z
    /\ Stats.cs_currentTier stats = tier_name (calculateTier (newTotal reward))
    /\ Stats.cs_totalContributions stats = (c_totalContributions c + 1)%Z
    /\ Stats.cs_tasteScore stats = c_tasteScore c
    /\ Stats.cs_createdAt stats = Contributor_createdAt (c_id c)
    /\ qualityMultiplier reward = 0.5 + Stats.cs_tasteScore stats.
Proof.
  intros c table'.
  pose proof (reward_persisted flt table contributorId pdId input reward
                Hids Hfresh Hreward) as Hrow.
  destruct (reward_success flt table contributorId pdId input reward Hreward)
    as (p & _ & Hp & Htotal & Hqm & _ & _).
  fold c in Hrow, Htotal, Hqm. fold table' in Hrow.
  unfold Stats.getContributorStats. rewrite Hrow.
  eexists. split; [reflexivity | ].
  cbn [Stats.cs_totalPoints Stats.cs_currentTier Stats.cs_totalContributions
       Stats.cs_tasteScore Stats.cs_createdAt].
  unfold Stats.storedTier, rewardedRow.
  cbn [c_totalPoints c_currentTier c_totalContributions c_tasteScore c_id].
  rewrite tier_round_trip, Htotal, Hp, Hqm. repeat split; reflexivity.
Qed.

End ContributorFacts.

(** ** The taste score under any alignment *)

Section TasteScoreFacts.

Import Reward Props Binary64.

Local Open Scope float_scope.

(** *** Rounding never gives NaN *)

Lemma binary_round_aux_number (sx : bool) (mx : positive) (ex : Z) :
  (ex <= fexp64 (Z.pos (digits2_pos mx) + ex))%Z ->
  binary_round_aux prec emax sx (Z.pos mx) ex loc_Exact <> S754_nan.
Proof.
  intros HE.
  destruct (binary_round_aux_shape sx mx ex HE) as (m1 & _ & _ & _ & ->).
  destruct (m1 =? 0)%Z; [discriminate | ].
  destruct (m1 =? 2 ^ 53)%Z.
  - destruct (fexp64 (Z.pos (digits2_pos mx) + ex) + 1 <=? 971)%Z; discriminate.
  - destruct (fexp64 (Z.pos (digits2_pos mx) + ex) <=? 971)%Z; discriminate.
Qed.

Lemma binary_round_number (sx : bool) (mx : positive) (ex : Z) :
  (-1074 <= ex)%Z -> binary_round prec emax sx mx ex <> S754_nan.
Proof.
  intros He. pose proof K_eq. unfold binary_round. rewrite fexp_eq.
  set (E := fexp64 (Z.pos (digits2_pos mx) + ex)).
  assert (HE : (- K <= E)%Z) by (unfold E, fexp64; lia).
  destruct (shl_align_spec mx ex E ltac:(lia) HE) as (_ & Hs & Hd).
  destruct (shl_align mx ex E) as [mz ez]. cbn [fst snd] in *.
  apply binary_round_aux_number. rewrite Hd. fold E. lia.
Qed.

Lemma digits_mul_upper (mx my : positive) :
  (Z.pos (digits2_pos (mx * my))
   <= Z.pos (digits2_pos mx) + Z.pos (digits2_pos my))%Z.
Proof.
  pose proof (digits_bounds mx) as [_ Hx]. pose proof (digits_bounds my) as [_ Hy].
  pose proof (digits_bounds (mx * my)) as [Hl _].
  rewrite Pos2Z.inj_mul in Hl.
  assert (Hlt : (2 ^ (Z.pos (digits2_pos (mx * my)) - 1)
                 < 2 ^ (Z.pos (digits2_pos mx) + Z.pos (digits2_pos my)))%Z).
  { rewrite Z.pow_add_r by lia.
    eapply Z.le_lt_trans; [exact Hl | ]. nia. }
  apply pow2_lt_inv in Hlt; lia.
Qed.

(** The product with a finite float is NaN only for a NaN. *)
Lemma SFmul_number (x : spec_float) (sy : bool) (my : positive) (ey : Z) :
  valid_binary x = true -> bounded prec emax my ey = true ->
  x <> S754_nan -> SF64mul x (S754_finite sy my ey) <> S754_nan.
Proof.
  intros Vx Vy Hx. pose proof K_eq.
  destruct x as [sx | sx | | sx mx ex]; try discriminate; [congruence | ].
  unfold SF64mul, SFmul. cbn [valid_binary] in Vx.
  apply bounded_range in Vx as (Hex & Hdx & _ & Hnx).
  apply bounded_range in Vy as (Hey & Hdy & _ & Hny).
  pose proof (digits_mul mx my) as Hd.
  apply binary_round_aux_number. unfold fexp64.
  destruct (Z.eq_dec ex (-1074)), (Z.eq_dec ey (-1074)); lia.
Qed.

(** The product of two positive floats of magnitude at most 1 is a zero
    or finite. *)
Lemma SFmul_small (mx : positive) (ex : Z) (my : positive) (ey : Z) :
  bounded prec emax mx ex = true -> bounded prec emax my ey = true ->
  (Z.pos (digits2_pos mx) + ex <= 1)%Z -> (Z.pos (digits2_pos my) + ey <= 1)%Z ->
  (exists s, SF64mul (S754_finite false mx ex) (S754_finite false my ey) = S754_zero s)
  \/ (exists s m e,
        SF64mul (S754_finite false mx ex) (S754_finite false my ey)
        = S754_finite s m e).
Proof.
  intros Vx Vy Hmx Hmy. pose proof K_eq.
  unfold SF64mul, SFmul. cbn [xorb].
  apply bounded_range in Vx as (Hex & Hdx & _ & Hnx).
  apply bounded_range in Vy as (Hey & Hdy & _ & Hny).
  pose proof (digits_mul mx my) as Hd.
  pose proof (digits_mul_upper mx my) as Hu.
  assert (HE : (ex + ey <= fexp64 (Z.pos (digits2_pos (mx * my)) + (ex + ey)))%Z).
  { unfold fexp64. destruct (Z.eq_dec ex (-1074)), (Z.eq_dec ey (-1074)); lia. }
  destruct (binary_round_aux_shape false (mx * my) (ex + ey) HE)
    as (m1 & _ & _ & _ & ->).
  assert (Hsmall : (fexp64 (Z.pos (digits2_pos (mx * my)) + (ex + ey)) + 1 <= 971)%Z)
    by (unfold fexp64; lia).
  destruct (m1 =? 0)%Z; [left; eexists; reflexivity | right].
  destruct (m1 =? 2 ^ 53)%Z.
  - apply Z.leb_le in Hsmall. rewrite Hsmall. do 3 eexists; reflexivity.
  - assert (Hs : (fexp64 (Z.pos (digits2_pos (mx * my)) + (ex + ey)) <=? 971)%Z = true)
      by (apply Z.leb_le; lia).
    rewrite Hs. do 3 eexists; reflexivity.
Qed.

(** The sum of a zero or finite float and a float that is not NaN is not
    NaN. *)
Lemma SFadd_number (x y : spec_float) :
  valid_binary x = true -> valid_binary y = true ->
  ((exists s, x = S754_zero s) \/ (exists s m e, x = S754_finite s m e)) ->
  y <> S754_nan -> SF64add x y <> S754_nan.
Proof.
  intros Vx Vy Hx Hy. pose proof K_eq.
  destruct Hx as [[sx ->] | (sx & mx & ex & ->)];
    destruct y as [sy | sy | | sy my ey]; try congruence;
    try (unfold SF64add, SFadd; discriminate);
    try (unfold SF64add, SFadd; destruct sx, sy; discriminate).
  unfold SF64add, SFadd.
  cbn [valid_binary] in Vx, Vy.
  apply bounded_range in Vx as (Hex & _). apply bounded_range in Vy as (Hey & _).
  destruct (cond_Zopp sx (Z.pos (fst (shl_align mx ex (Z.min ex ey))))
            + cond_Zopp sy (Z.pos (fst (shl_align my ey (Z.min ex ey)))))%Z;
    cbn [binary_normalize]; [discriminate | | ];
    apply binary_round_number; lia.
Qed.

(** The moving average of a score in [0,1] and an alignment that is not
    NaN is not NaN. *)
Lemma movingAverage_any (s a : float) :
  unitScore s -> Prim2SF a <> S754_nan -> Prim2SF (movingAverage s a) <> S754_nan.
Proof.
  intros [Hs0 Hs1] Ha.
  assert (F1 : FinPos 1) by (do 2 eexists; vm_compute; reflexivity).
  unfold movingAverage.
  rewrite FloatAxioms.add_spec. apply SFadd_number; try apply Prim2SF_valid.
  - rewrite FloatAxioms.mul_spec.
    change (Prim2SF 0.8) with (S754_finite false 7205759403792794 (-53)).
    destruct (leb_zero_between 1 s F1 Hs0 Hs1) as [[z ->] | [(m & e & Hm) Hle]].
    + left. eexists. reflexivity.
    + rewrite Hm.
      pose proof (FinPos_bounded s m e Hm) as Bm.
      assert (B8 : bounded prec emax 7205759403792794 (-53) = true) by reflexivity.
      assert (Hmag : (Z.pos (digits2_pos m) + e <= 1)%Z).
      { pose proof K_eq. apply bounded_range in Bm as Rm.
        rewrite (val_FinPos s m e Hm) in Hle.
        assert (H1 : val 1 = (Z.pos 4503599627370496 * P (-52))%Z)
          by (apply val_FinPos; reflexivity).
        rewrite H1 in Hle.
        apply magnitude_le in Hle; [ | lia | lia].
        change (Z.pos (digits2_pos 4503599627370496)) with 53%Z in Hle. lia. }
      destruct (SFmul_small m e 7205759403792794 (-53) Bm B8 Hmag ltac:(cbn; lia))
        as [[z Hz] | (z & m' & e' & Hf)].
      * left. exists z. exact Hz.
      * right. exists z, m', e'. exact Hf.
  - rewrite FloatAxioms.mul_spec.
    change (Prim2SF 0.2) with (S754_finite false 7205759403792794 (-55)).
    apply SFmul_number; [apply Prim2SF_valid | reflexivity | exact Ha].
Qed.

(** The rows stay sound and the keys stay keys under
    [updateTasteScore]. *)
Lemma updateTasteScore_table (flt : Faults) (table : list Contributor)
  (contributorId : string) (a : float) :
  Prim2SF a <> S754_nan ->
  (tableOK table -> tableOK (snd (updateTasteScore flt table contributorId a)))
  /\ (keysOK table -> keysOK (snd (updateTasteScore flt table contributorId a))).
Proof.
  intros Hnumber. unfold updateTasteScore.
  destruct (fail_findUnique flt); [tauto | ].
  destruct (findContributor table contributorId) as [c | ] eqn:Hfind; [ | tauto].
  cbv zeta. destruct (fail_update flt); cbn [snd]; [tauto | ].
  change (1 - 0.2) with 0.8. fold (movingAverage (c_tasteScore c) a).
  fold (clamp01 (movingAverage (c_tasteScore c) a)).
  split.
  - intros Hsound.
    assert (Hc : rowOK c).
    { apply find_some in Hfind as [Hin _].
      unfold tableOK in Hsound. rewrite Forall_forall in Hsound. now apply Hsound. }
    apply Forall_updateContributor; [exact Hsound | ].
    intros x (Ht & _ & Hp). unfold rowOK.
    cbn [c_currentTier c_totalPoints c_tasteScore].
    split; [exact Ht | split; [ | exact Hp]].
    apply clamp01_unit. apply movingAverage_any; [apply Hc | exact Hnumber].
  - intros [Kid Kanon]. unfold keysOK.
    rewrite !map_updateContributor by (intros x; reflexivity). auto.
Qed.

(** X12.  [updateTasteScore] keeps the scores in [0,1] under every
    alignment that is a number, in range or not, finite or not: for a
    sound contributor table and an alignment that is not NaN, the score
    that the function returns lies in [0,1], also for an unknown
    contributor, and the table is sound afterwards, whichever database
    call rejects. *)
Theorem updateTasteScore_clamps (flt : Faults) (table : list Contributor)
  (contributorId : string) (a : float)
  (Hsound : tableOK table) (Hnumber : Prim2SF a <> S754_nan) :
  (forall r, fst (updateTasteScore flt table contributorId a) = Some r ->
             unitScore r)
  /\ tableOK (snd (updateTasteScore flt table contributorId a)).
Proof.
  unfold updateTasteScore.
  destruct (fail_findUnique flt); [split; [discriminate | exact Hsound] | ].
  destruct (findContributor table contributorId) as [c | ] eqn:Hfind.
  2:{ split; [ | exact Hsound]. intros r [= <-]. split; reflexivity. }
  cbv zeta. change (1 - 0.2) with 0.8.
  fold (movingAverage (c_tasteScore c) a).
  fold (clamp01 (movingAverage (c_tasteScore c) a)).
  assert (Hc : rowOK c).
  { apply find_some in Hfind as [Hin _].
    unfold tableOK in Hsound. rewrite Forall_forall in Hsound. now apply Hsound. }
  assert (Hunit : unitScore (clamp01 (movingAverage (c_tasteScore c) a))).
  { apply clamp01_unit. apply movingAverage_any; [apply Hc | exact Hnumber]. }
  destruct (fail_update flt); cbn [fst snd]; [split; [discriminate | exact Hsound] | ].
  split; [now intros r [= <-] | ].
  apply Forall_updateContributor; [exact Hsound | ].
  intros x (Ht & _ & Hp). unfold rowOK.
  cbn [c_currentTier c_totalPoints c_tasteScore]. auto.
Qed.

End TasteScoreFacts.

(** ** The platform distribution *)

Section DistributionFacts.

Import Reward Route Stats Props.

(** *** Groups and their counts *)

Lemma own_property_define {A} (obj : list (string * A)) (key k : string) (v : A) :
  JS.own_property (JS.define obj key v) k
  = if String.eqb key k then Some v else JS.own_property obj k.
Proof.
  induction obj as [ | [k0 old] r IH]; cbn [JS.define JS.own_property].
  - reflexivity.
  - destruct (String.eqb_spec k0 key) as [-> | Hne]; cbn [JS.own_property].
    + destruct (String.eqb key k); reflexivity.
    + rewrite IH. destruct (String.eqb_spec k0 k) as [-> | Hne'];
        [ | reflexivity].
      apply String.eqb_neq in Hne. rewrite String.eqb_sym in Hne. now rewrite Hne.
Qed.

Lemma own_property_keys {A} (obj : list (string * A)) (k : string) :
  JS.own_property obj k = None <-> ~ In k (map fst obj).
Proof.
  induction obj as [ | [k0 v] r IH]; cbn [JS.own_property map fst In].
  - tauto.
  - destruct (String.eqb_spec k0 k) as [-> | Hne].
    + split; [discriminate | ]. intros H. exfalso. apply H. now left.
    + rewrite IH. tauto.
Qed.

Lemma define_new {A} (obj : list (string * A)) (key : string) (v : A) :
  ~ In key (map fst obj) -> JS.define obj key v = obj ++ [(key, v)].
Proof.
  induction obj as [ | [k0 old] r IH]; cbn [JS.define map fst In app];
    [reflexivity | ].
  intros Hno. destruct (String.eqb_spec k0 key) as [-> | Hne].
  - exfalso. apply Hno. now left.
  - rewrite IH; [reflexivity | tauto].
Qed.

Lemma define_keys {A} (obj : list (string * A)) (key : string) (v : A) :
  map fst (JS.define obj key v)
  = if JS.mem_string key (map fst obj) then map fst obj else map fst obj ++ [key].
Proof.
  unfold JS.mem_string.
  induction obj as [ | [k0 old] r IH]; cbn [JS.define map fst existsb app];
    [reflexivity | ].
  rewrite (String.eqb_sym key k0).
  destruct (String.eqb k0 key); cbn [map fst orb]; [reflexivity | ].
  rewrite IH. now destruct (existsb (String.eqb key) (map fst r)).
Qed.

Lemma define_NoDup {A} (obj : list (string * A)) (key : string) (v : A) :
  NoDup (map fst obj) -> NoDup (map fst (JS.define obj key v)).
Proof.
  intros Hnd. rewrite define_keys.
  destruct (JS.mem_string key (map fst obj)) eqn:M; [exact Hnd | ].
  apply NoDup_snoc; [exact Hnd | ].
  intros Hin. apply mem_string_In in Hin. congruence.
Qed.

Lemma sumCounts_app (a b : list (string * Z)) :
  sumCounts (a ++ b) = sumCounts a + sumCounts b.
Proof.
  unfold sumCounts. induction a as [ | x r IH]; cbn [app fold_right]; lia.
Qed.

Lemma sumCounts_define (obj : list (string * Z)) (key : string) (v : Z) :
  sumCounts (JS.define obj key v)
  = sumCounts obj + v
    - match JS.own_property obj key with Some n => n | None => 0 end.
Proof.
  unfold sumCounts.
  induction obj as [ | [k0 old] r IH];
    cbn [JS.define JS.own_property fold_right snd]; [lia | ].
  destruct (String.eqb k0 key); cbn [fold_right snd]; lia.
Qed.

Let step (groups : list (string * Z)) (pd : ProcessDeclaration) : list (string * Z) :=
  bump groups (pd_platform pd).

Let onPlatform (k : string) (rows : list ProcessDeclaration) : Z :=
  Z.of_nat (List.length (filter (fun pd => String.eqb (pd_platform pd) k) rows)).

Lemma bump_lookup (groups : list (string * Z)) (p k : string) :
  JS.own_property (bump groups p) k
  = if String.eqb p k
    then Some (match JS.own_property groups p with Some n => n + 1 | None => 1 end)
    else JS.own_property groups k.
Proof.
  unfold bump. destruct (JS.own_property groups p); now rewrite own_property_define.
Qed.

Lemma groups_lookup (rows : list ProcessDeclaration) (acc : list (string * Z))
  (k : string) :
  JS.own_property (fold_left step rows acc) k
  = match JS.own_property acc k with
    | Some m => Some (m + onPlatform k rows)
    | None => if onPlatform k rows =? 0 then None else Some (onPlatform k rows)
    end.
Proof.
  revert acc. induction rows as [ | pd r IH]; intros acc; cbn [fold_left].
  - unfold onPlatform. cbn. destruct (JS.own_property acc k); [f_equal; lia | reflexivity].
  - rewrite IH. unfold step. rewrite bump_lookup.
    unfold onPlatform. cbn [filter].
    destruct (String.eqb_spec (pd_platform pd) k) as [-> | Hne].
    + cbn [List.length]. rewrite Nat2Z.inj_succ.
      set (n := Z.of_nat (List.length (filter (fun pd => String.eqb (pd_platform pd) k) r))).
      assert (0 <= n) by (unfold n; lia).
      destruct (JS.own_property acc k); [f_equal; lia | ].
      destruct (Z.eqb_spec (Z.succ n) 0); [lia | f_equal; lia].
    + reflexivity.
Qed.

Lemma groups_keys (rows : list ProcessDeclaration) (acc : list (string * Z)) :
  (NoDup (map fst acc) -> NoDup (map fst (fold_left step rows acc)))
  /\ (forall k, In k (map fst (fold_left step rows acc)) ->
                In k (map fst acc) \/ In k (map pd_platform rows))
  /\ sumCounts (fold_left step rows acc)
     = sumCounts acc + Z.of_nat (List.length rows).
Proof.
  revert acc. induction rows as [ | pd r IH]; intros acc; cbn [fold_left].
  - cbn. repeat split; auto. lia.
  - destruct (IH (step acc pd)) as (Hnd & Hin & Hsum).
    assert (Hkeys : map fst (step acc pd)
                    = if JS.mem_string (pd_platform pd) (map fst acc)
                      then map fst acc else map fst acc ++ [pd_platform pd]).
    { unfold step, bump. destruct (JS.own_property acc (pd_platform pd));
        apply define_keys. }
    split; [ | split].
    + intros H. apply Hnd. unfold step, bump.
      destruct (JS.own_property acc (pd_platform pd)); now apply define_NoDup.
    + intros k Hk. destruct (Hin k Hk) as [H | H].
      * rewrite Hkeys in H.
        destruct (JS.mem_string (pd_platform pd) (map fst acc)); [now left | ].
        apply in_app_or in H as [H | [<- | []]]; [now left | right; now left].
      * right. now right.
    + rewrite Hsum. unfold step, bump. cbn [List.length].
      destruct (JS.own_property acc (pd_platform pd)) as [n | ] eqn:E;
        rewrite sumCounts_define, E; lia.
Qed.

Lemma assign_all (groups acc : list (string * Z)) :
  NoDup (map fst (acc ++ groups)) ->
  (forall k, In k (map fst groups) -> k <> "__proto__") ->
  fold_left (fun a g => JS.assign a (fst g) (snd g)) groups acc = acc ++ groups.
Proof.
  revert acc. induction groups as [ | [k v] r IH]; intros acc Hnd Hk;
    cbn [fold_left]; [now rewrite app_nil_r | ].
  cbn [fst snd]. unfold JS.assign.
  assert (Hne : k <> "__proto__") by (apply Hk; now left).
  apply String.eqb_neq in Hne. rewrite Hne.
  rewrite define_new.
  - rewrite IH.
    + now rewrite <- app_assoc.
    + now rewrite <- app_assoc.
    + intros k' Hin. apply Hk. now right.
  - rewrite map_app in Hnd. cbn [map fst] in Hnd.
    apply NoDup_remove_2 in Hnd. intros Hin. apply Hnd.
    apply in_or_app. now left.
Qed.

Lemma assign_lookup (groups acc : list (string * Z)) (k : string) :
  NoDup (map fst groups) ->
  JS.own_property (fold_left (fun a g => JS.assign a (fst g) (snd g)) groups acc) k
  = if String.eqb k "__proto__" then JS.own_property acc k
    else match JS.own_property groups k with
         | Some v => Some v
         | None => JS.own_property acc k
         end.
Proof.
  revert acc. induction groups as [ | [k0 v0] r IH]; intros acc Hnd;
    cbn [fold_left].
  - cbn. now destruct (String.eqb k "__proto__").
  - cbn [map fst] in Hnd. inversion Hnd as [ | ? ? Hnotin Hnd']; subst.
    rewrite (IH _ Hnd'). cbn [fst snd JS.own_property]. unfold JS.assign.
    destruct (String.eqb_spec k "__proto__") as [E | Hk]; [subst k | ].
    + destruct (String.eqb_spec k0 "__proto__") as [-> | Hk0]; [reflexivity | ].
      rewrite own_property_define.
      apply String.eqb_neq in Hk0. now rewrite Hk0.
    + destruct (String.eqb_spec k0 k) as [-> | Hne].
      * apply own_property_keys in Hnotin. rewrite Hnotin.
        apply String.eqb_neq in Hk. rewrite Hk.
        now rewrite own_property_define, String.eqb_refl.
      * destruct (JS.own_property r k); [reflexivity | ].
        destruct (String.eqb k0 "__proto__"); [reflexivity | ].
        rewrite own_property_define.
        apply String.eqb_neq in Hne. now rewrite Hne.
Qed.

Lemma filter_filter_length {A} (f g : A -> bool) (l : list A) :
  List.length (filter f (filter g l))
  = List.length (filter (fun x => g x && f x) l).
Proof.
  induction l as [ | x r IH]; [reflexivity | ].
  cbn [filter]. destruct (g x); cbn [filter andb]; [ | exact IH].
  destruct (f x); cbn [List.length]; now rewrite IH.
Qed.

(** X19.  The platform distribution counts the records whose consent is
    given, and only these.  In the object that [getPlatformDistribution]
    returns, which is also the [platformDistribution] of the [GET]
    endpoint, a platform has an entry exactly when some record with
    consent has that platform, and the entry is the number of these
    records; a record without consent changes nothing.  (The key
    [__proto__] has no entry, an assignment to it being ignored.) *)
Theorem platformDistribution_counts (rows : list ProcessDeclaration) :
  (forall key, key <> "__proto__" ->
     JS.own_property (getPlatformDistribution rows) key
     = if consentingOn key rows =? 0 then None else Some (consentingOn key rows))
  /\ JS.own_property (getPlatformDistribution rows) "__proto__" = None
  /\ (forall pd, pd_consentForTrainingData pd = false ->
        getPlatformDistribution (rows ++ [pd]) = getPlatformDistribution rows)
  /\ (forall st,
        sr_stats (GET false st None)
        = Some (AggregateBody
                  (Z.of_nat (List.length (filter pd_consentForTrainingData
                                                 (processDeclarations st))))
                  (Z.of_nat (List.length (contributors st)))
                  (getPlatformDistribution (processDeclarations st)))).
Proof.
  assert (Hnd : NoDup (map fst (groupByPlatform pd_consentForTrainingData rows))).
  { unfold groupByPlatform.
    apply (proj1 (groups_keys (filter pd_consentForTrainingData rows) [])).
    constructor. }
  split; [ | split; [ | split]].
  - intros key Hkey. unfold getPlatformDistribution. cbv zeta.
    rewrite (assign_lookup _ [] key Hnd).
    apply String.eqb_neq in Hkey. rewrite Hkey.
    unfold groupByPlatform.
    change (fun groups pd => bump groups (pd_platform pd)) with step.
    rewrite groups_lookup. cbn [JS.own_property].
    unfold onPlatform, consentingOn. rewrite filter_filter_length.
    now destruct (_ =? 0).
  - unfold getPlatformDistribution. cbv zeta.
    now rewrite (assign_lookup _ [] "__proto__" Hnd).
  - intros pd Hpd. unfold getPlatformDistribution, groupByPlatform.
    rewrite filter_app. cbn [filter]. rewrite Hpd. now rewrite app_nil_r.
  - intros st. reflexivity.
Qed.

(** X20.  The counts of the distribution add up to the total.  For a
    store whose records all have a platform of the enumeration, the sum
    of the entries of the platform distribution is the number of records
    with consent, which is the [totalDeclarations] that [GET] reports
    next to it. *)
Theorem platformDistribution_total (st : Store)
  (Henum : enumStore (processDeclarations st)) :
  sumCounts (getPlatformDistribution (processDeclarations st))
  = Z.of_nat (List.length (filter pd_consentForTrainingData (processDeclarations st)))
  /\ exists contributors_,
       sr_stats (GET false st None)
       = Some (AggregateBody
                 (sumCounts (getPlatformDistribution (processDeclarations st)))
                 contributors_
                 (getPlatformDistribution (processDeclarations st))).
Proof.
  set (rows := processDeclarations st) in *.
  destruct (groups_keys (filter pd_consentForTrainingData rows) [])
    as (Hnd & Hin & Hsum).
  assert (Hgroups : getPlatformDistribution rows
                    = groupByPlatform pd_consentForTrainingData rows).
  { unfold getPlatformDistribution. cbv zeta.
    rewrite assign_all; [reflexivity | | ].
    - cbn [app]. apply Hnd. constructor.
    - intros k Hk. unfold groupByPlatform in Hk.
      destruct (Hin k Hk) as [[] | Hp].
      apply in_map_iff in Hp as (pd & <- & Hpd).
      apply filter_In in Hpd as [Hpd _].
      unfold enumStore in Henum. rewrite Forall_forall in Henum.
      specialize (Henum pd Hpd). intros E. rewrite E in Henum.
      cbn in Henum.
      repeat (destruct Henum as [Henum | Henum]; [discriminate Henum | ]).
      exact Henum. }
  assert (Htotal : sumCounts (getPlatformDistribution rows)
                   = Z.of_nat (List.length (filter pd_consentForTrainingData rows))).
  { rewrite Hgroups. unfold groupByPlatform.
    change (fun groups pd => bump groups (pd_platform pd)) with step.
    rewrite Hsum. reflexivity. }
  split; [exact Htotal | ].
  eexists. unfold GET. cbn [JS.truthy sr_stats]. cbv zeta.
  fold rows. rewrite Htotal. reflexivity.
Qed.

End DistributionFacts.

(** ** The endpoint: every outcome of a submission, and the statistics *)

Section EndpointFacts.

Import Reward Route Stats Props.

Variable Date_getTime : string -> option Z.

(** *** POST, case by case *)

(** The row that [processDeclaration.create] makes. *)
Lemma createProcessDeclaration_row (env : Env) (input : ProcessDeclarationInput)
  (platformEnum : JS.Value) (duration : option float) (pd : ProcessDeclaration) :
  createProcessDeclaration Date_getTime env input platformEnum duration = inr pd ->
  createError env = None
  /\ platformEnum = JS.VString (pd_platform pd)
  /\ pd_id pd = newDeclarationId env
  /\ pd_consentForTrainingData pd = consentForTrainingData input
  /\ pd_contributorId pd = contributorId input
  /\ pd_sessionDuration pd = duration.
Proof.
  unfold createProcessDeclaration.
  destruct (createError env); [discriminate | ].
  destruct platformEnum as [p | b]; [ | discriminate].
  destruct (Date_getTime (sessionStartedAt input)); [ | discriminate].
  destruct (optDate Date_getTime (sessionEndedAt input)) as [[e | ] | ];
    try discriminate;
    destruct (optDate Date_getTime (consentTimestamp input)) as [[t | ] | ];
    try discriminate; intros [= <-]; repeat split.
Qed.

(** The message of a row that is refused for its values is not the
    message of a duplicate. *)
Lemma createProcessDeclaration_message (env : Env) (input : ProcessDeclarationInput)
  (platformEnum : JS.Value) (duration : option float) (message : string) :
  createProcessDeclaration Date_getTime env input platformEnum duration
  = inl message ->
  JS.includes message "Unique constraint" = true ->
  createError env = Some message.
Proof.
  unfold createProcessDeclaration.
  destruct (createError env) as [msg | ]; [now intros [= ->] | ].
  destruct platformEnum as [p | b];
    destruct (Date_getTime (sessionStartedAt input));
    destruct (optDate Date_getTime (sessionEndedAt input)) as [[e | ] | ];
    destruct (optDate Date_getTime (consentTimestamp input)) as [[t | ] | ];
    try discriminate; intros [= <-]; vm_compute; discriminate.
Qed.

(** Closes the goals about one outcome of the handler. *)
Ltac outcome :=
  repeat split; intros;
  repeat match goal with
         | H : _ \/ _ |- _ => destruct H
         | H : exists _, _ |- _ => destruct H
         | H : _ /\ _ |- _ => destruct H
         | H : Some ?a = Some ?b |- _ =>
             first [ is_var b; injection H as <- | is_var a; injection H as -> ]
         end;
  try match goal with
      | E : validateProcessInput ?d ?i = _,
        H : valid (validateProcessInput ?d ?i) = _ |- _ => rewrite E in H
      end;
  try match goal with
      | E : validateProcessInput _ _ = _ |- _ => rewrite E
      end;
  try discriminate; try congruence; try reflexivity;
  try (exfalso; congruence);
  try (right; eexists; split; [reflexivity | ];
       match goal with
       | E : validateProcessInput _ _ = _ |- _ => rewrite E
       end; reflexivity);
  eauto.

(** X17.  Every outcome of a submission.  The status is 201, 400, 409 or
    500.  A request that does not end in 201 writes nothing: the store is
    the one before, and the response has [success: false], an error
    message, no id and no reward.  A request that ends in 201 has
    [success: true], no error, the id of the one record that it added to
    the store.  The status is 400 exactly for a body that is not JSON or
    that the validation refuses, with the message of the validation; and
    it is 409 only when the creation of the record was rejected with a
    message that holds [Unique constraint]. *)
Theorem POST_outcomes (env : Env) (st : Store) (body : option ProcessDeclarationInput) :
  let response := fst (POST Date_getTime env st body) in
  let st' := snd (POST Date_getTime env st body) in
  (status response = 201 \/ status response = 400
   \/ status response = 409 \/ status response = 500)
  /\ (status response <> 201 ->
      st' = st /\ success response = false /\ id response = None
      /\ reward response = None /\ exists msg, error response = Some msg)
  /\ (status response = 201 ->
      success response = true /\ error response = None
      /\ id response = Some (newDeclarationId env)
      /\ exists pd, pd_id pd = newDeclarationId env
                    /\ processDeclarations st' = processDeclarations st ++ [pd])
  /\ (status response = 400 <->
      body = None
      \/ exists input, body = Some input
                       /\ valid (validateProcessInput Date_getTime input) = false)
  /\ (forall input, body = Some input ->
        valid (validateProcessInput Date_getTime input) = false ->
        error response = Reward.error (validateProcessInput Date_getTime input))
  /\ (status response = 409 ->
      exists msg, createError env = Some msg
                  /\ JS.includes msg "Unique constraint" = true).
Proof.
  cbv zeta. unfold POST.
  destruct body as [input | ].
  2:{ cbn [fst snd failure status success id reward Route.error]. outcome. }
  destruct (validateProcessInput_shape Date_getTime input) as [E | [msg E]];
    rewrite E; cbn [valid negb Reward.error invalid].
  2:{ cbn [fst snd failure status success id reward Route.error]. outcome. }
  cbv zeta.
  destruct (createProcessDeclaration Date_getTime env input
              (mapPlatformToEnum (platform input))
              (sessionDurationOf Date_getTime input)) as [message | pd] eqn:Ec.
  - destruct (JS.includes message "Unique constraint") eqn:Ei;
      cbn [fst snd failure status success id reward Route.error]; [ | outcome].
    pose proof (createProcessDeclaration_message _ _ _ _ _ Ec Ei). outcome.
  - apply createProcessDeclaration_row in Ec as (_ & _ & Hid & _).
    assert (Hshape :
      forall (r : option ContributorReward * Store),
        fst (let '(reward, st2) := r in
             (mkResponse 201 true (Some (pd_id pd)) reward None, st2))
        = mkResponse 201 true (Some (pd_id pd)) (fst r) None
        /\ snd (let '(reward, st2) := r in
                (mkResponse 201 true (Some (pd_id pd)) reward None, st2)) = snd r).
    { intros [r s]. split; reflexivity. }
    match goal with
    | |- context [let '(reward, st2) := ?r in _] =>
        destruct (Hshape r) as (H2 & H3);
        assert (Hst : processDeclarations (snd r)
                      = processDeclarations st ++ [pd])
    end.
    { destruct (JS.truthy (contributorId input) && consentForTrainingData input);
        [ | reflexivity].
      destruct (calculateContributionReward _ _ _ _ _ _ _) as [r table].
      reflexivity. }
    rewrite H2, H3. cbn [status success id reward Route.error].
    rewrite Hid in *. outcome.
Qed.

(** The store after a submission: the one before, or the one with the
    new record and the contributor table that the engine leaves. *)
Lemma POST_store (env : Env) (st : Store) (body : option ProcessDeclarationInput) :
  (exists code msg, POST Date_getTime env st body = (failure code msg, st))
  \/ exists input pd,
       body = Some input
       /\ createProcessDeclaration Date_getTime env input
            (mapPlatformToEnum (platform input))
            (sessionDurationOf Date_getTime input) = inr pd
       /\ valid (validateProcessInput Date_getTime input) = true
       /\ POST Date_getTime env st body
          = if JS.truthy (contributorId input) && consentForTrainingData input
            then
              let r := calculateContributionReward Date_getTime (newContributorId env)
                         (rewardFaults env) (contributors st)
                         (JS.str (contributorId input)) (pd_id pd) input in
              (mkResponse 201 true (Some (pd_id pd)) (fst r) None,
               mkStore (processDeclarations st ++ [pd]) (snd r))
            else
              (mkResponse 201 true (Some (pd_id pd)) None None,
               mkStore (processDeclarations st ++ [pd]) (contributors st)).
Proof.
  destruct body as [input | ]; [ | left; do 2 eexists; reflexivity].
  destruct (valid (validateProcessInput Date_getTime input)) eqn:Ev.
  2:{ left. unfold POST. rewrite Ev. do 2 eexists; reflexivity. }
  destruct (createProcessDeclaration Date_getTime env input
              (mapPlatformToEnum (platform input))
              (sessionDurationOf Date_getTime input)) as [message | pd] eqn:Ec.
  - left. unfold POST. rewrite Ev. cbn [negb]. cbv zeta. rewrite Ec.
    destruct (JS.includes message "Unique constraint"); do 2 eexists; reflexivity.
  - right. exists input, pd. repeat split; try assumption.
    now apply POST_persisted.
Qed.

Lemma mapPlatformToEnum_value (p v : string) :
  mapPlatformToEnum p = JS.VString v -> In v platformValues.
Proof.
  intros H.
  destruct (mapPlatformToEnum_total p) as [[v' [Hin E]] | [[_ E] | E]];
    rewrite E in H; try discriminate; injection H as <-.
  - unfold platformMap in Hin. cbn [In] in Hin.
    repeat (destruct Hin as [Hin | Hin];
            [ injection Hin as _ <-; vm_compute; tauto | ]).
    destruct Hin.
  - vm_compute. tauto.
Qed.

(** The records after a submission: the ones before, with at most one
    more, whose platform is the enum value of the platform of the
    input. *)
Lemma POST_rows (env : Env) (st : Store) (body : option ProcessDeclarationInput) :
  processDeclarations (snd (POST Date_getTime env st body)) = processDeclarations st
  \/ exists input pd,
       body = Some input
       /\ processDeclarations (snd (POST Date_getTime env st body))
          = processDeclarations st ++ [pd]
       /\ mapPlatformToEnum (platform input) = JS.VString (pd_platform pd).
Proof.
  destruct (POST_store env st body)
    as [(code & msg & ->) | (input & pd & Hb & Hc & Hv & E)];
    [now left | right].
  exists input, pd. split; [exact Hb | ].
  apply createProcessDeclaration_row in Hc as (_ & Hp & _).
  split; [ | exact Hp]. rewrite E.
  now destruct (JS.truthy (contributorId input) && consentForTrainingData input).
Qed.

(** X18.  The platform of a stored record is always a value of the
    enumeration, never the string that was sent: a submission adds at
    most one record, whose platform is the enum value of the platform of
    the input, UNKNOWN when the input names none of the twelve platforms;
    so a store whose records all have a platform of the enumeration
    stays such a store. *)
Theorem POST_stores_enum_platform (env : Env) (st : Store)
  (body : option ProcessDeclarationInput) :
  let st' := snd (POST Date_getTime env st body) in
  (processDeclarations st' = processDeclarations st
   \/ exists input pd,
        body = Some input
        /\ processDeclarations st' = processDeclarations st ++ [pd]
        /\ mapPlatformToEnum (platform input) = JS.VString (pd_platform pd)
        /\ In (pd_platform pd) platformValues
        /\ ((forall value, ~ In (JS.toLowerCase (platform input), value) platformMap) ->
            pd_platform pd = "UNKNOWN"))
  /\ (enumStore (processDeclarations st) -> enumStore (processDeclarations st')).
Proof.
  cbv zeta.
  pose proof (POST_rows env st body) as Hcases.
  split.
  - destruct Hcases as [E | (input & pd & Hb & E & Hp)]; [now left | right].
    exists input, pd. repeat split; try assumption.
    + exact (mapPlatformToEnum_value _ _ Hp).
    + intros Hno.
      destruct (mapPlatformToEnum_total (platform input))
        as [[v [Hin _]] | [[_ E'] | E']].
      * exfalso. exact (Hno v Hin).
      * rewrite E' in Hp. discriminate.
      * rewrite E' in Hp. now injection Hp as <-.
  - intros Hok. destruct Hcases as [-> | (input & pd & _ & -> & Hp)]; [exact Hok | ].
    apply Forall_app. split; [exact Hok | ].
    constructor; [ | constructor]. exact (mapPlatformToEnum_value _ _ Hp).
Qed.

(** *** What the statistics show of a submission *)

(** X21.  A submission without consent leaves no trace in the
    statistics.  Whatever else the input holds, whether the request
    succeeds or not, when the consent for training data is not given the
    [GET] endpoint answers after the submission what it answered before
    it, for every contributor id and without one. *)
Theorem GET_blind_to_unconsented (env : Env) (st : Store)
  (input : ProcessDeclarationInput) (fails : bool) (query : option string)
  (Hconsent : consentForTrainingData input = false) :
  GET fails (snd (POST Date_getTime env st (Some input))) query
  = GET fails st query.
Proof.
  destruct (POST_store env st (Some input))
    as [(code & msg & ->) | (i & pd & Hb & Hc & Hv & E)]; [reflexivity | ].
  injection Hb as <-. rewrite E, Hconsent, andb_false_r. cbn [snd].
  apply createProcessDeclaration_row in Hc as (_ & _ & _ & Hpd & _).
  rewrite Hconsent in Hpd.
  unfold GET. cbn [contributors processDeclarations]. cbv zeta.
  unfold groupByPlatform. rewrite !filter_app. cbn [filter]. rewrite Hpd.
  now rewrite !app_nil_r.
Qed.

(** X22.  A reward reported by [POST] is what [GET] shows.  When the
    response of a submission carries a reward, in a store whose
    contributor row ids are keys and for a new row id that is not in
    use, [GET] with the contributor id of the input answers 200 with the
    new total of the reward as the total points and the tier of that
    total in lowercase, which is the [to] of the tier change when the
    reward reports one. *)
Theorem GET_after_rewarded_POST (env : Env) (st : Store)
  (input : ProcessDeclarationInput) (r : ContributorReward)
  (Hids : NoDup (map c_id (contributors st)))
  (Hfresh : ~ In (newContributorId env) (map c_id (contributors st)))
  (Hreward : reward (fst (POST Date_getTime env st (Some input))) = Some r) :
  let st' := snd (POST Date_getTime env st (Some input)) in
  exists contributions score tags stats,
    GET false st' (contributorId input)
    = mkStatsResponse 200 true
        (Some (ContributorBody contributions (newTotal r)
                 (tier_name (calculateTier (newTotal r))) score tags stats))
        None
    /\ qualityMultiplier r = (0.5 + score)%float
    /\ (forall from to, tierChange r = Some (from, to) ->
                        tier_name to = tier_name (calculateTier (newTotal r))
                        /\ from <> to).
Proof.
  cbv zeta.
  destruct (POST_store env st (Some input))
    as [(code & msg & Est) | (i & pd & Hb & Hc & Hv & E)].
  { rewrite Est in Hreward. discriminate Hreward. }
  injection Hb as <-. rewrite E in Hreward |- *.
  destruct (JS.truthy (contributorId input) && consentForTrainingData input) eqn:El;
    [ | discriminate].
  cbv zeta in Hreward |- *. cbn [fst snd reward] in Hreward |- *.
  apply andb_true_iff in El as [Hcid _].
  pose proof (reward_persisted Date_getTime (newContributorId env) (rewardFaults env)
                (contributors st) (JS.str (contributorId input)) (pd_id pd) input r
                Hids Hfresh Hreward) as Hrow.
  destruct (reward_success Date_getTime (newContributorId env) (rewardFaults env)
              (contributors st) (JS.str (contributorId input)) (pd_id pd) input r
              Hreward) as (p & _ & Hp & Htotal & Hqm & Htier & _).
  unfold GET. rewrite Hcid. cbn [contributors]. rewrite Hrow.
  unfold storedTier, rewardedRow.
  cbn [c_totalPoints c_currentTier c_totalContributions c_tasteScore
       c_expertiseTags c_platformStats].
  rewrite tier_round_trip, Hp, <- Htotal.
  do 4 eexists. split; [reflexivity | ]. split; [exact Hqm | ].
  intros from to Hchange. rewrite Htier, <- Htotal in Hchange.
  destruct (tier_eqb (calculateTier (newTotal r)) _) eqn:Eq; cbn [negb] in Hchange;
    [discriminate | ].
  injection Hchange as <- <-. split; [reflexivity | ].
  intros Esame. rewrite <- Esame in Eq.
  destruct (c_currentTier _); discriminate.
Qed.

(** *** The store as a whole *)

(** The contributor table after a submission: the one before, or the one
    that the engine leaves. *)
Lemma POST_contributors (env : Env) (st : Store)
  (body : option ProcessDeclarationInput) :
  contributors (snd (POST Date_getTime env st body)) = contributors st
  \/ exists input pdId,
       contributors (snd (POST Date_getTime env st body))
       = snd (calculateContributionReward Date_getTime (newContributorId env)
                (rewardFaults env) (contributors st)
                (JS.str (contributorId input)) pdId input).
Proof.
  destruct (POST_store env st body)
    as [(code & msg & ->) | (input & pd & Hb & Hc & Hv & E)]; [now left | ].
  rewrite E.
  destruct (JS.truthy (contributorId input) && consentForTrainingData input);
    [right | now left].
  exists input, (pd_id pd). reflexivity.
Qed.

(** X11.  The store stays sound.  In every store that submissions and
    updates of the taste score build from the empty one (the row id of a
    new contributor not in use, every alignment a number), in every
    contributor row the tier is the tier of the points, the taste score
    lies in [0,1] and the points are not negative; the row ids and the
    anonymous ids are keys; and every stored record has a platform of the
    enumeration.  So the contributor that a reward computation works on,
    known or new, always has a taste score in [0,1] and the tier of its
    points. *)
Theorem store_stays_sound (st : Store) (Hreach : reachableStore Date_getTime st) :
  tableOK (contributors st)
  /\ keysOK (contributors st)
  /\ enumStore (processDeclarations st)
  /\ forall newId contributorId input,
       let c := contributorFor (contributors st) newId contributorId input in
       unitScore (c_tasteScore c)
       /\ c_currentTier c = calculateTier (c_totalPoints c)
       /\ 0 <= c_totalPoints c.
Proof.
  assert (Hinv : tableOK (contributors st) /\ keysOK (contributors st)
                 /\ enumStore (processDeclarations st)).
  { induction Hreach as [ | env st body _ (IHt & IHk & IHe) Hfresh
                          | flt st cid a _ (IHt & IHk & IHe) Hnumber].
    - cbn. repeat split; constructor.
    - split; [ | split].
      + destruct (POST_contributors env st body) as [-> | (input & pdId & ->)];
          [exact IHt | ].
        now apply reward_table_sound.
      + destruct (POST_contributors env st body) as [-> | (input & pdId & ->)];
          [exact IHk | ].
        now apply reward_table_keys.
      + destruct (POST_rows env st body) as [-> | (input & pd & _ & -> & Hp)];
          [exact IHe | ].
        apply Forall_app. split; [exact IHe | ].
        constructor; [ | constructor]. exact (mapPlatformToEnum_value _ _ Hp).
    - cbn [contributors processDeclarations].
      destruct (updateTasteScore_table flt (contributors st) cid a Hnumber)
        as [Ht Hk].
      auto. }
  destruct Hinv as (Ht & Hk & He).
  split; [exact Ht | split; [exact Hk | split; [exact He | ]]].
  intros newId contributorId input c.
  destruct (rowOK_contributorFor newId (contributors st) contributorId input Ht)
    as (Htier & Hscore & Hpoints).
  auto.
Qed.

End EndpointFacts.

(** ** The tables of the types and the functions that use their copies *)

Section TableFacts.

Import Reward Props.

Lemma rarity_by_name (p name : string) (bonus : float) :
  JS.toLowerCase p = name -> In (name, bonus) PLATFORM_RARITY ->
  rarityOf (mapPlatformToEnum p) = bonus.
Proof.
  intros <- Hin. unfold mapPlatformToEnum.
  unfold PLATFORM_RARITY in Hin. cbn [In] in Hin.
  repeat (destruct Hin as [Hin | Hin];
          [ injection Hin as <- <-; reflexivity | ]).
  destruct Hin.
Qed.

(** X23.  The two tables of the types agree with the functions, which
    work on copies of them.  The rarity bonus that the engine takes for a
    platform, written in any letter case, is the weight that
    [PLATFORM_RARITY] gives to its lowercase name, the name [unknown]
    included, and a platform that the table does not name gets 1.0, the
    weight of [unknown]; and for every number of points that is not
    negative, [calculateTier] gives the one tier whose bounds in
    [TIER_THRESHOLDS], the minimum and the maximum, hold that number. *)
Theorem tables_agree :
  (forall p name bonus,
      JS.toLowerCase p = name -> In (name, bonus) PLATFORM_RARITY ->
      rarityOf (mapPlatformToEnum p) = bonus)
  /\ (forall p,
        ~ In (JS.toLowerCase p) (map fst PLATFORM_RARITY) ->
        rarityOf (mapPlatformToEnum p) = 1.0%float
        /\ In ("unknown", 1.0%float) PLATFORM_RARITY)
  /\ (forall t, TIER_THRESHOLDS t = TIER_THRESHOLDS_LOCAL t)
  /\ (forall n t, 0 <= n ->
        (calculateTier n = t <-> inRange (TIER_THRESHOLDS t) n)).
Proof.
  split; [exact rarity_by_name | ]. split; [ | split].
  - intros p Hno. split; [ | cbn; tauto].
    apply rarityOf_not_enumerated. intros value Hin. apply Hno.
    unfold platformMap in Hin. cbn [In] in Hin.
    repeat (destruct Hin as [Hin | Hin];
            [ injection Hin as E _; rewrite <- E; cbn; tauto | ]).
    destruct Hin.
  - intros t. now destruct t.
  - intros n t Hn. unfold inRange.
    destruct (calculateTier_cases n) as [[? E] | [[? E] | [[? E] | [? E]]]];
      rewrite E; destruct t; cbn [TIER_THRESHOLDS min max];
      split; intros G; try discriminate; try reflexivity; lia.
Qed.

End TableFacts.

(** ** The properties of the ledger and of the statistics at concrete inputs *)

Section MoreInstances.

Import Ledger Reward Route Stats Props LedgerProps.

Local Open Scope float_scope.

Lemma createdLedger_reachable : reachable createdLedger.
Proof.
  apply reach_createWork; [apply reach_empty | ].
  split; cbn; tauto.
Qed.

(** The ledger with the work of the example form. *)
Lemma ledger_integrity_witness :
  reachable createdLedger
  /\ wellFormed createdLedger
  /\ exists view dview,
       getWork createdLedger "w2" = Some view
       /\ wv_declaration view = Some dview
       /\ decl_workId (dv_declaration dview) = "w2".
Proof.
  pose proof createdLedger_reachable as R.
  destruct (ledger_integrity createdLedger R) as [WF Hget].
  split; [exact R | split; [exact WF | ]].
  destruct (getWork createdLedger "w2") as [view | ] eqn:E;
    [ | vm_compute in E; discriminate E].
  destruct (Hget "w2" view E) as (_ & dview & Hd & Hk & _).
  exists view, dview. auto.
Defined.


(** A revision of [d1] does not show in the work [w2]. *)
Lemma createRevision_other_work_witness :
  (forall d, In d (declarations twoWorks) -> decl_workId d = "w2" ->
             decl_id d <> JS.str (rf_declarationId exampleRevisionForm))
  /\ fst (createRevision exampleRevisionGen twoWorks exampleRevisionForm)
     = ActionSuccess
  /\ getWork (snd (createRevision exampleRevisionGen twoWorks exampleRevisionForm))
             "w2"
     = getWork twoWorks "w2".
Proof.
  assert (H : forall d, In d (declarations twoWorks) -> decl_workId d = "w2" ->
                        decl_id d <> JS.str (rf_declarationId exampleRevisionForm)).
  { intros d Hin Hk. simpl in Hin. destruct Hin as [<- | [<- | []]].
    - simpl in Hk. discriminate Hk.
    - simpl. discriminate. }
  split; [exact H | split; [reflexivity | ]].
  exact (proj1 (createRevision_other_work exampleISO exampleStringify
                  exampleRevisionGen twoWorks exampleRevisionForm "w2" 900 H)).
Defined.


(** The texts of the ledger with the work of the example form. *)
Lemma stored_text_is_trimmed_witness :
  reachable createdLedger
  /\ map work_title (works createdLedger) = ["Morning song"]
  /\ forall w, In w (works createdLedger) -> trimmed (work_title w).
Proof.
  pose proof createdLedger_reachable as R.
  split; [exact R | split; [reflexivity | ]].
  exact (proj1 (stored_text_is_trimmed createdLedger R)).
Defined.

(** The second prompt version of the malformed input has no content. *)
Lemma validateProcessInput_first_offender_witness :
  JS.truthy_string (platform malformedInput) = true
  /\ JS.truthy_string (sessionStartedAt malformedInput) = true
  /\ isDate exampleDate (sessionStartedAt malformedInput) = true
  /\ validateProcessInput exampleDate malformedInput
     = invalid "Invalid prompt version at index 1: missing required fields (id, content, timestamp, mode)".
Proof.
  assert (H1 : JS.truthy_string (platform malformedInput) = true) by reflexivity.
  assert (H2 : JS.truthy_string (sessionStartedAt malformedInput) = true)
    by reflexivity.
  assert (H3 : isDate exampleDate (sessionStartedAt malformedInput) = true)
    by reflexivity.
  split; [exact H1 | split; [exact H2 | split; [exact H3 | ]]].
  destruct (validateProcessInput_first_offender exampleDate malformedInput H1 H2 H3)
    as [Hlineage _].
  exact (Hlineage [examplePrompt "p1"]
           (mkPromptVersion "p2" "" "2024-01-01T00:00:05Z" (Some "p1") "enhance" "suno")
           [examplePrompt "p3"] eq_refl eq_refl eq_refl).
Defined.

(** The reward of the worked example for a curator of 120 points. *)
Lemma reward_points_capped_witness :
  unitScore (c_tasteScore
               (contributorFor [exampleContributor] "c-new" "anon-1" exampleInput))
  /\ fst (calculateContributionReward exampleDate "c-new" noFaults
            [exampleContributor] "anon-1" "pd-1" exampleInput)
     = Some (mkReward 56 176 None 1 1)
  /\ (3 <= 56 <= 273)%Z.
Proof.
  assert (H1 : unitScore (c_tasteScore
                 (contributorFor [exampleContributor] "c-new" "anon-1" exampleInput)))
    by (split; reflexivity).
  assert (H2 : fst (calculateContributionReward exampleDate "c-new" noFaults
                      [exampleContributor] "anon-1" "pd-1" exampleInput)
               = Some (mkReward 56 176 None 1 1))
    by (vm_compute; reflexivity).
  split; [exact H1 | split; [exact H2 | ]].
  exact (proj1 (proj2 (reward_points_capped exampleDate "c-new" noFaults
                         [exampleContributor] "anon-1" "pd-1" exampleInput
                         (mkReward 56 176 None 1 1) H1 H2))).
Defined.

Lemma exampleTable_sound : tableOK [exampleContributor; tenthContributor].
Proof.
  repeat constructor; simpl; lia.
Qed.

(** The store after the worked example and an update of the taste
    score of its contributor. *)
Lemma store_stays_sound_witness :
  reachableStore exampleDate updatedStore
  /\ map c_tasteScore (contributors updatedStore) = [0.5800000000000001]
  /\ tableOK (contributors updatedStore)
  /\ enumStore (processDeclarations updatedStore).
Proof.
  assert (R : reachableStore exampleDate updatedStore).
  { apply reach_updateTasteScore; [ | vm_compute; discriminate].
    apply reach_POST; [apply reach_emptyStore | simpl; tauto]. }
  split; [exact R | split; [vm_compute; reflexivity | ]].
  destruct (store_stays_sound exampleDate updatedStore R) as (Ht & _ & He & _).
  split; [exact Ht | exact He].
Defined.

(** An infinite alignment takes the score to 1. *)
Lemma updateTasteScore_clamps_witness :
  tableOK [exampleContributor; tenthContributor]
  /\ Prim2SF infinity <> S754_nan
  /\ fst (updateTasteScore noFaults [exampleContributor; tenthContributor]
            "anon-1" infinity) = Some 1
  /\ unitScore 1.
Proof.
  assert (H : Prim2SF infinity <> S754_nan) by (vm_compute; discriminate).
  assert (E : fst (updateTasteScore noFaults [exampleContributor; tenthContributor]
                     "anon-1" infinity) = Some 1) by (vm_compute; reflexivity).
  split; [exact exampleTable_sound | split; [exact H | split; [exact E | ]]].
  exact (proj1 (updateTasteScore_clamps noFaults [exampleContributor; tenthContributor]
                  "anon-1" infinity exampleTable_sound H) 1 E).
Defined.

Lemma seasoned_ids :
  NoDup (map c_id [seasonedContributor]) /\ ~ In "c-new" (map c_id [seasonedContributor]).
Proof.
  split.
  - simpl. constructor; [simpl; tauto | constructor].
  - simpl. intros [H | []]. discriminate H.
Qed.

Lemma seasoned_reward :
  fst (calculateContributionReward exampleDate "c-new" noFaults
         [seasonedContributor] "anon-1" "pd-1" taggedInput)
  = Some (mkReward 74 194 None 1 1.2).
Proof. vm_compute. reflexivity. Qed.

(** The statistics of the seasoned contributor after the tagged input. *)
Lemma reward_visible_in_stats_witness :
  NoDup (map c_id [seasonedContributor])
  /\ ~ In "c-new" (map c_id [seasonedContributor])
  /\ fst (calculateContributionReward exampleDate "c-new" noFaults
            [seasonedContributor] "anon-1" "pd-1" taggedInput)
     = Some (mkReward 74 194 None 1 1.2)
  /\ exists stats,
       getContributorStats (fun _ => 0%Z)
         (snd (calculateContributionReward exampleDate "c-new" noFaults
                 [seasonedContributor] "anon-1" "pd-1" taggedInput)) "anon-1"
       = Some stats
       /\ cs_totalPoints stats = 194%Z
       /\ cs_currentTier stats = "curator".
Proof.
  destruct seasoned_ids as [H1 H2].
  split; [exact H1 | split; [exact H2 | split; [exact seasoned_reward | ]]].
  destruct (reward_visible_in_stats exampleDate "c-new" (fun _ => 0%Z) noFaults
              [seasonedContributor] "anon-1" "pd-1" taggedInput
              (mkReward 74 194 None 1 1.2) H1 H2 seasoned_reward)
    as (stats & Hs & Ht & _ & Htier & _).
  exists stats. split; [exact Hs | split; [exact Ht | exact Htier]].
Defined.

(** A reward for a new contributor beside the seasoned one. *)
Lemma reward_touches_one_contributor_witness :
  NoDup (map c_id [seasonedContributor])
  /\ ~ In "c-new" (map c_id [seasonedContributor])
  /\ findContributor
       (snd (calculateContributionReward exampleDate "c-new" noFaults
               [seasonedContributor] "anon-7" "pd-1" taggedInput)) "anon-1"
     = Some seasonedContributor.
Proof.
  destruct seasoned_ids as [H1 H2].
  split; [exact H1 | split; [exact H2 | ]].
  destruct (reward_touches_one_contributor exampleDate "c-new" noFaults
              [seasonedContributor] "anon-7" "pd-1" taggedInput H1 H2)
    as (Hother & _).
  rewrite (Hother "anon-1"); [reflexivity | discriminate].
Defined.

(** The tags of the seasoned contributor after the tagged input. *)
Lemma reward_merges_tags_witness :
  NoDup (map c_id [seasonedContributor])
  /\ ~ In "c-new" (map c_id [seasonedContributor])
  /\ exists row,
       findContributor
         (snd (calculateContributionReward exampleDate "c-new" noFaults
                 [seasonedContributor] "anon-1" "pd-1" taggedInput)) "anon-1"
       = Some row
       /\ c_expertiseTags row = ["mixing"; "jazz"]
       /\ NoDup (c_expertiseTags row).
Proof.
  destruct seasoned_ids as [H1 H2].
  split; [exact H1 | split; [exact H2 | ]].
  destruct (reward_merges_tags exampleDate "c-new" noFaults
              [seasonedContributor] "anon-1" "pd-1" taggedInput
              (mkReward 74 194 None 1 1.2) H1 H2 seasoned_reward)
    as (row & Hrow & Hnd & _).
  exists row. split; [exact Hrow | split; [ | exact Hnd]].
  assert (E : findContributor
                (snd (calculateContributionReward exampleDate "c-new" noFaults
                        [seasonedContributor] "anon-1" "pd-1" taggedInput)) "anon-1"
              = Some (mkContributor "c1" "anon-1" 4 194 curator 0.5
                        ["mixing"; "jazz"] (Some [("suno", mkStat 3 0.5)])
                        (Some "1.0") (Some 1704067200000%Z)))
    by (vm_compute; reflexivity).
  rewrite E in Hrow. injection Hrow as <-. reflexivity.
Defined.

(** The statistics of Suno for the seasoned contributor after the tagged
    input, whose platform is written [Suno]. *)
Lemma reward_counts_platform_witness :
  mapPlatformToEnum (platform taggedInput) = JS.VString "SUNO"
  /\ NoDup (map c_id [seasonedContributor])
  /\ ~ In "c-new" (map c_id [seasonedContributor])
  /\ exists row,
       findContributor
         (snd (calculateContributionReward exampleDate "c-new" noFaults
                 [seasonedContributor] "anon-1" "pd-1" taggedInput)) "anon-1"
       = Some row
       /\ statOf (c_platformStats row) "suno" = mkStat 3 0.5.
Proof.
  destruct seasoned_ids as [H1 H2].
  assert (Hp : mapPlatformToEnum (platform taggedInput) = JS.VString "SUNO")
    by reflexivity.
  split; [exact Hp | split; [exact H1 | split; [exact H2 | ]]].
  destruct (reward_counts_platform exampleDate "c-new" noFaults
              [seasonedContributor] "anon-1" "pd-1" taggedInput
              (mkReward 74 194 None 1 1.2) "SUNO" Hp H1 H2 seasoned_reward)
    as (row & Hrow & Hstat & _).
  exists row. split; [exact Hrow | ]. exact Hstat.
Defined.

(** One stored record with consent, on Stable Diffusion. *)
Lemma platformDistribution_total_witness :
  enumStore (processDeclarations (mkStore [exampleRow] []))
  /\ sumCounts (getPlatformDistribution [exampleRow]) = 1%Z
  /\ getPlatformDistribution [exampleRow] = [("STABLE_DIFFUSION", 1%Z)].
Proof.
  assert (H : enumStore (processDeclarations (mkStore [exampleRow] []))).
  { constructor; [ | constructor]. vm_compute. tauto. }
  split; [exact H | split; [ | reflexivity]].
  exact (proj1 (platformDistribution_total (mkStore [exampleRow] []) H)).
Defined.

(** The worked example without consent: stored, and not seen by GET. *)
Lemma GET_blind_to_unconsented_witness :
  consentForTrainingData unconsentedInput = false
  /\ status (fst (POST exampleDate healthyEnv emptyStore (Some unconsentedInput)))
     = 201%Z
  /\ GET false (snd (POST exampleDate healthyEnv emptyStore (Some unconsentedInput)))
         None
     = GET false emptyStore None.
Proof.
  split; [reflexivity | split; [vm_compute; reflexivity | ]].
  exact (GET_blind_to_unconsented exampleDate healthyEnv emptyStore unconsentedInput
           false None eq_refl).
Defined.

(** The worked example through the endpoint, and the statistics after
    it. *)
Lemma GET_after_rewarded_POST_witness :
  NoDup (map c_id (contributors emptyStore))
  /\ ~ In (newContributorId healthyEnv) (map c_id (contributors emptyStore))
  /\ reward (fst (POST exampleDate healthyEnv emptyStore (Some exampleInput)))
     = Some (mkReward 56 56 None 1 1)
  /\ exists contributions score tags stats,
       GET false (snd (POST exampleDate healthyEnv emptyStore (Some exampleInput)))
           (Some "anon-1")
       = mkStatsResponse 200 true
           (Some (ContributorBody contributions 56 "explorer" score tags stats))
           None.
Proof.
  assert (H1 : NoDup (map c_id (contributors emptyStore))) by constructor.
  assert (H2 : ~ In (newContributorId healthyEnv)
                    (map c_id (contributors emptyStore)))
    by (simpl; tauto).
  assert (H3 : reward (fst (POST exampleDate healthyEnv emptyStore (Some exampleInput)))
               = Some (mkReward 56 56 None 1 1))
    by (vm_compute; reflexivity).
  split; [exact H1 | split; [exact H2 | split; [exact H3 | ]]].
  destruct (GET_after_rewarded_POST exampleDate healthyEnv emptyStore exampleInput
              (mkReward 56 56 None 1 1) H1 H2 H3)
    as (contributions & score & tags & stats & Hget & _).
  exists contributions, score, tags, stats. exact Hget.
Defined.

(** The export endpoint on the ledger of the example form. *)
Example exportGET_examples :
  xs_status (exportGET exampleISO exampleStringify 900 createdLedger "w2") = 200%Z
  /\ xs_status (exportGET exampleISO exampleStringify 900 createdLedger "w1") = 404%Z.
Proof. split; reflexivity. Qed.

(** The statistics endpoint on an empty store. *)
Example GET_examples :
  GET false emptyStore (Some "anon-1")
  = mkStatsResponse 404 false None (Some "Contributor not found")
  /\ GET false emptyStore None
     = mkStatsResponse 200 true (Some (AggregateBody 0 0 [])) None
  /\ sr_status (GET true emptyStore None) = 500%Z.
Proof. repeat split; reflexivity. Qed.

(** The clamp at alignments out of range. *)
Example updateTasteScore_out_of_range :
  fst (updateTasteScore noFaults [exampleContributor] "anon-1" (-3)) = Some 0
  /\ fst (updateTasteScore noFaults [exampleContributor] "anon-1" 7) = Some 1
  /\ fst (updateTasteScore noFaults [exampleContributor] "anon-1" neg_infinity)
     = Some 0.
Proof. repeat split; vm_compute; reflexivity. Qed.

End MoreInstances.
